(** * Mini Ping-Pong con sonido (ESP32 + SSD1306): the game core of [main.ino]

    The sketch is embedded as pure functions over two records: [Game], which holds
    the sketch's global variables (and the one function-local [static]), and
    [World], which holds what the adapters touch: the millisecond clock, the
    pseudo-random generator, the NVS entry ["best"] and the trace of audio and
    persistence calls.  The buttons are functions of time supplied by an [Env].

    Modelling conventions.
    - [float] is IEEE-754 binary32, every operation rounded to nearest-even on its
      own ([SpecFloat] at precision 24, maximal exponent 128).
    - [uint16_t] and [uint32_t] are [Z] reduced modulo 2^16 and 2^32 where the
      sketch stores or subtracts them; [int] is [Z] reduced to the signed 32-bit
      range.
    - Within a call of [loop()] computation takes no time and [delay n] takes
      exactly [n] ms; between two calls any amount of time may pass.  The clock
      is the true number of milliseconds since power-up, [millis] is its 32-bit
      reading.
    - Drawing calls change none of the variables below and are left out.
    - The two unbounded [while] loops of the sketch take fuel and return
      [None] when it runs out. *)

From Stdlib Require Import ZArith List Bool Lia String Ascii DecimalString.
From Stdlib Require Import Floats.SpecFloat.
Import ListNotations.
Local Open Scope Z_scope.

(** ** Machine arithmetic *)

Definition u16 (z : Z) : Z := z mod 65536.
Definition u32 (z : Z) : Z := z mod 4294967296.
Definition i32 (z : Z) : Z := (z + 2147483648) mod 4294967296 - 2147483648.

Module F32.

Definition prec : Z := 24.
Definition emax : Z := 128.
Definition t : Type := spec_float.

Definition of_int (z : Z) : t := binary_normalize prec emax z 0 false.
Definition add : t -> t -> t := SFadd prec emax.
Definition sub : t -> t -> t := SFsub prec emax.
Definition mul : t -> t -> t := SFmul prec emax.
Definition div : t -> t -> t := SFdiv prec emax.
Definition neg : t -> t := SFopp.
Definition abs : t -> t := SFabs.

(** C++ comparisons; each is [false] as soon as an operand is NaN. *)
Definition lt (x y : t) : bool := SFltb x y.
Definition le (x y : t) : bool := SFleb x y.
Definition gt (x y : t) : bool := SFltb y x.
Definition ge (x y : t) : bool := SFleb y x.

(** The decimal literal [n/d] as the compiler rounds it: both integers are
    exactly representable and the division is correctly rounded, so the quotient
    is the binary32 value nearest to the literal. *)
Definition literal (n d : Z) : t := div (of_int n) (of_int d).

Definition is_nan (x : t) : bool :=
  match x with S754_nan => true | _ => false end.

Definition zero : t := of_int 0.

End F32.

(** ** Constants of the sketch *)

Definition SCREEN_WIDTH : Z := 128.
Definition SCREEN_HEIGHT : Z := 64.
Definition paddleWidth : Z := 24.
Definition paddleHeight : Z := 4.
Definition paddleY : Z := SCREEN_HEIGHT - paddleHeight - 1.
Definition paddleSpeed : F32.t := F32.literal 52 10.
Definition ballR : Z := 2.
Definition SLOW_SEC : Z := 20.
Definition FAST_SEC : Z := 5.
Definition FPS : Z := 60.
Definition FRAME_INTERVAL : Z := 1000 / FPS.
Definition BLINK_INTERVAL : Z := 500.

(** ** The global variables *)

Inductive GameState : Type := STATE_START | STATE_PLAYING | STATE_GAMEOVER.

(** [t0] is the [static] local of [bothButtonsHeld]; the other fields are the
    sketch's globals under their own names. *)
Record Game : Type := {
  gameState : GameState;
  score : Z;
  paddleX : F32.t;
  ballX : F32.t;
  ballY : F32.t;
  ballVX : F32.t;
  ballVY : F32.t;
  speedMultiplier : F32.t;
  fastMode : bool;
  modeStartSec : Z;
  lastFrameMs : Z;
  runStartMs : Z;
  lastSecondMs : Z;
  elapsedSec : Z;
  finalTimeCaptured : bool;
  finalElapsedSec : Z;
  bestTimeSec : Z;
  blinkOn : bool;
  lastBlinkMs : Z;
  hasPlayedFirstStartBeep : bool;
  t0 : Z
}.

Definition set_gameState (v : GameState) (g : Game) : Game :=
  {| gameState := v; score := score g; paddleX := paddleX g; ballX := ballX g;
     ballY := ballY g; ballVX := ballVX g; ballVY := ballVY g;
     speedMultiplier := speedMultiplier g; fastMode := fastMode g;
     modeStartSec := modeStartSec g; lastFrameMs := lastFrameMs g;
     runStartMs := runStartMs g; lastSecondMs := lastSecondMs g;
     elapsedSec := elapsedSec g; finalTimeCaptured := finalTimeCaptured g;
     finalElapsedSec := finalElapsedSec g; bestTimeSec := bestTimeSec g;
     blinkOn := blinkOn g; lastBlinkMs := lastBlinkMs g;
     hasPlayedFirstStartBeep := hasPlayedFirstStartBeep g; t0 := t0 g |}.

Definition set_score (v : Z) (g : Game) : Game :=
  {| gameState := gameState g; score := v; paddleX := paddleX g; ballX := ballX g;
     ballY := ballY g; ballVX := ballVX g; ballVY := ballVY g;
     speedMultiplier := speedMultiplier g; fastMode := fastMode g;
     modeStartSec := modeStartSec g; lastFrameMs := lastFrameMs g;
     runStartMs := runStartMs g; lastSecondMs := lastSecondMs g;
     elapsedSec := elapsedSec g; finalTimeCaptured := finalTimeCaptured g;
     finalElapsedSec := finalElapsedSec g; bestTimeSec := bestTimeSec g;
     blinkOn := blinkOn g; lastBlinkMs := lastBlinkMs g;
     hasPlayedFirstStartBeep := hasPlayedFirstStartBeep g; t0 := t0 g |}.

Definition set_paddleX (v : F32.t) (g : Game) : Game :=
  {| gameState := gameState g; score := score g; paddleX := v; ballX := ballX g;
     ballY := ballY g; ballVX := ballVX g; ballVY := ballVY g;
     speedMultiplier := speedMultiplier g; fastMode := fastMode g;
     modeStartSec := modeStartSec g; lastFrameMs := lastFrameMs g;
     runStartMs := runStartMs g; lastSecondMs := lastSecondMs g;
     elapsedSec := elapsedSec g; finalTimeCaptured := finalTimeCaptured g;
     finalElapsedSec := finalElapsedSec g; bestTimeSec := bestTimeSec g;
     blinkOn := blinkOn g; lastBlinkMs := lastBlinkMs g;
     hasPlayedFirstStartBeep := hasPlayedFirstStartBeep g; t0 := t0 g |}.

Definition set_ballX (v : F32.t) (g : Game) : Game :=
  {| gameState := gameState g; score := score g; paddleX := paddleX g; ballX := v;
     ballY := ballY g; ballVX := ballVX g; ballVY := ballVY g;
     speedMultiplier := speedMultiplier g; fastMode := fastMode g;
     modeStartSec := modeStartSec g; lastFrameMs := lastFrameMs g;
     runStartMs := runStartMs g; lastSecondMs := lastSecondMs g;
     elapsedSec := elapsedSec g; finalTimeCaptured := finalTimeCaptured g;
     finalElapsedSec := finalElapsedSec g; bestTimeSec := bestTimeSec g;
     blinkOn := blinkOn g; lastBlinkMs := lastBlinkMs g;
     hasPlayedFirstStartBeep := hasPlayedFirstStartBeep g; t0 := t0 g |}.

Definition set_ballY (v : F32.t) (g : Game) : Game :=
  {| gameState := gameState g; score := score g; paddleX := paddleX g; ballX := ballX g;
     ballY := v; ballVX := ballVX g; ballVY := ballVY g;
     speedMultiplier := speedMultiplier g; fastMode := fastMode g;
     modeStartSec := modeStartSec g; lastFrameMs := lastFrameMs g;
     runStartMs := runStartMs g; lastSecondMs := lastSecondMs g;
     elapsedSec := elapsedSec g; finalTimeCaptured := finalTimeCaptured g;
     finalElapsedSec := finalElapsedSec g; bestTimeSec := bestTimeSec g;
     blinkOn := blinkOn g; lastBlinkMs := lastBlinkMs g;
     hasPlayedFirstStartBeep := hasPlayedFirstStartBeep g; t0 := t0 g |}.

Definition set_ballVX (v : F32.t) (g : Game) : Game :=
  {| gameState := gameState g; score := score g; paddleX := paddleX g; ballX := ballX g;
     ballY := ballY g; ballVX := v; ballVY := ballVY g;
     speedMultiplier := speedMultiplier g; fastMode := fastMode g;
     modeStartSec := modeStartSec g; lastFrameMs := lastFrameMs g;
     runStartMs := runStartMs g; lastSecondMs := lastSecondMs g;
     elapsedSec := elapsedSec g; finalTimeCaptured := finalTimeCaptured g;
     finalElapsedSec := finalElapsedSec g; bestTimeSec := bestTimeSec g;
     blinkOn := blinkOn g; lastBlinkMs := lastBlinkMs g;
     hasPlayedFirstStartBeep := hasPlayedFirstStartBeep g; t0 := t0 g |}.

Definition set_ballVY (v : F32.t) (g : Game) : Game :=
  {| gameState := gameState g; score := score g; paddleX := paddleX g; ballX := ballX g;
     ballY := ballY g; ballVX := ballVX g; ballVY := v;
     speedMultiplier := speedMultiplier g; fastMode := fastMode g;
     modeStartSec := modeStartSec g; lastFrameMs := lastFrameMs g;
     runStartMs := runStartMs g; lastSecondMs := lastSecondMs g;
     elapsedSec := elapsedSec g; finalTimeCaptured := finalTimeCaptured g;
     finalElapsedSec := finalElapsedSec g; bestTimeSec := bestTimeSec g;
     blinkOn := blinkOn g; lastBlinkMs := lastBlinkMs g;
     hasPlayedFirstStartBeep := hasPlayedFirstStartBeep g; t0 := t0 g |}.

Definition set_speedMultiplier (v : F32.t) (g : Game) : Game :=
  {| gameState := gameState g; score := score g; paddleX := paddleX g; ballX := ballX g;
     ballY := ballY g; ballVX := ballVX g; ballVY := ballVY g; speedMultiplier := v;
     fastMode := fastMode g; modeStartSec := modeStartSec g;
     lastFrameMs := lastFrameMs g; runStartMs := runStartMs g;
     lastSecondMs := lastSecondMs g; elapsedSec := elapsedSec g;
     finalTimeCaptured := finalTimeCaptured g; finalElapsedSec := finalElapsedSec g;
     bestTimeSec := bestTimeSec g; blinkOn := blinkOn g; lastBlinkMs := lastBlinkMs g;
     hasPlayedFirstStartBeep := hasPlayedFirstStartBeep g; t0 := t0 g |}.

Definition set_fastMode (v : bool) (g : Game) : Game :=
  {| gameState := gameState g; score := score g; paddleX := paddleX g; ballX := ballX g;
     ballY := ballY g; ballVX := ballVX g; ballVY := ballVY g;
     speedMultiplier := speedMultiplier g; fastMode := v; modeStartSec := modeStartSec g;
     lastFrameMs := lastFrameMs g; runStartMs := runStartMs g;
     lastSecondMs := lastSecondMs g; elapsedSec := elapsedSec g;
     finalTimeCaptured := finalTimeCaptured g; finalElapsedSec := finalElapsedSec g;
     bestTimeSec := bestTimeSec g; blinkOn := blinkOn g; lastBlinkMs := lastBlinkMs g;
     hasPlayedFirstStartBeep := hasPlayedFirstStartBeep g; t0 := t0 g |}.

Definition set_modeStartSec (v : Z) (g : Game) : Game :=
  {| gameState := gameState g; score := score g; paddleX := paddleX g; ballX := ballX g;
     ballY := ballY g; ballVX := ballVX g; ballVY := ballVY g;
     speedMultiplier := speedMultiplier g; fastMode := fastMode g; modeStartSec := v;
     lastFrameMs := lastFrameMs g; runStartMs := runStartMs g;
     lastSecondMs := lastSecondMs g; elapsedSec := elapsedSec g;
     finalTimeCaptured := finalTimeCaptured g; finalElapsedSec := finalElapsedSec g;
     bestTimeSec := bestTimeSec g; blinkOn := blinkOn g; lastBlinkMs := lastBlinkMs g;
     hasPlayedFirstStartBeep := hasPlayedFirstStartBeep g; t0 := t0 g |}.

Definition set_lastFrameMs (v : Z) (g : Game) : Game :=
  {| gameState := gameState g; score := score g; paddleX := paddleX g; ballX := ballX g;
     ballY := ballY g; ballVX := ballVX g; ballVY := ballVY g;
     speedMultiplier := speedMultiplier g; fastMode := fastMode g;
     modeStartSec := modeStartSec g; lastFrameMs := v; runStartMs := runStartMs g;
     lastSecondMs := lastSecondMs g; elapsedSec := elapsedSec g;
     finalTimeCaptured := finalTimeCaptured g; finalElapsedSec := finalElapsedSec g;
     bestTimeSec := bestTimeSec g; blinkOn := blinkOn g; lastBlinkMs := lastBlinkMs g;
     hasPlayedFirstStartBeep := hasPlayedFirstStartBeep g; t0 := t0 g |}.

Definition set_runStartMs (v : Z) (g : Game) : Game :=
  {| gameState := gameState g; score := score g; paddleX := paddleX g; ballX := ballX g;
     ballY := ballY g; ballVX := ballVX g; ballVY := ballVY g;
     speedMultiplier := speedMultiplier g; fastMode := fastMode g;
     modeStartSec := modeStartSec g; lastFrameMs := lastFrameMs g; runStartMs := v;
     lastSecondMs := lastSecondMs g; elapsedSec := elapsedSec g;
     finalTimeCaptured := finalTimeCaptured g; finalElapsedSec := finalElapsedSec g;
     bestTimeSec := bestTimeSec g; blinkOn := blinkOn g; lastBlinkMs := lastBlinkMs g;
     hasPlayedFirstStartBeep := hasPlayedFirstStartBeep g; t0 := t0 g |}.

Definition set_lastSecondMs (v : Z) (g : Game) : Game :=
  {| gameState := gameState g; score := score g; paddleX := paddleX g; ballX := ballX g;
     ballY := ballY g; ballVX := ballVX g; ballVY := ballVY g;
     speedMultiplier := speedMultiplier g; fastMode := fastMode g;
     modeStartSec := modeStartSec g; lastFrameMs := lastFrameMs g;
     runStartMs := runStartMs g; lastSecondMs := v; elapsedSec := elapsedSec g;
     finalTimeCaptured := finalTimeCaptured g; finalElapsedSec := finalElapsedSec g;
     bestTimeSec := bestTimeSec g; blinkOn := blinkOn g; lastBlinkMs := lastBlinkMs g;
     hasPlayedFirstStartBeep := hasPlayedFirstStartBeep g; t0 := t0 g |}.

Definition set_elapsedSec (v : Z) (g : Game) : Game :=
  {| gameState := gameState g; score := score g; paddleX := paddleX g; ballX := ballX g;
     ballY := ballY g; ballVX := ballVX g; ballVY := ballVY g;
     speedMultiplier := speedMultiplier g; fastMode := fastMode g;
     modeStartSec := modeStartSec g; lastFrameMs := lastFrameMs g;
     runStartMs := runStartMs g; lastSecondMs := lastSecondMs g; elapsedSec := v;
     finalTimeCaptured := finalTimeCaptured g; finalElapsedSec := finalElapsedSec g;
     bestTimeSec := bestTimeSec g; blinkOn := blinkOn g; lastBlinkMs := lastBlinkMs g;
     hasPlayedFirstStartBeep := hasPlayedFirstStartBeep g; t0 := t0 g |}.

Definition set_finalTimeCaptured (v : bool) (g : Game) : Game :=
  {| gameState := gameState g; score := score g; paddleX := paddleX g; ballX := ballX g;
     ballY := ballY g; ballVX := ballVX g; ballVY := ballVY g;
     speedMultiplier := speedMultiplier g; fastMode := fastMode g;
     modeStartSec := modeStartSec g; lastFrameMs := lastFrameMs g;
     runStartMs := runStartMs g; lastSecondMs := lastSecondMs g;
     elapsedSec := elapsedSec g; finalTimeCaptured := v;
     finalElapsedSec := finalElapsedSec g; bestTimeSec := bestTimeSec g;
     blinkOn := blinkOn g; lastBlinkMs := lastBlinkMs g;
     hasPlayedFirstStartBeep := hasPlayedFirstStartBeep g; t0 := t0 g |}.

Definition set_finalElapsedSec (v : Z) (g : Game) : Game :=
  {| gameState := gameState g; score := score g; paddleX := paddleX g; ballX := ballX g;
     ballY := ballY g; ballVX := ballVX g; ballVY := ballVY g;
     speedMultiplier := speedMultiplier g; fastMode := fastMode g;
     modeStartSec := modeStartSec g; lastFrameMs := lastFrameMs g;
     runStartMs := runStartMs g; lastSecondMs := lastSecondMs g;
     elapsedSec := elapsedSec g; finalTimeCaptured := finalTimeCaptured g;
     finalElapsedSec := v; bestTimeSec := bestTimeSec g; blinkOn := blinkOn g;
     lastBlinkMs := lastBlinkMs g; hasPlayedFirstStartBeep := hasPlayedFirstStartBeep g;
     t0 := t0 g |}.

Definition set_bestTimeSec (v : Z) (g : Game) : Game :=
  {| gameState := gameState g; score := score g; paddleX := paddleX g; ballX := ballX g;
     ballY := ballY g; ballVX := ballVX g; ballVY := ballVY g;
     speedMultiplier := speedMultiplier g; fastMode := fastMode g;
     modeStartSec := modeStartSec g; lastFrameMs := lastFrameMs g;
     runStartMs := runStartMs g; lastSecondMs := lastSecondMs g;
     elapsedSec := elapsedSec g; finalTimeCaptured := finalTimeCaptured g;
     finalElapsedSec := finalElapsedSec g; bestTimeSec := v; blinkOn := blinkOn g;
     lastBlinkMs := lastBlinkMs g; hasPlayedFirstStartBeep := hasPlayedFirstStartBeep g;
     t0 := t0 g |}.

Definition set_blinkOn (v : bool) (g : Game) : Game :=
  {| gameState := gameState g; score := score g; paddleX := paddleX g; ballX := ballX g;
     ballY := ballY g; ballVX := ballVX g; ballVY := ballVY g;
     speedMultiplier := speedMultiplier g; fastMode := fastMode g;
     modeStartSec := modeStartSec g; lastFrameMs := lastFrameMs g;
     runStartMs := runStartMs g; lastSecondMs := lastSecondMs g;
     elapsedSec := elapsedSec g; finalTimeCaptured := finalTimeCaptured g;
     finalElapsedSec := finalElapsedSec g; bestTimeSec := bestTimeSec g; blinkOn := v;
     lastBlinkMs := lastBlinkMs g; hasPlayedFirstStartBeep := hasPlayedFirstStartBeep g;
     t0 := t0 g |}.

Definition set_lastBlinkMs (v : Z) (g : Game) : Game :=
  {| gameState := gameState g; score := score g; paddleX := paddleX g; ballX := ballX g;
     ballY := ballY g; ballVX := ballVX g; ballVY := ballVY g;
     speedMultiplier := speedMultiplier g; fastMode := fastMode g;
     modeStartSec := modeStartSec g; lastFrameMs := lastFrameMs g;
     runStartMs := runStartMs g; lastSecondMs := lastSecondMs g;
     elapsedSec := elapsedSec g; finalTimeCaptured := finalTimeCaptured g;
     finalElapsedSec := finalElapsedSec g; bestTimeSec := bestTimeSec g;
     blinkOn := blinkOn g; lastBlinkMs := v;
     hasPlayedFirstStartBeep := hasPlayedFirstStartBeep g; t0 := t0 g |}.

Definition set_hasPlayedFirstStartBeep (v : bool) (g : Game) : Game :=
  {| gameState := gameState g; score := score g; paddleX := paddleX g; ballX := ballX g;
     ballY := ballY g; ballVX := ballVX g; ballVY := ballVY g;
     speedMultiplier := speedMultiplier g; fastMode := fastMode g;
     modeStartSec := modeStartSec g; lastFrameMs := lastFrameMs g;
     runStartMs := runStartMs g; lastSecondMs := lastSecondMs g;
     elapsedSec := elapsedSec g; finalTimeCaptured := finalTimeCaptured g;
     finalElapsedSec := finalElapsedSec g; bestTimeSec := bestTimeSec g;
     blinkOn := blinkOn g; lastBlinkMs := lastBlinkMs g; hasPlayedFirstStartBeep := v;
     t0 := t0 g |}.

Definition set_t0 (v : Z) (g : Game) : Game :=
  {| gameState := gameState g; score := score g; paddleX := paddleX g; ballX := ballX g;
     ballY := ballY g; ballVX := ballVX g; ballVY := ballVY g;
     speedMultiplier := speedMultiplier g; fastMode := fastMode g;
     modeStartSec := modeStartSec g; lastFrameMs := lastFrameMs g;
     runStartMs := runStartMs g; lastSecondMs := lastSecondMs g;
     elapsedSec := elapsedSec g; finalTimeCaptured := finalTimeCaptured g;
     finalElapsedSec := finalElapsedSec g; bestTimeSec := bestTimeSec g;
     blinkOn := blinkOn g; lastBlinkMs := lastBlinkMs g;
     hasPlayedFirstStartBeep := hasPlayedFirstStartBeep g; t0 := v |}.

(** ** The adapters' side: clock, random generator, NVS and the call trace *)

Inductive Cue : Type := PaddleHit | WallBounce | LosePoint | StartFirst | Party.

(** [EvCue c] records a call of the matching [sfx...] function, [EvBeep] one call
    of [beep], [EvPutBest v] one call of [prefs.putUShort("best", v)]. *)
Inductive Event : Type :=
| EvCue (c : Cue)
| EvBeep (freq ms gapMs : Z)
| EvPutBest (v : Z).

(** [trace] lists the calls, the most recent first. *)
Record World : Type := {
  clock : Z;
  draws : nat;
  nvsBest : option Z;
  trace : list Event
}.

(** Button levels ([true] when the pin reads LOW, that is, pressed) at each
    instant, and the outcomes of the successive calls of [random(0, 2)] ([true]
    for 1). *)
Record Env : Type := {
  btnLeft : Z -> bool;
  btnRight : Z -> bool;
  coin : nat -> bool
}.

Definition St : Type := (Game * World)%type.

Definition millis (w : World) : Z := u32 (clock w).

Definition delay (ms : Z) (w : World) : World :=
  {| clock := clock w + ms; draws := draws w; nvsBest := nvsBest w; trace := trace w |}.

Definition emit (e : Event) (w : World) : World :=
  {| clock := clock w; draws := draws w; nvsBest := nvsBest w; trace := e :: trace w |}.

Definition leftLow (env : Env) (w : World) : bool := btnLeft env (clock w).
Definition rightLow (env : Env) (w : World) : bool := btnRight env (clock w).

(** [random(0, 2)]: 0 or 1. *)
Definition random02 (env : Env) (w : World) : Z * World :=
  (if coin env (draws w) then 1 else 0,
   {| clock := clock w; draws := S (draws w); nvsBest := nvsBest w; trace := trace w |}).

Definition putBest (v : Z) (w : World) : World :=
  emit (EvPutBest v)
    {| clock := clock w; draws := draws w; nvsBest := Some v; trace := trace w |}.

Definition getBest (w : World) : Z :=
  match nvsBest w with Some v => v | None => 0 end.

(** *** Audio *)

Definition beep (freq ms gapMs : Z) (w : World) : World :=
  let w1 := delay ms (emit (EvBeep freq ms gapMs) w) in
  if gapMs =? 0 then w1 else delay gapMs w1.

Definition sfxPaddleHit (w : World) : World :=
  beep 2400 25 0 (emit (EvCue PaddleHit) w).

Definition sfxWallBounce (w : World) : World :=
  beep 1500 3 0 (beep 1800 4 2 (emit (EvCue WallBounce) w)).

Definition sfxLosePoint (w : World) : World :=
  beep 300 120 80 (beep 300 120 80 (emit (EvCue LosePoint) w)).

Definition sfxStartFirst (w : World) : World :=
  beep 1100 120 0 (emit (EvCue StartFirst) w).

Definition notes : list Z := [880; 988; 1047; 1175; 1319; 1480].

(** The [while (millis() < end)] loop of [sfxParty]. *)
Fixpoint partyLoop (fuel : nat) (endMs i : Z) (w : World) : option World :=
  match fuel with
  | O => None
  | S fuel' =>
      if millis w <? endMs
      then partyLoop fuel' endMs (u16 (i + 1))
             (beep (nth (Z.to_nat (i mod 6)) notes 0) 90 30 w)
      else Some w
  end.

Definition sfxParty (fuel : nat) (ms : Z) (w : World) : option World :=
  let w0 := emit (EvCue Party) w in
  let endMs := u32 (millis w0 + ms) in
  partyLoop fuel endMs 0 w0.

(** ** The game functions *)

(** [bothButtonsHeld(msRequired)]: the result and the updated [static t0]. *)
Definition bothButtonsHeld (msRequired : Z) (env : Env) (st : St) : bool * Game :=
  let '(g, w) := st in
  let l := leftLow env w in
  let r := rightLow env w in
  if l && r then
    let g1 := if t0 g =? 0 then set_t0 (millis w) g else g in
    (msRequired <=? u32 (millis w - t0 g1), g1)
  else (false, set_t0 0 g).

Definition resetBall (env : Env) (st : St) : St :=
  let '(g, w) := st in
  let g1 := set_ballX (F32.div (F32.of_int SCREEN_WIDTH) (F32.of_int 2)) g in
  let g2 := set_ballY (F32.div (F32.of_int SCREEN_HEIGHT) (F32.of_int 3)) g1 in
  let s := F32.literal 17 10 in
  let '(r, w1) := random02 env w in
  let g3 := set_ballVX (if r =? 0 then F32.neg s else s) g2 in
  (set_ballVY s g3, w1).

Definition setSpeedMode (fast : bool) (g : Game) : Game :=
  let g1 := set_fastMode fast g in
  let g2 := set_speedMultiplier (if fast then F32.of_int 2 else F32.of_int 1) g1 in
  set_modeStartSec (elapsedSec g2) g2.

Definition updateSpeedMode (g : Game) : Game :=
  let elapsedInMode := u16 (u32 (elapsedSec g - modeStartSec g)) in
  if fastMode g then
    if FAST_SEC <=? elapsedInMode then setSpeedMode false g else g
  else
    if SLOW_SEC <=? elapsedInMode then setSpeedMode true g else g.

Definition resetGameRuntime (st : St) : St :=
  let '(g, w) := st in
  let g1 := set_runStartMs (millis w) g in
  let g2 := set_lastSecondMs (runStartMs g1) g1 in
  let g3 := set_elapsedSec 0 g2 in
  let g4 := setSpeedMode false g3 in
  let g5 := set_finalTimeCaptured false g4 in
  (set_finalElapsedSec 0 g5, w).

Definition resetGame (env : Env) (st : St) : St :=
  let '(g, w) := st in
  let g1 := set_score 10 g in
  let g2 := set_paddleX (F32.div (F32.of_int (SCREEN_WIDTH - paddleWidth)) (F32.of_int 2)) g1 in
  resetGameRuntime (resetBall env (g2, w)).

Definition handleButtonsPaddle (env : Env) (st : St) : Game :=
  let '(g, w) := st in
  let g1 := if leftLow env w then set_paddleX (F32.sub (paddleX g) paddleSpeed) g else g in
  let g2 := if rightLow env w then set_paddleX (F32.add (paddleX g1) paddleSpeed) g1 else g1 in
  let g3 := if F32.lt (paddleX g2) (F32.of_int 0) then set_paddleX (F32.of_int 0) g2 else g2 in
  if F32.gt (paddleX g3) (F32.of_int (SCREEN_WIDTH - paddleWidth))
  then set_paddleX (F32.of_int (SCREEN_WIDTH - paddleWidth)) g3
  else g3.

Definition captureFinalTimeAndUpdateBest (fuel : nat) (st : St) : option St :=
  let '(g, w) := st in
  if finalTimeCaptured g then Some (g, w)
  else
    let now := millis w in
    let g1 := set_finalElapsedSec (u16 (u32 (now - runStartMs g) / 1000)) g in
    let g2 := set_finalTimeCaptured true g1 in
    if bestTimeSec g2 <? finalElapsedSec g2 then
      let g3 := set_bestTimeSec (finalElapsedSec g2) g2 in
      let w1 := putBest (bestTimeSec g3) w in
      match sfxParty fuel 2000 w1 with
      | Some w2 => Some (g3, w2)
      | None => None
      end
    else Some (g2, w).

(** [updateBall], cut at its comment lines into four consecutive blocks. *)

(** "Movimiento con multiplicador de velocidad". *)
Definition moveBall (g : Game) : Game :=
  let g1 := set_ballX (F32.add (ballX g) (F32.mul (ballVX g) (speedMultiplier g))) g in
  set_ballY (F32.add (ballY g1) (F32.mul (ballVY g1) (speedMultiplier g1))) g1.

(** The three collision tests: [ballX - ballR <= 0], [ballX + ballR >=
    SCREEN_WIDTH] and [ballY - ballR <= 0]. *)
Definition hitsLeft (g : Game) : bool :=
  F32.le (F32.sub (ballX g) (F32.of_int ballR)) (F32.of_int 0).

Definition hitsRight (g : Game) : bool :=
  F32.ge (F32.add (ballX g) (F32.of_int ballR)) (F32.of_int SCREEN_WIDTH).

Definition hitsCeiling (g : Game) : bool :=
  F32.le (F32.sub (ballY g) (F32.of_int ballR)) (F32.of_int 0).

(** "Rebotes laterales". *)
Definition bounceSides (st : St) : St :=
  let '(g, w) := st in
  if hitsLeft g then
    (set_ballVX (F32.abs (ballVX g)) (set_ballX (F32.of_int ballR) g), sfxWallBounce w)
  else if hitsRight g then
    (set_ballVX (F32.neg (F32.abs (ballVX g)))
       (set_ballX (F32.of_int (SCREEN_WIDTH - ballR)) g), sfxWallBounce w)
  else (g, w).

(** "Rebote techo". *)
Definition bounceCeiling (st : St) : St :=
  let '(g, w) := st in
  if hitsCeiling g then
    (set_ballVY (F32.abs (ballVY g)) (set_ballY (F32.of_int ballR) g), sfxWallBounce w)
  else (g, w).

(** The block under "Rebote en paleta", without its sound. *)
Definition paddleRebound (g : Game) : Game :=
  let g1 := set_ballY (F32.of_int (paddleY - ballR)) g in
  let g2 := set_ballVY (F32.neg (F32.abs (ballVY g1))) g1 in
  let cx := F32.add (paddleX g2) (F32.div (F32.of_int paddleWidth) (F32.of_int 2)) in
  let offset :=
    F32.div (F32.sub (ballX g2) cx) (F32.div (F32.of_int paddleWidth) (F32.of_int 2)) in
  let maxVX := F32.literal 28 10 in
  let g3 := set_ballVX (F32.add (ballVX g2) (F32.mul offset (F32.literal 8 10))) g2 in
  let g4 := if F32.gt (ballVX g3) maxVX then set_ballVX maxVX g3 else g3 in
  let g5 := if F32.lt (ballVX g4) (F32.neg maxVX) then set_ballVX (F32.neg maxVX) g4 else g4 in
  let acc := F32.literal 104 100 in
  let g6 := set_ballVX (F32.mul (ballVX g5) acc) g5 in
  set_ballVY (F32.mul (ballVY g6) acc) g6.

(** The conditions of "Colisión paleta o fallo". *)
Definition reachesPaddleLine (g : Game) : bool :=
  F32.gt (ballVY g) (F32.of_int 0)
  && F32.ge (F32.add (ballY g) (F32.of_int ballR)) (F32.of_int paddleY).

Definition overPaddle (g : Game) : bool :=
  F32.ge (ballX g) (paddleX g)
  && F32.le (ballX g) (F32.add (paddleX g) (F32.of_int paddleWidth)).

(** "Colisión paleta o fallo". *)
Definition paddleOrMiss (fuel : nat) (env : Env) (st : St) : option St :=
  let '(g, w) := st in
  if reachesPaddleLine g then
    if overPaddle g then Some (paddleRebound g, sfxPaddleHit w)
    else
      let g1 := set_score (i32 (score g - 1)) g in
      let w1 := sfxLosePoint w in
      if score g1 <=? 0 then
        match captureFinalTimeAndUpdateBest fuel (g1, w1) with
        | Some (g2, w2) => Some (set_gameState STATE_GAMEOVER g2, w2)
        | None => None
        end
      else Some (resetBall env (g1, w1))
  else Some (g, w).

Definition updateBall (fuel : nat) (env : Env) (st : St) : option St :=
  let '(g, w) := st in
  paddleOrMiss fuel env (bounceCeiling (bounceSides (moveBall g, w))).

(** The [while (digitalRead(BTN_RIGHT) == LOW) delay(10)] loop of the start screen. *)
Fixpoint waitRelease (fuel : nat) (env : Env) (w : World) : option World :=
  match fuel with
  | O => None
  | S fuel' => if rightLow env w then waitRelease fuel' env (delay 10 w) else Some w
  end.

(** The chronometer block of the PLAYING case. *)
Definition tickChronometer (now : Z) (g : Game) : Game :=
  if 1000 <=? u32 (now - lastSecondMs g) then
    let steps := u32 (now - lastSecondMs g) / 1000 in
    let g1 := set_elapsedSec (u16 (u32 (elapsedSec g + steps))) g in
    set_lastSecondMs (u32 (lastSecondMs g1 + u32 (steps * 1000))) g1
  else g.

Definition caseStart (fuel : nat) (env : Env) (now : Z) (st : St) : option St :=
  let '(g, w) := st in
  let g1 :=
    if BLINK_INTERVAL <=? u32 (now - lastBlinkMs g)
    then set_lastBlinkMs now (set_blinkOn (negb (blinkOn g)) g)
    else g in
  if rightLow env w then
    let '(g2, w2) :=
      if hasPlayedFirstStartBeep g1 then (g1, w)
      else (set_hasPlayedFirstStartBeep true g1, sfxStartFirst w) in
    match waitRelease fuel env (delay 60 w2) with
    | Some w3 =>
        let '(g3, w4) := resetGame env (g2, w3) in
        Some (set_gameState STATE_PLAYING g3, w4)
    | None => None
    end
  else Some (g1, w).

Definition casePlaying (fuel : nat) (env : Env) (now : Z) (st : St) : option St :=
  let '(g, w) := st in
  let g1 := tickChronometer now g in
  let g2 := updateSpeedMode g1 in
  let g3 := handleButtonsPaddle env (g2, w) in
  updateBall fuel env (g3, w).

Definition caseGameOver (env : Env) (st : St) : St :=
  let '(g, w) := st in
  let '(held, g1) := bothButtonsHeld 800 env (g, w) in
  if held then
    let w1 := delay 300 w in
    let g2 := set_gameState STATE_START g1 in
    let g3 := set_blinkOn true g2 in
    (set_lastBlinkMs (millis w1) g3, w1)
  else (g1, w).

(** One call of [loop()]. *)
Definition loop (fuel : nat) (env : Env) (st : St) : option St :=
  let '(g, w) := st in
  let now := millis w in
  if u32 (now - lastFrameMs g) <? FRAME_INTERVAL then Some (g, delay 1 w)
  else
    let g0 := set_lastFrameMs now g in
    match gameState g0 with
    | STATE_START => caseStart fuel env now (g0, w)
    | STATE_PLAYING => casePlaying fuel env now (g0, w)
    | STATE_GAMEOVER => Some (caseGameOver env (g0, w))
    end.

(** The globals as the C++ runtime initialises them before [setup()]. *)
Definition powerOn : Game :=
  {| gameState := STATE_START; score := 10; paddleX := F32.zero; ballX := F32.zero;
     ballY := F32.zero; ballVX := F32.zero; ballVY := F32.zero;
     speedMultiplier := F32.of_int 1; fastMode := false; modeStartSec := 0;
     lastFrameMs := 0; runStartMs := 0; lastSecondMs := 0; elapsedSec := 0;
     finalTimeCaptured := false; finalElapsedSec := 0; bestTimeSec := 0;
     blinkOn := true; lastBlinkMs := 0; hasPlayedFirstStartBeep := false; t0 := 0 |}.

(** [setup()]; the display is taken to be present. *)
Definition setup (w : World) : St :=
  let w1 := delay 50 w in
  let g1 := set_bestTimeSec (u16 (getBest w1)) powerOn in
  let g2 := set_gameState STATE_START g1 in
  let g3 := set_blinkOn true g2 in
  (set_lastBlinkMs (millis w1) g3, w1).

(** [n] successive calls of [loop()]. *)
Fixpoint run (fuel : nat) (env : Env) (n : nat) (st : St) : option St :=
  match n with
  | O => Some st
  | S n' =>
      match loop fuel env st with
      | Some st' => run fuel env n' st'
      | None => None
      end
  end.

(** ** Formatting the time

    Character buffers are lists of characters; [out] stands for the memory the
    pointer designates and [n] for the capacity handed over. *)

Definition NUL : ascii := Ascii.zero.

(** The text of a C string: the characters before the first NUL. *)
Fixpoint cstring (buf : list ascii) : list ascii :=
  match buf with
  | [] => []
  | c :: rest => if Ascii.eqb c NUL then [] else c :: cstring rest
  end.

(** [%u]: the decimal digits of an unsigned number. *)
Definition decimal (z : Z) : list ascii :=
  list_ascii_of_string (NilZero.string_of_uint (N.to_uint (Z.to_N z))).

(** [%02u]: the same, padded with zeros on the left up to two characters. *)
Definition pad02u (z : Z) : list ascii :=
  let d := decimal z in
  repeat "0"%char (2 - List.length d) ++ d.

(** What the format ["%02u:%02u"] produces for [mm] and [ss]. *)
Definition render (mm ss : Z) : list ascii :=
  pad02u mm ++ ":"%char :: pad02u ss.

(** [snprintf(out, n, ...)] of the C library, after the C standard: nothing is
    written when [n] is 0; otherwise at most [n - 1] characters of the formatted
    [text] are written, followed by a NUL. *)
Definition snprintf (out : list ascii) (n : nat) (text : list ascii) : list ascii :=
  match n with
  | O => out
  | S m =>
      let k := Nat.min (List.length text) m in
      firstn k text ++ NUL :: skipn (S k) out
  end.

(** [out[0] = '\0']. *)
Definition terminateAtStart (out : list ascii) : list ascii :=
  match out with
  | [] => []
  | _ :: rest => NUL :: rest
  end.

Definition formatTimeMMSS (secs : Z) (out : list ascii) (n : nat) : list ascii :=
  let mm := u16 (secs / 60) in
  let ss := u16 (secs mod 60) in
  if (6 <=? n)%nat then snprintf out n (render mm ss)
  else if (0 <? n)%nat then terminateAtStart out
  else out.

(** ** Reachable states *)

(** The states the sketch can be in when [loop()] is entered: [setup()] from any
    initial world, then any number of [loop()] calls that returned, with any
    amount of time passing between two calls. *)
Inductive reachable (env : Env) : St -> Prop :=
| reach_setup : forall w, reachable env (setup w)
| reach_loop : forall fuel st st',
    reachable env st -> loop fuel env st = Some st' -> reachable env st'
| reach_wait : forall g w ms,
    reachable env (g, w) -> 0 <= ms -> reachable env (g, delay ms w).

(** The frame gate of [loop()] is open. *)
Definition frameDue (st : St) : bool :=
  negb (u32 (millis (snd st) - lastFrameMs (fst st)) <? FRAME_INTERVAL).

(** The state of a PLAYING frame just before the block "Colisión paleta o fallo":
    chronometer, speed mode, paddle, ball movement and the three bounces done. *)
Definition beforePaddle (env : Env) (st : St) : St :=
  let '(g, w) := st in
  let now := millis w in
  let g0 := set_lastFrameMs now g in
  let g3 := handleButtonsPaddle env (updateSpeedMode (tickChronometer now g0), w) in
  bounceCeiling (bounceSides (moveBall g3, w)).

(** The ball reached the paddle line away from the paddle. *)
Definition missed (g : Game) : bool := reachesPaddleLine g && negb (overPaddle g).

(** The values handed to [prefs.putUShort], the most recent first. *)
Fixpoint puts (tr : list Event) : list Z :=
  match tr with
  | [] => []
  | EvPutBest v :: tr' => v :: puts tr'
  | _ :: tr' => puts tr'
  end.

(** How many times cue [c] was played. *)
Definition Cue_eqb (a b : Cue) : bool :=
  match a, b with
  | PaddleHit, PaddleHit | WallBounce, WallBounce | LosePoint, LosePoint
  | StartFirst, StartFirst | Party, Party => true
  | _, _ => false
  end.

Fixpoint cues (c : Cue) (tr : list Event) : nat :=
  match tr with
  | [] => O
  | EvCue c' :: tr' => if Cue_eqb c c' then S (cues c tr') else cues c tr'
  | _ :: tr' => cues c tr'
  end.

(** The fields no block of a PLAYING frame before the paddle block writes. *)
Definition sameSession (g g' : Game) : Prop :=
  gameState g' = gameState g /\ score g' = score g
  /\ finalTimeCaptured g' = finalTimeCaptured g
  /\ finalElapsedSec g' = finalElapsedSec g
  /\ bestTimeSec g' = bestTimeSec g /\ runStartMs g' = runStartMs g
  /\ t0 g' = t0 g.

(** The paddle lies on the field: [0 <= x <= SCREEN_WIDTH - paddleWidth]. *)
Definition inField (x : F32.t) : Prop :=
  F32.le (F32.of_int 0) x = true
  /\ F32.le x (F32.of_int (SCREEN_WIDTH - paddleWidth)) = true.

(** What holds of the globals whenever [loop()] is entered. *)
Definition Inv (g : Game) : Prop :=
  0 <= score g <= 10
  /\ (gameState g = STATE_PLAYING ->
      1 <= score g /\ finalTimeCaptured g = false /\ finalElapsedSec g = 0)
  /\ inField (paddleX g)
  /\ 0 <= finalElapsedSec g <= bestTimeSec g
  /\ bestTimeSec g < 65536.

(** The whole seconds from the start of the run to the clock reading of [w], as
    [captureFinalTimeAndUpdateBest] computes them. *)
Definition finalAt (g : Game) (w : World) : Z :=
  u16 (u32 (millis w - runStartMs g) / 1000).

(** ** A recorded session

    The left button is held throughout.  The right button is pressed at power-up
    for 100 ms (it starts the first run), from 11000 ms to 12000 ms (the restart
    hold after the first run), from 13000 ms to 13100 ms (it starts the second
    run) and from 20300 ms on.  With the paddle parked at the left border every
    ball is missed. *)

Definition coldStart : World :=
  {| clock := 0; draws := O; nvsBest := None; trace := [] |}.

Definition within (a b t : Z) : bool := (a <=? t) && (t <? b).

Definition session : Env :=
  {| btnLeft := fun _ => true;
     btnRight := fun t =>
       within 0 100 t || within 11000 12000 t || within 13000 13100 t || (20300 <=? t);
     coin := fun n => Nat.even n |}.

(** The state after [n] calls of [loop()] in that session. *)
Definition sessionAfter (n : Z) : St :=
  match run 30 session (Z.to_nat n) (setup coldStart) with
  | Some st => st
  | None => setup coldStart
  end.

(** The first run just before the frame that loses its last point. *)
Definition lastFrame : St := Eval vm_compute in sessionAfter 3410.

(** The state that frame leaves: the first GAMEOVER state of the session. *)
Definition gameOverEntry : St := Eval vm_compute in sessionAfter 3411.

(** The first run just before and just after the frame that loses its first
    point. *)
Definition firstMiss : St := Eval vm_compute in sessionAfter 341.
Definition afterFirstMiss : St := Eval vm_compute in sessionAfter 342.

(** The recorded session when its second run has just ended: the state in which
    the first GAMEOVER frame of that run is entered. *)
Definition secondGameOver : St := Eval vm_compute in sessionAfter 10257.

(** ** The speed modulator on its own

    One more second on the chronometer (the chronometer block with [steps = 1]),
    then [updateSpeedMode]. *)
Definition secondPasses (g : Game) : Game :=
  updateSpeedMode (set_elapsedSec (u16 (u32 (elapsedSec g + 1))) g).

Fixpoint afterSeconds (n : nat) (g : Game) : Game :=
  match n with
  | O => g
  | S n' => secondPasses (afterSeconds n' g)
  end.

(** The state of the modulator [25 q + r] seconds into the run. *)
Definition phaseAt (q r : Z) (g : Game) : Prop :=
  fastMode g = (20 <=? r)
  /\ speedMultiplier g = (if 20 <=? r then F32.of_int 2 else F32.of_int 1)
  /\ modeStartSec g = u16 (25 * q + (if 20 <=? r then 20 else 0))
  /\ elapsedSec g = u16 (25 * q + r).



(** The constants of the paddle block. *)
Definition gain : F32.t := F32.literal 8 10.
Definition maxVX : F32.t := F32.literal 28 10.
Definition acc : F32.t := F32.literal 104 100.

(** The ball's offset from the paddle centre, in half paddle widths. *)
Definition paddleOffset (g : Game) : F32.t :=
  F32.div
    (F32.sub (ballX g)
       (F32.add (paddleX g) (F32.div (F32.of_int paddleWidth) (F32.of_int 2))))
    (F32.div (F32.of_int paddleWidth) (F32.of_int 2)).

(** [v] limited to [-maxVX .. maxVX]. *)
Definition clampVX (v : F32.t) : F32.t :=
  if F32.gt v maxVX then maxVX
  else if F32.lt v (F32.neg maxVX) then F32.neg maxVX
  else v.

(** A ball about to land on the middle of a centred paddle. *)
Definition abovePaddle : Game :=
  set_paddleX (F32.of_int 52)
    (set_ballX (F32.of_int 66)
       (set_ballY (F32.of_int 56)
          (set_ballVX (F32.literal 17 10)
             (set_ballVY (F32.literal 17 10) powerOn)))).

(** The ball as [resetBall] leaves it: at (64, 64/3), base speed 1.7 on both
    axes, heading down, to the left or to the right. *)
Definition baseSpeed : F32.t := F32.literal 17 10.

Definition seeded (g : Game) : Prop :=
  ballX g = F32.div (F32.of_int SCREEN_WIDTH) (F32.of_int 2)
  /\ ballY g = F32.div (F32.of_int SCREEN_HEIGHT) (F32.of_int 3)
  /\ ballVY g = baseSpeed
  /\ (ballVX g = baseSpeed \/ ballVX g = F32.neg baseSpeed).

(** ** The formatted time, checked value by value

    [textOK s]: the text for [s] seconds holds no NUL, has at most seven
    characters, and exactly five below 100 minutes. *)
Definition timeText (secs : Z) : list ascii :=
  render (u16 (secs / 60)) (u16 (secs mod 60)).

Definition textOK (secs : Z) : bool :=
  forallb (fun c => negb (Ascii.eqb c NUL)) (timeText secs)
  && (List.length (timeText secs) <=? 7)%nat
  && ((6000 <=? secs) || (List.length (timeText secs) =? 5)%nat).

(** A buffer of [n] characters with no text in it yet. *)
Definition blank (n : nat) : list ascii := repeat "x"%char n.

(** The integers from [a] on, [len] of them. *)
Fixpoint upFrom (a : Z) (len : nat) : list Z :=
  match len with
  | O => []
  | S len' => a :: upFrom (a + 1) len'
  end.

(** ** Calls of [loop()] that stay in GAMEOVER

    [gameOverCalls env st0 polls st]: from [st0] the sketch has come to [st] by
    calls of [loop()] made in GAMEOVER and ending in GAMEOVER, with time passing
    in between; [polls] lists, the most recent first, the instant of each of
    their frames with whether it read both buttons down. *)
Inductive gameOverCalls (env : Env) (st0 : St) : list (Z * bool) -> St -> Prop :=
| calls_none : gameOverCalls env st0 [] st0
| calls_gated : forall fuel polls g w st',
    gameOverCalls env st0 polls (g, w) ->
    frameDue (g, w) = false ->
    loop fuel env (g, w) = Some st' ->
    gameOverCalls env st0 polls st'
| calls_frame : forall fuel polls g w st',
    gameOverCalls env st0 polls (g, w) ->
    frameDue (g, w) = true ->
    loop fuel env (g, w) = Some st' ->
    gameState (fst st') = STATE_GAMEOVER ->
    gameOverCalls env st0 ((clock w, leftLow env w && rightLow env w) :: polls) st'
| calls_wait : forall polls g w ms,
    gameOverCalls env st0 polls (g, w) -> 0 <= ms ->
    gameOverCalls env st0 polls (g, delay ms w).

(** ** Further notions for the properties of the whole sketch *)

(** The variables of a run: everything but the state-machine state, the frame
    gate, the blink of the start screen, the first-start latch and the hold
    timer. *)
Definition sameRun (g g' : Game) : Prop :=
  score g' = score g /\ paddleX g' = paddleX g
  /\ ballX g' = ballX g /\ ballY g' = ballY g
  /\ ballVX g' = ballVX g /\ ballVY g' = ballVY g
  /\ speedMultiplier g' = speedMultiplier g /\ fastMode g' = fastMode g
  /\ modeStartSec g' = modeStartSec g
  /\ runStartMs g' = runStartMs g /\ lastSecondMs g' = lastSecondMs g
  /\ elapsedSec g' = elapsedSec g
  /\ finalTimeCaptured g' = finalTimeCaptured g
  /\ finalElapsedSec g' = finalElapsedSec g
  /\ bestTimeSec g' = bestTimeSec g.

(** The state [loop()] leaves, read off its three cases. *)
Definition nextState (env : Env) (st : St) : GameState :=
  let '(g, w) := st in
  match gameState g with
  | STATE_START =>
      if frameDue st && rightLow env w then STATE_PLAYING else STATE_START
  | STATE_PLAYING =>
      if frameDue st && missed (fst (beforePaddle env st)) && (i32 (score g - 1) <=? 0)
      then STATE_GAMEOVER else STATE_PLAYING
  | STATE_GAMEOVER =>
      if frameDue st && fst (bothButtonsHeld 800 env st) then STATE_START
      else STATE_GAMEOVER
  end.

(** The blink block of the START case. *)
Definition blinkStep (now : Z) (g : Game) : Game :=
  if BLINK_INTERVAL <=? u32 (now - lastBlinkMs g)
  then set_lastBlinkMs now (set_blinkOn (negb (blinkOn g)) g)
  else g.

(** The first-start beep block of the START case. *)
Definition firstBeep (st : St) : St :=
  let '(g, w) := st in
  if hasPlayedFirstStartBeep g then (g, w)
  else (set_hasPlayedFirstStartBeep true g, sfxStartFirst w).

(** The chronometer, the speed mode and the first-start latch: what the ball and
    paddle blocks of a frame leave alone. *)
Definition sameClockwork (g g' : Game) : Prop :=
  runStartMs g' = runStartMs g /\ lastSecondMs g' = lastSecondMs g
  /\ elapsedSec g' = elapsedSec g
  /\ fastMode g' = fastMode g /\ speedMultiplier g' = speedMultiplier g
  /\ modeStartSec g' = modeStartSec g
  /\ hasPlayedFirstStartBeep g' = hasPlayedFirstStartBeep g.

(** The chronometer counts the whole seconds between [runStartMs] and
    [lastSecondMs]. *)
Definition chronometerTied (g : Game) : Prop :=
  exists k, 0 <= k
            /\ lastSecondMs g = u32 (runStartMs g + 1000 * k)
            /\ elapsedSec g = u16 k.

(** The speed multiplier is the one of the speed mode. *)
Definition multiplierAgrees (g : Game) : Prop :=
  speedMultiplier g = (if fastMode g then F32.of_int 2 else F32.of_int 1).


(** How many times [beep] was called. *)
Fixpoint beeps (tr : list Event) : nat :=
  match tr with
  | [] => O
  | EvBeep _ _ _ :: tr' => S (beeps tr')
  | _ :: tr' => beeps tr'
  end.

(** A world whose clock reads one second before the 32-bit wrap. *)
Definition nearWrap : World :=
  {| clock := 4294967296 - 1000; draws := O; nvsBest := None; trace := [] |}.

(** 1 once the first-start beep has been played, 0 before. *)
Definition latch (g : Game) : nat :=
  if hasPlayedFirstStartBeep g then 1%nat else 0%nat.


(** ** The texts put on the screen

    The chronometer text of [drawHUD]: [tbuf] after the call of
    [formatTimeMMSS], as [display.print] reads it. *)
Definition hudTime (g : Game) (tbuf : list ascii) : list ascii :=
  cstring (formatTimeMMSS (elapsedSec g) tbuf 8).

(** A line of [drawGameOver]: the time is formatted into an eight-character
    buffer and [snprintf(buf, 18, "<label>%s", timeStr)] composes the line. *)
Definition gameOverLine (label : string) (secs : Z) (timeStr buf : list ascii)
  : list ascii :=
  let timeStr' := formatTimeMMSS secs timeStr 8 in
  snprintf buf 18 (list_ascii_of_string label ++ cstring timeStr').

Definition timeLine (g : Game) (timeStr tbuf : list ascii) : list ascii :=
  gameOverLine "Tiempo: " (finalElapsedSec g) timeStr tbuf.

Definition bestLine (g : Game) (bestStr bbuf : list ascii) : list ascii :=
  gameOverLine "Best:   " (bestTimeSec g) bestStr bbuf.
(** ** Proof tools *)

Ltac split_ifs :=
  repeat match goal with
         | |- context [if ?c then _ else _] => destruct c eqn:?
         end.

Ltac frame_solve := split_ifs; cbn; repeat split; reflexivity.

Lemma sameSession_trans g1 g2 g3 :
  sameSession g1 g2 -> sameSession g2 g3 -> sameSession g1 g3.
Proof.
  unfold sameSession; intros H1 H2.
  destruct H1 as (a1 & a2 & a3 & a4 & a5 & a6 & a7).
  destruct H2 as (b1 & b2 & b3 & b4 & b5 & b6 & b7).
  repeat split; congruence.
Qed.

Lemma tickChronometer_session now g : sameSession g (tickChronometer now g).
Proof. unfold sameSession, tickChronometer; frame_solve. Qed.

Lemma updateSpeedMode_session g : sameSession g (updateSpeedMode g).
Proof. unfold sameSession, updateSpeedMode, setSpeedMode; frame_solve. Qed.

Lemma handleButtonsPaddle_session env g w :
  sameSession g (handleButtonsPaddle env (g, w)).
Proof. unfold sameSession, handleButtonsPaddle; frame_solve. Qed.

Lemma moveBall_session g : sameSession g (moveBall g).
Proof. unfold sameSession, moveBall; frame_solve. Qed.

Lemma bounceSides_session g w : sameSession g (fst (bounceSides (g, w))).
Proof. unfold sameSession, bounceSides; frame_solve. Qed.

Lemma bounceCeiling_session g w : sameSession g (fst (bounceCeiling (g, w))).
Proof. unfold sameSession, bounceCeiling; frame_solve. Qed.

Lemma set_lastFrameMs_session v g : sameSession g (set_lastFrameMs v g).
Proof. unfold sameSession; cbn; repeat split; reflexivity. Qed.

Lemma beforePaddle_session env g w :
  sameSession g (fst (beforePaddle env (g, w))).
Proof.
  unfold beforePaddle.
  eapply sameSession_trans; [apply set_lastFrameMs_session|].
  eapply sameSession_trans; [apply tickChronometer_session|].
  eapply sameSession_trans; [apply updateSpeedMode_session|].
  eapply sameSession_trans; [apply (handleButtonsPaddle_session env _ w)|].
  eapply sameSession_trans; [apply moveBall_session|].
  match goal with
  | |- context [bounceSides ?s] =>
      destruct (bounceSides s) as [gs ws] eqn:Es;
      pose proof (bounceSides_session (fst s) (snd s)) as Hs
  end.
  cbn [fst snd] in Hs. rewrite Es in Hs. cbn [fst] in Hs.
  eapply sameSession_trans; [exact Hs|].
  apply bounceCeiling_session.
Qed.

(** A PLAYING frame is the paddle block run from [beforePaddle]. *)
Lemma loop_playing fuel env g w :
  frameDue (g, w) = true -> gameState g = STATE_PLAYING ->
  loop fuel env (g, w) = paddleOrMiss fuel env (beforePaddle env (g, w)).
Proof.
  unfold frameDue, loop; cbn [fst snd]; intros Hd Hs.
  apply negb_true_iff in Hd; rewrite Hd.
  replace (gameState (set_lastFrameMs (millis w) g)) with (gameState g) by reflexivity.
  rewrite Hs. reflexivity.
Qed.

Lemma loop_gated fuel env g w :
  frameDue (g, w) = false -> loop fuel env (g, w) = Some (g, delay 1 w).
Proof.
  unfold frameDue, loop; cbn [fst snd]; intros Hd.
  apply negb_false_iff in Hd; rewrite Hd; reflexivity.
Qed.

(** ** Facts on binary32 arithmetic *)

Module F32Facts.

Lemma shr_1_nonneg mrs : 0 <= shr_m mrs -> 0 <= shr_m (shr_1 mrs).
Proof.
  destruct mrs as [m r s]; cbn [shr_m]; intros H.
  destruct m as [|p|p]; [cbn; lia| |lia].
  destruct p; cbn; lia.
Qed.

Lemma iter_shr_1_nonneg p : forall mrs,
  0 <= shr_m mrs -> 0 <= shr_m (iter_pos shr_1 p mrs).
Proof.
  induction p as [p IH|p IH|]; intros mrs H; cbn [iter_pos].
  - apply IH, IH, shr_1_nonneg, H.
  - apply IH, IH, H.
  - apply shr_1_nonneg, H.
Qed.

Lemma shr_record_of_loc_m m l : shr_m (shr_record_of_loc m l) = m.
Proof. destruct l as [|[ | | ]]; reflexivity. Qed.

Lemma shr_fexp_nonneg prec emax m e l :
  0 <= m -> 0 <= shr_m (fst (shr_fexp prec emax m e l)).
Proof.
  intros H; unfold shr_fexp, shr.
  destruct (fexp prec emax (Zdigits2 m + e) - e) as [|p|p]; cbn [fst].
  - rewrite shr_record_of_loc_m; exact H.
  - apply iter_shr_1_nonneg; rewrite shr_record_of_loc_m; exact H.
  - rewrite shr_record_of_loc_m; exact H.
Qed.

Lemma round_nearest_even_nonneg m l : 0 <= m -> 0 <= round_nearest_even m l.
Proof.
  intros H; destruct l as [|[ | | ]]; cbn [round_nearest_even]; try lia.
  destruct (Z.even m); lia.
Qed.

(** Rounding a non-negative mantissa never produces NaN. *)
Lemma binary_round_aux_not_nan prec emax sx mx ex lx :
  0 <= mx -> F32.is_nan (binary_round_aux prec emax sx mx ex lx) = false.
Proof.
  intros H; unfold binary_round_aux.
  pose proof (shr_fexp_nonneg prec emax mx ex lx H) as H1.
  destruct (shr_fexp prec emax mx ex lx) as [mrs' e']; cbn [fst] in H1.
  pose proof (shr_fexp_nonneg prec emax
                (round_nearest_even (shr_m mrs') (loc_of_shr_record mrs')) e' loc_Exact
                (round_nearest_even_nonneg _ _ H1)) as H2.
  destruct (shr_fexp prec emax _ e' loc_Exact) as [mrs'' e'']; cbn [fst] in H2.
  destruct (shr_m mrs'') as [|p|p]; [reflexivity| |lia].
  destruct (e'' <=? emax - prec); reflexivity.
Qed.

Lemma binary_round_not_nan prec emax sx mx ex :
  F32.is_nan (binary_round prec emax sx mx ex) = false.
Proof.
  unfold binary_round.
  destruct (shl_align mx ex _) as [mz ez].
  apply binary_round_aux_not_nan; lia.
Qed.

Lemma binary_normalize_not_nan prec emax m e sz :
  F32.is_nan (binary_normalize prec emax m e sz) = false.
Proof.
  destruct m; cbn [binary_normalize]; [reflexivity| |]; apply binary_round_not_nan.
Qed.

(** Adding or subtracting a finite number keeps a number a number. *)
Lemma add_finite_not_nan x s m e :
  F32.is_nan x = false -> F32.is_nan (F32.add x (S754_finite s m e)) = false.
Proof.
  unfold F32.add; destruct x as [sx|sx| |sx mx ex]; intros H; try discriminate H;
    cbn [SFadd]; try reflexivity.
  apply binary_normalize_not_nan.
Qed.

Lemma sub_finite_not_nan x s m e :
  F32.is_nan x = false -> F32.is_nan (F32.sub x (S754_finite s m e)) = false.
Proof.
  unfold F32.sub; destruct x as [sx|sx| |sx mx ex]; intros H; try discriminate H;
    cbn [SFsub]; try reflexivity.
  apply binary_normalize_not_nan.
Qed.

(** The order on numbers is total: comparing the other way round gives the
    opposite answer. *)
Lemma SFcompare_antisym x y :
  SFcompare y x = option_map CompOpp (SFcompare x y).
Proof.
  destruct x as [sx|sx| |sx mx ex], y as [sy|sy| |sy my ey]; cbn;
    try reflexivity;
    try (destruct sx; reflexivity); try (destruct sy; reflexivity);
    try (destruct sx, sy; reflexivity).
  destruct sx, sy; try reflexivity; f_equal;
    rewrite (Z.compare_antisym ey ex);
    destruct (ey ?= ex); cbn; try reflexivity;
    rewrite (Pos.compare_cont_antisym mx my Eq); cbn;
    destruct (Pos.compare_cont Eq mx my); reflexivity.
Qed.

Lemma not_lt_le x y :
  F32.is_nan x = false -> F32.is_nan y = false ->
  F32.lt x y = false -> F32.le y x = true.
Proof.
  unfold F32.lt, F32.le, SFltb, SFleb; intros Hx Hy.
  rewrite (SFcompare_antisym x y).
  destruct (SFcompare x y) as [[ | | ]|] eqn:E; cbn; try discriminate; try reflexivity.
  destruct x, y; cbn in E; discriminate.
Qed.

Lemma le_not_nan_r x y : F32.le x y = true -> F32.is_nan y = false.
Proof. destruct y; try reflexivity. destruct x; cbn; discriminate. Qed.



End F32Facts.

(** ** The invariant of the session *)

Lemma paddleSpeed_finite : paddleSpeed = S754_finite false 10905190 (-21).
Proof. vm_compute; reflexivity. Qed.

Lemma handleButtonsPaddle_inField env g w :
  F32.is_nan (paddleX g) = false ->
  inField (paddleX (handleButtonsPaddle env (g, w))).
Proof.
  intros Hn; unfold handleButtonsPaddle.
  set (g1 := if leftLow env w then _ else g).
  assert (H1 : F32.is_nan (paddleX g1) = false).
  { subst g1; destruct (leftLow env w); cbn [paddleX set_paddleX]; [|exact Hn].
    rewrite paddleSpeed_finite; apply F32Facts.sub_finite_not_nan, Hn. }
  set (g2 := if rightLow env w then _ else g1).
  assert (H2 : F32.is_nan (paddleX g2) = false).
  { subst g2; destruct (rightLow env w); cbn [paddleX set_paddleX]; [|exact H1].
    rewrite paddleSpeed_finite; apply F32Facts.add_finite_not_nan, H1. }
  set (g3 := if F32.lt (paddleX g2) (F32.of_int 0) then _ else g2).
  assert (H3 : F32.le (F32.of_int 0) (paddleX g3) = true).
  { subst g3; destruct (F32.lt (paddleX g2) (F32.of_int 0)) eqn:E;
      cbn [paddleX set_paddleX]; [reflexivity|].
    apply F32Facts.not_lt_le; [exact H2|reflexivity|exact E]. }
  unfold inField.
  destruct (F32.gt (paddleX g3) (F32.of_int (SCREEN_WIDTH - paddleWidth))) eqn:E;
    cbn [paddleX set_paddleX]; [split; reflexivity|].
  split; [exact H3|].
  apply F32Facts.not_lt_le;
    [reflexivity|apply (F32Facts.le_not_nan_r _ _ H3)|exact E].
Qed.

Lemma paddleOrMiss_cases fuel env g w g' w' :
  paddleOrMiss fuel env (g, w) = Some (g', w') ->
  (reachesPaddleLine g = false /\ g' = g /\ w' = w)
  \/ (reachesPaddleLine g = true /\ overPaddle g = true
      /\ g' = paddleRebound g /\ w' = sfxPaddleHit w)
  \/ (missed g = true /\ 0 < i32 (score g - 1)
      /\ (g', w') = resetBall env (set_score (i32 (score g - 1)) g, sfxLosePoint w))
  \/ (missed g = true /\ i32 (score g - 1) <= 0
      /\ exists g2,
          captureFinalTimeAndUpdateBest fuel
            (set_score (i32 (score g - 1)) g, sfxLosePoint w) = Some (g2, w')
          /\ g' = set_gameState STATE_GAMEOVER g2).
Proof.
  unfold paddleOrMiss, missed.
  destruct (reachesPaddleLine g) eqn:Er.
  2:{ intros H; inversion H; left; auto. }
  destruct (overPaddle g) eqn:Eo.
  { intros H; inversion H; right; left; auto. }
  cbn [score set_score andb negb].
  destruct (i32 (score g - 1) <=? 0) eqn:Ez.
  - apply Z.leb_le in Ez.
    destruct (captureFinalTimeAndUpdateBest fuel _) as [[g2 w2]|] eqn:Ec;
      [|discriminate].
    intros H; inversion H; subst. right; right; right.
    repeat split; auto. exists g2; auto.
  - apply Z.leb_gt in Ez.
    intros H; inversion H as [H1]. right; right; left. repeat split; auto.
Qed.

Lemma capture_cases fuel g w g' w' :
  captureFinalTimeAndUpdateBest fuel (g, w) = Some (g', w') ->
  let final := u16 (u32 (millis w - runStartMs g) / 1000) in
  (finalTimeCaptured g = true /\ g' = g /\ w' = w)
  \/ (finalTimeCaptured g = false /\ final <= bestTimeSec g
      /\ g' = set_finalTimeCaptured true (set_finalElapsedSec final g) /\ w' = w)
  \/ (finalTimeCaptured g = false /\ bestTimeSec g < final
      /\ g' = set_bestTimeSec final
                (set_finalTimeCaptured true (set_finalElapsedSec final g))
      /\ sfxParty fuel 2000 (putBest final w) = Some w').
Proof.
  unfold captureFinalTimeAndUpdateBest.
  destruct (finalTimeCaptured g) eqn:Ef.
  { intros H; inversion H; left; auto. }
  cbn [bestTimeSec finalElapsedSec set_finalTimeCaptured set_finalElapsedSec
       set_bestTimeSec].
  destruct (bestTimeSec g <? _) eqn:Eb.
  - apply Z.ltb_lt in Eb.
    destruct (sfxParty fuel 2000 _) as [w2|] eqn:Ep; [|discriminate].
    intros H; inversion H; subst. right; right. repeat split; auto.
  - apply Z.ltb_ge in Eb.
    intros H; inversion H; subst. right; left. repeat split; auto.
Qed.

Lemma u16_range z : 0 <= u16 z < 65536.
Proof. unfold u16; apply Z.mod_pos_bound; lia. Qed.

Lemma u32_range z : 0 <= u32 z < 4294967296.
Proof. unfold u32; apply Z.mod_pos_bound; lia. Qed.

Lemma i32_small z : -2147483648 <= z < 2147483648 -> i32 z = z.
Proof. unfold i32; intros H; rewrite Z.mod_small; lia. Qed.

Lemma paddleRebound_frame g :
  gameState (paddleRebound g) = gameState g /\ score (paddleRebound g) = score g
  /\ finalTimeCaptured (paddleRebound g) = finalTimeCaptured g
  /\ finalElapsedSec (paddleRebound g) = finalElapsedSec g
  /\ bestTimeSec (paddleRebound g) = bestTimeSec g
  /\ paddleX (paddleRebound g) = paddleX g.
Proof. unfold paddleRebound; frame_solve. Qed.

Lemma resetBall_frame env g w :
  let g' := fst (resetBall env (g, w)) in
  gameState g' = gameState g /\ score g' = score g
  /\ finalTimeCaptured g' = finalTimeCaptured g
  /\ finalElapsedSec g' = finalElapsedSec g
  /\ bestTimeSec g' = bestTimeSec g
  /\ paddleX g' = paddleX g.
Proof. unfold resetBall; cbn; repeat split; reflexivity. Qed.

Lemma paddleX_ball_blocks g w :
  paddleX (fst (bounceCeiling (bounceSides (moveBall g, w)))) = paddleX g.
Proof. unfold bounceCeiling, bounceSides, moveBall; frame_solve. Qed.

Lemma beforePaddle_inField env g w :
  F32.is_nan (paddleX g) = false ->
  inField (paddleX (fst (beforePaddle env (g, w)))).
Proof.
  intros Hn; unfold beforePaddle.
  set (g2 := updateSpeedMode _).
  assert (Hp : paddleX g2 = paddleX g).
  { subst g2; unfold updateSpeedMode, setSpeedMode, tickChronometer; frame_solve. }
  rewrite <- Hp in Hn.
  pose proof (handleButtonsPaddle_inField env g2 w Hn) as Hf.
  set (g3 := handleButtonsPaddle env (g2, w)) in *.
  clearbody g3. rewrite paddleX_ball_blocks. exact Hf.
Qed.

(** ** The trace of the adapters *)

Lemma puts_beep f m gp w : puts (trace (beep f m gp w)) = puts (trace w).
Proof. unfold beep; destruct (gp =? 0); reflexivity. Qed.

Lemma puts_sfxLosePoint w : puts (trace (sfxLosePoint w)) = puts (trace w).
Proof. reflexivity. Qed.

Lemma puts_partyLoop fuel : forall endMs i w w',
  partyLoop fuel endMs i w = Some w' -> puts (trace w') = puts (trace w).
Proof.
  induction fuel as [|fuel IH]; intros endMs i w w'; cbn [partyLoop]; [discriminate|].
  destruct (millis w <? endMs).
  - intros H; apply IH in H; rewrite H; apply puts_beep.
  - intros H; inversion H; reflexivity.
Qed.

Lemma puts_sfxParty fuel ms w w' :
  sfxParty fuel ms w = Some w' -> puts (trace w') = puts (trace w).
Proof. unfold sfxParty; intros H; apply puts_partyLoop in H; exact H. Qed.


(** With the clock's 32-bit reading more than 2040 ms away from wrapping, the
    party tune ends after seventeen notes. *)
Lemma partyLoop_returns n : forall fuel endMs i w,
  (n < fuel)%nat ->
  endMs <= millis w + 120 * Z.of_nat n ->
  millis w + 120 * Z.of_nat n < 4294967296 ->
  exists w', partyLoop fuel endMs i w = Some w'.
Proof.
  induction n as [|n IH]; intros fuel endMs i w Hf He Hw;
    (destruct fuel as [|fuel]; [lia|]); cbn [partyLoop].
  - destruct (millis w <? endMs) eqn:E; [apply Z.ltb_lt in E; lia|eauto].
  - destruct (millis w <? endMs) eqn:E; [|eauto].
    apply IH; [lia| |].
    + replace (millis (beep _ 90 30 w)) with (millis w + 120); [lia|].
      unfold millis, u32 in *; cbn [beep delay emit clock Z.eqb].
      pose proof (Z.mod_pos_bound (clock w) 4294967296 ltac:(lia)).
      replace (clock w + 90 + 30) with (clock w + 120) by lia.
      rewrite <- (Z.mod_small (clock w mod 4294967296 + 120) 4294967296) by lia.
      rewrite Zplus_mod_idemp_l. reflexivity.
    + replace (millis (beep _ 90 30 w)) with (millis w + 120); [lia|].
      unfold millis, u32 in *; cbn [beep delay emit clock Z.eqb].
      pose proof (Z.mod_pos_bound (clock w) 4294967296 ltac:(lia)).
      replace (clock w + 90 + 30) with (clock w + 120) by lia.
      rewrite <- (Z.mod_small (clock w mod 4294967296 + 120) 4294967296) by lia.
      rewrite Zplus_mod_idemp_l. reflexivity.
Qed.

Lemma sfxParty_returns fuel w :
  (18 <= fuel)%nat -> millis w + 2040 < 4294967296 ->
  exists w', sfxParty fuel 2000 w = Some w'.
Proof.
  intros Hf Hw; unfold sfxParty.
  apply (partyLoop_returns 17); [lia| |].
  - replace (millis (emit (EvCue Party) w)) with (millis w) by reflexivity.
    pose proof (u32_range (clock w)). unfold millis in *.
    unfold u32 at 1; rewrite Z.mod_small; lia.
  - replace (millis (emit (EvCue Party) w)) with (millis w) by reflexivity. lia.
Qed.

(** ** One PLAYING frame *)

Lemma ball_blocks_puts g w :
  puts (trace (snd (bounceCeiling (bounceSides (g, w))))) = puts (trace w).
Proof. unfold bounceCeiling, bounceSides; split_ifs; reflexivity. Qed.

Lemma beforePaddle_puts env g w :
  puts (trace (snd (beforePaddle env (g, w)))) = puts (trace w).
Proof. unfold beforePaddle; apply ball_blocks_puts. Qed.

(** The three outcomes of a PLAYING frame: no point lost; a point lost with
    points left; the last point lost. *)
Lemma playing_frame fuel env g w g' w' :
  Inv g -> gameState g = STATE_PLAYING -> frameDue (g, w) = true ->
  loop fuel env (g, w) = Some (g', w') ->
  let gB := fst (beforePaddle env (g, w)) in
  let wB := snd (beforePaddle env (g, w)) in
  (missed gB = false
   /\ ((g' = gB /\ w' = wB) \/ (g' = paddleRebound gB /\ w' = sfxPaddleHit wB)))
  \/ (missed gB = true /\ 1 < score g
      /\ (g', w') = resetBall env (set_score (score g - 1) gB, sfxLosePoint wB))
  \/ (missed gB = true /\ score g = 1
      /\ let final := finalAt g (sfxLosePoint wB) in
         let g1 := set_finalTimeCaptured true (set_finalElapsedSec final (set_score 0 gB)) in
         if bestTimeSec g <? final
         then g' = set_gameState STATE_GAMEOVER (set_bestTimeSec final g1)
              /\ sfxParty fuel 2000 (putBest final (sfxLosePoint wB)) = Some w'
         else g' = set_gameState STATE_GAMEOVER g1 /\ w' = sfxLosePoint wB).
Proof.
  intros HI Hs Hd Hl.
  rewrite (loop_playing fuel env g w Hd Hs) in Hl.
  pose proof (beforePaddle_session env g w) as Hss.
  destruct (beforePaddle env (g, w)) as [gB wB]; cbn [fst snd] in *.
  destruct Hss as (S1 & S2 & S3 & S4 & S5 & S6 & S7).
  destruct HI as (I1 & I2 & _).
  destruct (I2 Hs) as (P1 & P2 & P3).
  apply paddleOrMiss_cases in Hl.
  destruct Hl as [(Hr & -> & ->)|[(Hr & Ho & -> & ->)|[(Hm & Hp & He)|(Hm & Hp & g2 & Hc & ->)]]].
  - left; split; [unfold missed; rewrite Hr; reflexivity|left; auto].
  - left; split; [unfold missed; rewrite Hr, Ho; reflexivity|right; auto].
  - right; left. rewrite S2 in *. rewrite i32_small in * by lia.
    repeat split; [exact Hm|lia|exact He].
  - right; right. rewrite S2 in *. rewrite i32_small in * by lia.
    assert (Hsc : score g = 1) by lia.
    split; [exact Hm|]. split; [exact Hsc|].
    rewrite Hsc in Hc; change (1 - 1) with 0 in Hc.
    apply capture_cases in Hc; cbv zeta in Hc.
    cbn [finalTimeCaptured bestTimeSec runStartMs set_score] in Hc.
    rewrite S3, S5, S6, P2 in Hc.
    unfold finalAt.
    destruct Hc as [(Hx & _)|[(_ & Hle & -> & ->)|(_ & Hlt & -> & Hp2)]];
      [discriminate| |].
    + apply Z.ltb_ge in Hle; rewrite Hle; auto.
    + apply Z.ltb_lt in Hlt; rewrite Hlt; auto.
Qed.

(** ** The invariant holds whenever [loop()] is entered *)

Lemma resetGame_spec env g w :
  let g' := fst (resetGame env (g, w)) in
  score g' = 10
  /\ paddleX g' = F32.of_int 52
  /\ finalTimeCaptured g' = false /\ finalElapsedSec g' = 0
  /\ bestTimeSec g' = bestTimeSec g /\ gameState g' = gameState g
  /\ runStartMs g' = millis w /\ elapsedSec g' = 0
  /\ fastMode g' = false /\ modeStartSec g' = 0 /\ t0 g' = t0 g.
Proof.
  unfold resetGame, resetGameRuntime, resetBall, setSpeedMode, random02.
  cbn [fst snd score paddleX finalTimeCaptured finalElapsedSec bestTimeSec gameState
       runStartMs elapsedSec fastMode modeStartSec t0
       set_score set_paddleX set_ballX set_ballY set_ballVX set_ballVY set_runStartMs
       set_lastSecondMs set_elapsedSec set_fastMode set_speedMultiplier set_modeStartSec
       set_finalTimeCaptured set_finalElapsedSec].
  repeat split; try reflexivity.
Qed.

Lemma caseStart_cases fuel env now g w g' w' :
  caseStart fuel env now (g, w) = Some (g', w') ->
  (gameState g' = gameState g /\ score g' = score g /\ paddleX g' = paddleX g
   /\ finalTimeCaptured g' = finalTimeCaptured g
   /\ finalElapsedSec g' = finalElapsedSec g /\ bestTimeSec g' = bestTimeSec g
   /\ t0 g' = t0 g /\ w' = w)
  \/ (exists g2 w3,
        g' = set_gameState STATE_PLAYING (fst (resetGame env (g2, w3)))
        /\ w' = snd (resetGame env (g2, w3))
        /\ bestTimeSec g2 = bestTimeSec g /\ t0 g2 = t0 g
        /\ puts (trace w3) = puts (trace w)).
Proof.
  unfold caseStart.
  set (g1 := if BLINK_INTERVAL <=? _ then _ else g).
  assert (H1 : gameState g1 = gameState g /\ score g1 = score g
               /\ paddleX g1 = paddleX g
               /\ finalTimeCaptured g1 = finalTimeCaptured g
               /\ finalElapsedSec g1 = finalElapsedSec g
               /\ bestTimeSec g1 = bestTimeSec g /\ t0 g1 = t0 g
               /\ hasPlayedFirstStartBeep g1 = hasPlayedFirstStartBeep g).
  { subst g1; frame_solve. }
  clearbody g1. destruct H1 as (A1 & A2 & A3 & A4 & A5 & A6 & A7 & A8).
  destruct (rightLow env w).
  2:{ intros H; inversion H; subst. left; repeat split; auto. }
  set (p := if hasPlayedFirstStartBeep g1 then _ else _).
  assert (Hp : bestTimeSec (fst p) = bestTimeSec g /\ t0 (fst p) = t0 g
               /\ puts (trace (snd p)) = puts (trace w)).
  { subst p; destruct (hasPlayedFirstStartBeep g1); cbn; auto. }
  destruct p as [g2 w2]; cbn [fst snd] in Hp. destruct Hp as (B1 & B2 & B3).
  destruct (waitRelease fuel env (delay 60 w2)) as [w3|] eqn:Ew; [|discriminate].
  assert (Hw : puts (trace w3) = puts (trace w2)).
  { clear - Ew. remember (delay 60 w2) as wd.
    replace (puts (trace w2)) with (puts (trace wd)) by (subst; reflexivity).
    clear Heqwd. revert wd Ew.
    induction fuel as [|fuel IH]; intros wd; cbn [waitRelease]; [discriminate|].
    destruct (rightLow env wd).
    - intros H; apply IH in H; exact H.
    - intros H; inversion H; reflexivity. }
  destruct (resetGame env (g2, w3)) as [g3 w4] eqn:Er.
  intros H; inversion H; subst. right. exists g2, w3.
  rewrite Er; cbn [fst snd]. repeat split; auto. congruence.
Qed.

Lemma caseGameOver_frame env g w :
  let g' := fst (caseGameOver env (g, w)) in
  (gameState g' = gameState g \/ gameState g' = STATE_START)
  /\ score g' = score g /\ paddleX g' = paddleX g
  /\ finalTimeCaptured g' = finalTimeCaptured g
  /\ finalElapsedSec g' = finalElapsedSec g /\ bestTimeSec g' = bestTimeSec g
  /\ puts (trace (snd (caseGameOver env (g, w)))) = puts (trace w).
Proof.
  unfold caseGameOver, bothButtonsHeld.
  destruct (leftLow env w && rightLow env w).
  - destruct (t0 g =? 0); cbn [t0 set_t0];
      match goal with |- context [if ?c then _ else _] => destruct c end;
      cbn; repeat split; auto.
  - cbn; repeat split; auto.
Qed.

Lemma setup_Inv w : Inv (fst (setup w)).
Proof.
  unfold Inv, setup; cbn [fst score gameState finalTimeCaptured finalElapsedSec
    bestTimeSec paddleX set_lastBlinkMs set_blinkOn set_gameState set_bestTimeSec
    powerOn].
  pose proof (u16_range (getBest (delay 50 w))).
  repeat split; try lia; try discriminate.
Qed.

Lemma loop_open fuel env g w :
  frameDue (g, w) = true ->
  loop fuel env (g, w) =
  match gameState g with
  | STATE_START => caseStart fuel env (millis w) (set_lastFrameMs (millis w) g, w)
  | STATE_PLAYING => casePlaying fuel env (millis w) (set_lastFrameMs (millis w) g, w)
  | STATE_GAMEOVER => Some (caseGameOver env (set_lastFrameMs (millis w) g, w))
  end.
Proof.
  unfold frameDue, loop; cbn [fst snd]; intros Hd.
  apply negb_true_iff in Hd; rewrite Hd. reflexivity.
Qed.

Lemma start_Inv fuel env g w g' w' :
  Inv g -> gameState g = STATE_START -> frameDue (g, w) = true ->
  loop fuel env (g, w) = Some (g', w') -> Inv g'.
Proof.
  intros HI Hs Hd Hl.
  rewrite (loop_open fuel env g w Hd), Hs in Hl.
  apply caseStart_cases in Hl.
  destruct HI as (I1 & I2 & I3 & I4 & I5).
  destruct Hl as [(A1 & A2 & A3 & A4 & A5 & A6 & A7 & A8)|(g2 & w3 & -> & _ & B1 & _)].
  - change (gameState g' = gameState g) in A1. change (score g' = score g) in A2.
    change (paddleX g' = paddleX g) in A3.
    change (finalElapsedSec g' = finalElapsedSec g) in A5.
    change (bestTimeSec g' = bestTimeSec g) in A6.
    unfold Inv; rewrite A1, A2, A3, A5, A6, Hs.
    repeat split; try lia; try discriminate; apply I3.
  - pose proof (resetGame_spec env g2 w3) as R; cbv zeta in R.
    destruct R as (R1 & R2 & R3 & R4 & R5 & _).
    change (bestTimeSec g2 = bestTimeSec g) in B1.
    generalize dependent (fst (resetGame env (g2, w3))). intros g3 R1 R2 R3 R4 R5.
    unfold Inv.
    cbn [gameState score paddleX finalTimeCaptured finalElapsedSec bestTimeSec
         set_gameState].
    rewrite R1, R2, R3, R4, R5, B1.
    repeat split; try lia; reflexivity.
Qed.

Lemma playing_Inv fuel env g w g' w' :
  Inv g -> gameState g = STATE_PLAYING -> frameDue (g, w) = true ->
  loop fuel env (g, w) = Some (g', w') -> Inv g'.
Proof.
  intros HI Hs Hd Hl.
  pose proof (playing_frame fuel env g w g' w' HI Hs Hd Hl) as Hf; cbv zeta in Hf.
  pose proof (beforePaddle_session env g w) as Hss.
  destruct HI as (I1 & I2 & I3 & I4 & I5).
  pose proof (beforePaddle_inField env g w
                (F32Facts.le_not_nan_r _ _ (proj1 I3))) as Hp.
  destruct (I2 Hs) as (P1 & P2 & P3).
  destruct (beforePaddle env (g, w)) as [gB wB]; cbn [fst snd] in *.
  destruct Hss as (S1 & S2 & S3 & S4 & S5 & S6 & S7).
  destruct Hf as [(Hm & [(-> & ->)|(-> & ->)])|[(Hm & Hsc & He)|(Hm & Hsc & He)]].
  - unfold Inv; rewrite S1, S2, S3, S4, S5. repeat split; try lia; auto; apply Hp.
  - pose proof (paddleRebound_frame gB) as (F1 & F2 & F3 & F4 & F5 & F6).
    unfold Inv; rewrite F1, F2, F3, F4, F5, F6, S1, S2, S3, S4, S5.
    repeat split; try lia; auto; apply Hp.
  - pose proof (resetBall_frame env (set_score (score g - 1) gB) (sfxLosePoint wB))
      as F; cbv zeta in F. rewrite <- He in F; cbn [fst] in F.
    destruct F as (F1 & F2 & F3 & F4 & F5 & F6).
    cbn [gameState score paddleX finalTimeCaptured finalElapsedSec bestTimeSec
         set_score] in F1, F2, F3, F4, F5, F6.
    unfold Inv; rewrite F1, F2, F3, F4, F5, F6, S1, S3, S4, S5.
    repeat split; try lia; auto; apply Hp.
  - pose proof (u16_range (u32 (millis (sfxLosePoint wB) - runStartMs g) / 1000))
      as Hu. fold (finalAt g (sfxLosePoint wB)) in Hu.
    destruct (bestTimeSec g <? finalAt g (sfxLosePoint wB)) eqn:Eb;
      destruct He as (-> & _); unfold Inv;
      cbn [gameState score paddleX finalTimeCaptured finalElapsedSec bestTimeSec
           set_score set_gameState set_bestTimeSec set_finalTimeCaptured
           set_finalElapsedSec];
      [apply Z.ltb_lt in Eb|apply Z.ltb_ge in Eb]; rewrite ?S5;
      repeat split; try lia; try discriminate; apply Hp.
Qed.

Lemma gameover_Inv fuel env g w g' w' :
  Inv g -> gameState g = STATE_GAMEOVER -> frameDue (g, w) = true ->
  loop fuel env (g, w) = Some (g', w') -> Inv g'.
Proof.
  intros HI Hs Hd Hl.
  rewrite (loop_open fuel env g w Hd), Hs in Hl.
  pose proof (caseGameOver_frame env (set_lastFrameMs (millis w) g) w) as F.
  cbv zeta in F.
  destruct (caseGameOver env (set_lastFrameMs (millis w) g, w)) as [gx wx].
  inversion Hl; subst gx wx. cbn [fst snd] in F.
  destruct F as (F1 & F2 & F3 & F4 & F5 & F6 & _).
  change (gameState g' = gameState g \/ gameState g' = STATE_START) in F1.
  change (score g' = score g) in F2. change (paddleX g' = paddleX g) in F3.
  change (finalElapsedSec g' = finalElapsedSec g) in F5.
  change (bestTimeSec g' = bestTimeSec g) in F6.
  destruct HI as (I1 & I2 & I3 & I4 & I5).
  unfold Inv; rewrite F2, F3, F5, F6.
  repeat split; try lia; try apply I3.
  all: exfalso; destruct F1 as [F1|F1]; congruence.
Qed.

Lemma loop_Inv fuel env g w g' w' :
  Inv g -> loop fuel env (g, w) = Some (g', w') -> Inv g'.
Proof.
  intros HI Hl.
  destruct (frameDue (g, w)) eqn:Hd.
  2:{ rewrite (loop_gated fuel env g w Hd) in Hl; inversion Hl; subst; exact HI. }
  destruct (gameState g) eqn:Hs.
  - exact (start_Inv fuel env g w g' w' HI Hs Hd Hl).
  - exact (playing_Inv fuel env g w g' w' HI Hs Hd Hl).
  - exact (gameover_Inv fuel env g w g' w' HI Hs Hd Hl).
Qed.

Lemma reachable_Inv env st : reachable env st -> Inv (fst st).
Proof.
  induction 1 as [w|fuel [g w] [g' w'] _ IH Hl|g w ms _ IH _].
  - apply setup_Inv.
  - exact (loop_Inv fuel env g w g' w' IH Hl).
  - exact IH.
Qed.

(** ** A PLAYING frame returns *)

Lemma ball_blocks_clock g w :
  clock w <= clock (snd (bounceCeiling (bounceSides (g, w)))) <= clock w + 18.
Proof.
  unfold bounceCeiling, bounceSides; split_ifs; cbn; lia.
Qed.

Lemma beforePaddle_clock env g w :
  clock w <= clock (snd (beforePaddle env (g, w))) <= clock w + 18.
Proof. unfold beforePaddle; apply ball_blocks_clock. Qed.

Lemma clock_sfxLosePoint w : clock (sfxLosePoint w) = clock w + 400.
Proof. cbn; lia. Qed.

Lemma millis_later w w' d :
  clock w' = clock w + d -> 0 <= d -> millis w + d < 4294967296 ->
  millis w' = millis w + d.
Proof.
  unfold millis, u32; intros -> Hd Hb.
  pose proof (Z.mod_pos_bound (clock w) 4294967296 ltac:(lia)).
  rewrite <- (Z.mod_small (clock w mod 4294967296 + d) 4294967296) by lia.
  rewrite Zplus_mod_idemp_l. reflexivity.
Qed.

Lemma capture_returns fuel g w :
  (18 <= fuel)%nat -> millis w + 2040 < 4294967296 ->
  exists st', captureFinalTimeAndUpdateBest fuel (g, w) = Some st'.
Proof.
  intros Hf Hw; unfold captureFinalTimeAndUpdateBest.
  destruct (finalTimeCaptured g); [eauto|].
  match goal with |- context [if ?c then _ else _] => destruct c end; [|eauto].
  match goal with |- context [sfxParty fuel 2000 ?x] =>
    destruct (sfxParty_returns fuel x Hf) as [w2 H2]; [exact Hw|rewrite H2; eauto]
  end.
Qed.

Lemma paddleOrMiss_returns fuel env g w :
  (18 <= fuel)%nat -> millis w + 2440 < 4294967296 ->
  exists st', paddleOrMiss fuel env (g, w) = Some st'.
Proof.
  intros Hf Hw; unfold paddleOrMiss.
  destruct (reachesPaddleLine g); [|eauto].
  destruct (overPaddle g); [eauto|].
  match goal with |- context [if ?c then _ else _] => destruct c end; [|eauto].
  destruct (capture_returns fuel (set_score (i32 (score g - 1)) g) (sfxLosePoint w) Hf)
    as [[g2 w2] H2].
  - rewrite (millis_later w (sfxLosePoint w) 400 (clock_sfxLosePoint w)); lia.
  - rewrite H2; eauto.
Qed.

(** With fuel for the seventeen notes of the party tune and the clock's reading
    2.5 s away from wrapping, a PLAYING frame returns. *)
Lemma playing_returns fuel env g w :
  gameState g = STATE_PLAYING ->
  (18 <= fuel)%nat -> millis w + 2500 < 4294967296 ->
  exists st', loop fuel env (g, w) = Some st'.
Proof.
  intros Hs Hf Hw.
  destruct (frameDue (g, w)) eqn:Hd.
  2:{ rewrite (loop_gated fuel env g w Hd); eauto. }
  rewrite (loop_playing fuel env g w Hd Hs).
  pose proof (beforePaddle_clock env g w) as Hc.
  destruct (beforePaddle env (g, w)) as [gB wB]; cbn [snd] in Hc.
  apply paddleOrMiss_returns; [exact Hf|].
  rewrite (millis_later w wB (clock wB - clock w)); lia.
Qed.

Lemma run_reachable fuel env n : forall st st',
  reachable env st -> run fuel env n st = Some st' -> reachable env st'.
Proof.
  induction n as [|n IH]; intros st st' Hr; cbn [run].
  - intros H; inversion H; subst; exact Hr.
  - destruct (loop fuel env st) as [st1|] eqn:E; [|discriminate].
    apply IH. exact (reach_loop env fuel st st1 Hr E).
Qed.

(** ** Calls of [loop()] outside a PLAYING frame *)

Lemma resetBall_trace env g w : trace (snd (resetBall env (g, w))) = trace w.
Proof. reflexivity. Qed.

Lemma resetGame_trace env g w : trace (snd (resetGame env (g, w))) = trace w.
Proof. reflexivity. Qed.

(** A call that is gated, or made in START or GAMEOVER, leaves the best time and
    the persistence store alone; it either starts a run, with the final time
    cleared, or leaves the final time as it is. *)
Lemma idle_frame fuel env g w g' w' :
  frameDue (g, w) = false \/ gameState g <> STATE_PLAYING ->
  loop fuel env (g, w) = Some (g', w') ->
  bestTimeSec g' = bestTimeSec g /\ puts (trace w') = puts (trace w)
  /\ ((gameState g = STATE_START /\ gameState g' = STATE_PLAYING
       /\ finalTimeCaptured g' = false /\ finalElapsedSec g' = 0)
      \/ (finalTimeCaptured g' = finalTimeCaptured g
          /\ finalElapsedSec g' = finalElapsedSec g
          /\ (gameState g' = gameState g
              \/ (gameState g = STATE_GAMEOVER /\ gameState g' = STATE_START)))).
Proof.
  intros Hc Hl.
  destruct (frameDue (g, w)) eqn:Hd.
  2:{ rewrite (loop_gated fuel env g w Hd) in Hl; inversion Hl; subst g' w'.
      split; [reflexivity|]. split; [reflexivity|]. right; auto. }
  destruct Hc as [Hc|Hc]; [discriminate|].
  rewrite (loop_open fuel env g w Hd) in Hl.
  destruct (gameState g) eqn:Hs; [| congruence |].
  - apply caseStart_cases in Hl.
    destruct Hl as [(A1 & A2 & A3 & A4 & A5 & A6 & A7 & ->)
                   |(g2 & w3 & Hg & Hw & B1 & B2 & B3)].
    + change (gameState g' = gameState g) in A1.
      change (finalTimeCaptured g' = finalTimeCaptured g) in A4.
      change (finalElapsedSec g' = finalElapsedSec g) in A5.
      change (bestTimeSec g' = bestTimeSec g) in A6.
      split; [exact A6|]. split; [reflexivity|]. right.
      split; [exact A4|]. split; [exact A5|]. left; congruence.
    + change (bestTimeSec g2 = bestTimeSec g) in B1.
      revert Hg Hw.
      pose proof (resetGame_spec env g2 w3) as R; cbv zeta in R.
      destruct R as (R1 & R2 & R3 & R4 & R5 & _).
      pose proof (resetGame_trace env g2 w3) as T.
      destruct (resetGame env (g2, w3)) as [g3 w4]; cbn [fst snd] in *.
      intros -> ->.
      cbn [bestTimeSec gameState finalTimeCaptured finalElapsedSec set_gameState].
      rewrite R5, R3, R4, T. split; [exact B1|]. split; [exact B3|]. left; auto.
  - pose proof (caseGameOver_frame env (set_lastFrameMs (millis w) g) w) as F.
    cbv zeta in F.
    destruct (caseGameOver env (set_lastFrameMs (millis w) g, w)) as [gx wx].
    inversion Hl; subst gx wx. cbn [fst snd] in F.
    destruct F as (F1 & F2 & F3 & F4 & F5 & F6 & F7).
    change (gameState g' = gameState g \/ gameState g' = STATE_START) in F1.
    change (finalTimeCaptured g' = finalTimeCaptured g) in F4.
    change (finalElapsedSec g' = finalElapsedSec g) in F5.
    change (bestTimeSec g' = bestTimeSec g) in F6.
    split; [exact F6|]. split; [exact F7|]. right.
    split; [exact F4|]. split; [exact F5|].
    destruct F1 as [F1|F1]; [left; congruence|right; split; congruence].
Qed.

(** ** The score *)

Lemma lastFrame_reachable : reachable session lastFrame.
Proof.
  apply (run_reachable 30 session (Z.to_nat 3410) (setup coldStart));
    [apply reach_setup|vm_compute; reflexivity].
Defined.

(** C1. In a PLAYING state the sketch can be in, the score lies between 1 and 10;
    a call of [loop()] leaves it unchanged or, exactly when the frame is due and
    the ball is missed, lowers it by one, never below zero; the state after the
    call is GAMEOVER exactly when the score has reached 0 and PLAYING otherwise;
    [resetGame] sets the score to 10; and the call returns. *)
Theorem score_counts_down env fuel g w :
  reachable env (g, w) -> gameState g = STATE_PLAYING ->
  (forall st, score (fst (resetGame env st)) = 10)
  /\ 1 <= score g <= 10
  /\ (forall g' w', loop fuel env (g, w) = Some (g', w') ->
        0 <= score g' <= score g
        /\ score g' = (if frameDue (g, w) && missed (fst (beforePaddle env (g, w)))
                       then score g - 1 else score g)
        /\ (score g' = 0 <-> gameState g' = STATE_GAMEOVER)
        /\ (0 < score g' <-> gameState g' = STATE_PLAYING))
  /\ ((18 <= fuel)%nat -> millis w + 2500 < 4294967296 ->
        exists st', loop fuel env (g, w) = Some st').
Proof.
  intros Hr Hs.
  pose proof (reachable_Inv env (g, w) Hr) as HI; cbn [fst] in HI.
  split; [intros [g0 w0]; apply (resetGame_spec env g0 w0)|].
  assert (Hsc : 1 <= score g <= 10).
  { destruct HI as (I1 & I2 & _). destruct (I2 Hs). lia. }
  split; [exact Hsc|].
  split; [|intros Hf Hw; exact (playing_returns fuel env g w Hs Hf Hw)].
  intros g' w' Hl.
  destruct (frameDue (g, w)) eqn:Hd; cbn [andb].
  2:{ rewrite (loop_gated fuel env g w Hd) in Hl; inversion Hl; subst g' w'.
      rewrite Hs. repeat split; try lia; try discriminate; auto. }
  pose proof (playing_frame fuel env g w g' w' HI Hs Hd Hl) as Hf; cbv zeta in Hf.
  pose proof (beforePaddle_session env g w) as Hss.
  destruct (beforePaddle env (g, w)) as [gB wB]; cbn [fst snd] in *.
  destruct Hss as (S1 & S2 & _).
  destruct Hf as [(Hm & [(-> & ->)|(-> & ->)])|[(Hm & Hgt & He)|(Hm & H1 & He)]];
    rewrite Hm.
  - rewrite S1, S2, Hs. repeat split; try lia; try discriminate; auto.
  - destruct (paddleRebound_frame gB) as (F1 & F2 & _).
    rewrite F1, F2, S1, S2, Hs. repeat split; try lia; try discriminate; auto.
  - pose proof (resetBall_frame env (set_score (score g - 1) gB) (sfxLosePoint wB))
      as F; cbv zeta in F. rewrite <- He in F; cbn [fst] in F.
    destruct F as (F1 & F2 & _).
    cbn [gameState score set_score] in F1, F2.
    rewrite F1, F2, S1, Hs. repeat split; try lia; try discriminate; auto.
  - assert (Hg : gameState g' = STATE_GAMEOVER /\ score g' = 0).
    { destruct (bestTimeSec g <? _); destruct He as (-> & _); split; reflexivity. }
    destruct Hg as (G1 & G2). rewrite G1, G2.
    repeat split; try lia; try discriminate; auto.
Qed.

Lemma score_counts_down_witness :
  reachable session lastFrame
  /\ gameState (fst lastFrame) = STATE_PLAYING
  /\ 1 <= score (fst lastFrame) <= 10
  /\ exists st', loop 30 session lastFrame = Some st'.
Proof.
  split; [exact lastFrame_reachable|]. split; [reflexivity|].
  destruct (score_counts_down session 30 (fst lastFrame) (snd lastFrame)
              lastFrame_reachable eq_refl) as (_ & H2 & _ & H4).
  split; [exact H2|].
  apply H4; [apply Nat.leb_le; reflexivity|apply Z.ltb_lt; reflexivity].
Defined.

(** ** The best time *)

Lemma lastFrame_loop : loop 30 session lastFrame = Some gameOverEntry.
Proof. vm_compute; reflexivity. Defined.

(** C2. Over one call of [loop()] from a state the sketch can be in, the best time
    never decreases.  It increases only on the frame that ends a run (PLAYING to
    GAMEOVER), only to that run's final time, and that frame then calls
    [putUShort] exactly once, with the new best time.  When the run's final time
    does not exceed the best time, the best time stays and no call is made; no
    other call of [loop()] touches either.  A PLAYING frame returns. *)
Theorem best_time_only_grows env fuel g w :
  reachable env (g, w) ->
  (forall g' w', loop fuel env (g, w) = Some (g', w') ->
     bestTimeSec g <= bestTimeSec g'
     /\ (bestTimeSec g < bestTimeSec g' ->
           gameState g = STATE_PLAYING /\ gameState g' = STATE_GAMEOVER
           /\ bestTimeSec g' = finalElapsedSec g'
           /\ puts (trace w') = bestTimeSec g' :: puts (trace w))
     /\ (bestTimeSec g' = bestTimeSec g -> puts (trace w') = puts (trace w))
     /\ (gameState g = STATE_PLAYING -> gameState g' = STATE_GAMEOVER ->
           if bestTimeSec g <? finalElapsedSec g'
           then bestTimeSec g' = finalElapsedSec g'
                /\ puts (trace w') = finalElapsedSec g' :: puts (trace w)
           else bestTimeSec g' = bestTimeSec g
                /\ puts (trace w') = puts (trace w)))
  /\ (gameState g = STATE_PLAYING ->
      (18 <= fuel)%nat -> millis w + 2500 < 4294967296 ->
      exists st', loop fuel env (g, w) = Some st').
Proof.
  intros Hr.
  pose proof (reachable_Inv env (g, w) Hr) as HI; cbn [fst] in HI.
  split; [|intros Hs Hf Hw; exact (playing_returns fuel env g w Hs Hf Hw)].
  intros g' w' Hl.
  assert (Hidle : frameDue (g, w) = false \/ gameState g <> STATE_PLAYING ->
                  bestTimeSec g' = bestTimeSec g /\ puts (trace w') = puts (trace w)
                  /\ ~ (gameState g = STATE_PLAYING /\ gameState g' = STATE_GAMEOVER)).
  { intros Hc. destruct (idle_frame fuel env g w g' w' Hc Hl) as (B & P & T).
    split; [exact B|]. split; [exact P|]. intros (X1 & X2).
    destruct T as [(T1 & _)|(_ & _ & [T3|(T3 & _)])]; congruence. }
  assert (Hdone : bestTimeSec g' = bestTimeSec g /\ puts (trace w') = puts (trace w)
                  /\ ~ (gameState g = STATE_PLAYING /\ gameState g' = STATE_GAMEOVER) ->
                  bestTimeSec g <= bestTimeSec g'
                  /\ (bestTimeSec g < bestTimeSec g' ->
                      gameState g = STATE_PLAYING /\ gameState g' = STATE_GAMEOVER
                      /\ bestTimeSec g' = finalElapsedSec g'
                      /\ puts (trace w') = bestTimeSec g' :: puts (trace w))
                  /\ (bestTimeSec g' = bestTimeSec g ->
                      puts (trace w') = puts (trace w))
                  /\ (gameState g = STATE_PLAYING -> gameState g' = STATE_GAMEOVER ->
                      if bestTimeSec g <? finalElapsedSec g'
                      then bestTimeSec g' = finalElapsedSec g'
                           /\ puts (trace w') = finalElapsedSec g' :: puts (trace w)
                      else bestTimeSec g' = bestTimeSec g
                           /\ puts (trace w') = puts (trace w))).
  { clear. intros (B & P & N). rewrite B.
    split; [lia|]. split; [intros; lia|]. split; [auto|].
    intros X1 X2; exfalso; apply N; auto. }
  destruct (frameDue (g, w)) eqn:Hd.
  2:{ apply Hdone, Hidle; left; reflexivity. }
  destruct (gameState g) eqn:Hs.
  1,3: apply Hdone, Hidle; right; discriminate.
  clear Hidle.
  pose proof (playing_frame fuel env g w g' w' HI Hs Hd Hl) as Hf; cbv zeta in Hf.
  pose proof (beforePaddle_session env g w) as Hss.
  pose proof (beforePaddle_puts env g w) as Hpp.
  destruct (beforePaddle env (g, w)) as [gB wB]; cbn [fst snd] in *.
  destruct Hss as (S1 & S2 & S3 & S4 & S5 & S6 & S7).
  destruct Hf as [(Hm & [(-> & ->)|(-> & ->)])|[(Hm & Hgt & He)|(Hm & H1 & He)]].
  - apply Hdone. split; [exact S5|]. split; [exact Hpp|].
    intros (_ & X); rewrite S1, Hs in X; discriminate.
  - destruct (paddleRebound_frame gB) as (F1 & F2 & F3 & F4 & F5 & F6).
    apply Hdone. split; [congruence|]. split; [exact Hpp|].
    intros (_ & X); rewrite F1, S1, Hs in X; discriminate.
  - pose proof (resetBall_frame env (set_score (score g - 1) gB) (sfxLosePoint wB))
      as F; cbv zeta in F. rewrite <- He in F; cbn [fst] in F.
    destruct F as (F1 & F2 & F3 & F4 & F5 & F6).
    cbn [gameState bestTimeSec set_score] in F1, F5.
    assert (Hw : puts (trace w') = puts (trace w)).
    { pose proof (resetBall_trace env (set_score (score g - 1) gB) (sfxLosePoint wB))
        as T. rewrite <- He in T; cbn [snd] in T.
      rewrite T, puts_sfxLosePoint. exact Hpp. }
    apply Hdone. split; [congruence|]. split; [exact Hw|].
    intros (_ & X); rewrite F1, S1, Hs in X; discriminate.
  - set (final := finalAt g (sfxLosePoint wB)) in *.
    destruct (bestTimeSec g <? final) eqn:Eb.
    + apply Z.ltb_lt in Eb. destruct He as (-> & Hp).
      apply puts_sfxParty in Hp.
      replace (puts (trace (putBest final (sfxLosePoint wB))))
        with (final :: puts (trace wB)) in Hp by reflexivity.
      rewrite Hpp in Hp. rewrite Hp.
      cbn [gameState bestTimeSec finalElapsedSec set_gameState set_bestTimeSec
           set_finalTimeCaptured set_finalElapsedSec].
      apply Z.ltb_lt in Eb; rewrite Eb; apply Z.ltb_lt in Eb.
      clear - Eb. repeat split; try lia; auto.
    + apply Z.ltb_ge in Eb. destruct He as (-> & ->).
      rewrite puts_sfxLosePoint, Hpp.
      cbn [gameState bestTimeSec finalElapsedSec set_gameState set_bestTimeSec
           set_finalTimeCaptured set_finalElapsedSec set_score].
      rewrite S5. apply Z.ltb_ge in Eb; rewrite Eb; apply Z.ltb_ge in Eb.
      clear - Eb. repeat split; try lia; auto.
Qed.

Lemma best_time_only_grows_witness :
  reachable session lastFrame
  /\ bestTimeSec (fst lastFrame) = 0
  /\ bestTimeSec (fst gameOverEntry) = 7
  /\ puts (trace (snd gameOverEntry)) = [7].
Proof.
  split; [exact lastFrame_reachable|]. split; [reflexivity|]. split; [reflexivity|].
  destruct (best_time_only_grows session 30 (fst lastFrame) (snd lastFrame)
              lastFrame_reachable) as (H & _).
  destruct (H (fst gameOverEntry) (snd gameOverEntry) lastFrame_loop)
    as (_ & H2 & _).
  destruct (H2 ltac:(apply Z.ltb_lt; reflexivity)) as (_ & _ & _ & H3).
  exact H3.
Defined.

(** ** The final time *)




(** In the recorded session the chronometer of the HUD stands at 6 s when the
    final time is captured as 7 s: the final time is taken from the clock after
    the lose-point sound, not from [elapsedSec]. *)
Remark final_time_ahead_of_hud :
  elapsedSec (fst gameOverEntry) = 6 /\ finalElapsedSec (fst gameOverEntry) = 7.
Proof. split; reflexivity. Qed.

(** ** The speed modulator *)

Lemma u16_u32 z : u16 (u32 z) = u16 z.
Proof.
  unfold u16, u32. apply Z.mod_mod_divide. exists 65536; reflexivity.
Qed.

Lemma u16_succ z : u16 (u32 (u16 z + 1)) = u16 (z + 1).
Proof. rewrite u16_u32. unfold u16. apply Zplus_mod_idemp_l. Qed.

Lemma u16_diff a b : 0 <= a - b < 65536 -> u16 (u32 (u16 a - u16 b)) = a - b.
Proof.
  intros H. rewrite u16_u32. unfold u16.
  rewrite <- Zminus_mod. apply Z.mod_small; exact H.
Qed.

Lemma secondPasses_phase q r g :
  0 <= q -> 0 <= r < 25 -> phaseAt q r g ->
  if r =? 24 then phaseAt (q + 1) 0 (secondPasses g)
  else phaseAt q (r + 1) (secondPasses g).
Proof.
  intros Hq Hr (P1 & P2 & P3 & P4).
  unfold secondPasses, updateSpeedMode.
  cbn [elapsedSec modeStartSec fastMode set_elapsedSec].
  rewrite P1, P3, P4, u16_succ.
  destruct (20 <=? r) eqn:E20; [apply Z.leb_le in E20|apply Z.leb_gt in E20].
  - rewrite u16_diff by lia.
    replace (25 * q + r + 1 - (25 * q + 20)) with (r - 19) by lia.
    unfold FAST_SEC.
    destruct (r =? 24) eqn:E24; [apply Z.eqb_eq in E24|apply Z.eqb_neq in E24].
    + replace (5 <=? r - 19) with true by (symmetry; apply Z.leb_le; lia).
      unfold phaseAt, setSpeedMode;
        cbn [fastMode speedMultiplier modeStartSec elapsedSec set_fastMode
             set_speedMultiplier set_modeStartSec set_elapsedSec].
      change (20 <=? 0) with false.
      repeat split; f_equal; lia.
    + replace (5 <=? r - 19) with false by (symmetry; apply Z.leb_gt; lia).
      unfold phaseAt; cbn [fastMode speedMultiplier modeStartSec elapsedSec
                           set_elapsedSec].
      replace (20 <=? r + 1) with true by (symmetry; apply Z.leb_le; lia).
      rewrite P1, P2, P3. replace (20 <=? r) with true by (symmetry; apply Z.leb_le; lia).
      repeat split; f_equal; lia.
  - rewrite u16_diff by lia.
    replace (25 * q + r + 1 - (25 * q + 0)) with (r + 1) by lia.
    unfold SLOW_SEC.
    replace (r =? 24) with false by (symmetry; apply Z.eqb_neq; lia).
    destruct (20 <=? r + 1) eqn:E; [apply Z.leb_le in E|apply Z.leb_gt in E].
    + unfold phaseAt, setSpeedMode;
        cbn [fastMode speedMultiplier modeStartSec elapsedSec set_fastMode
             set_speedMultiplier set_modeStartSec set_elapsedSec].
      replace (20 <=? r + 1) with true by (symmetry; apply Z.leb_le; lia).
      repeat split; f_equal; lia.
    + unfold phaseAt; cbn [fastMode speedMultiplier modeStartSec elapsedSec
                           set_elapsedSec].
      replace (20 <=? r + 1) with false by (symmetry; apply Z.leb_gt; lia).
      rewrite P1, P2, P3. replace (20 <=? r) with false by (symmetry; apply Z.leb_gt; lia).
      repeat split; f_equal; lia.
Qed.

(** An update without a new second changes nothing: the modulator may be run
    at every frame. *)
Lemma updateSpeedMode_idle q r g :
  0 <= q -> 0 <= r < 25 -> phaseAt q r g -> updateSpeedMode g = g.
Proof.
  intros Hq Hr (P1 & P2 & P3 & P4). unfold updateSpeedMode.
  rewrite P1, P3, P4.
  destruct (20 <=? r) eqn:E20; [apply Z.leb_le in E20|apply Z.leb_gt in E20];
    rewrite u16_diff by lia.
  - replace (FAST_SEC <=? 25 * q + r - (25 * q + 20)) with false;
      [reflexivity|symmetry; apply Z.leb_gt; unfold FAST_SEC; lia].
  - replace (SLOW_SEC <=? 25 * q + r - (25 * q + 0)) with false;
      [reflexivity|symmetry; apply Z.leb_gt; unfold SLOW_SEC; lia].
Qed.

Lemma afterSeconds_phase g :
  fastMode g = false -> speedMultiplier g = F32.of_int 1 ->
  modeStartSec g = 0 -> elapsedSec g = 0 ->
  forall n, phaseAt (Z.of_nat n / 25) (Z.of_nat n mod 25) (afterSeconds n g).
Proof.
  intros H1 H2 H3 H4 n; induction n as [|n IH].
  - cbn [afterSeconds]. unfold phaseAt. change (Z.of_nat 0 / 25) with 0.
    change (Z.of_nat 0 mod 25) with 0. cbn. auto.
  - cbn [afterSeconds].
    pose proof (Z.mod_pos_bound (Z.of_nat n) 25 ltac:(lia)) as Hr.
    pose proof (Z.div_pos (Z.of_nat n) 25 ltac:(lia) ltac:(lia)) as Hq.
    pose proof (secondPasses_phase _ _ _ Hq Hr IH) as Hs.
    pose proof (Z.div_mod (Z.of_nat n) 25 ltac:(lia)) as Hn.
    replace (Z.of_nat (S n)) with (Z.of_nat n + 1) by lia.
    destruct (Z.of_nat n mod 25 =? 24) eqn:E;
      [apply Z.eqb_eq in E|apply Z.eqb_neq in E].
    + assert (Hd : (Z.of_nat n + 1) / 25 = Z.of_nat n / 25 + 1
                   /\ (Z.of_nat n + 1) mod 25 = 0).
      { assert ((Z.of_nat n + 1) = (Z.of_nat n / 25 + 1) * 25 + 0) as X by lia.
        split; [symmetry; apply (Z.div_unique _ 25 _ 0); lia
               |symmetry; apply (Z.mod_unique _ 25 (Z.of_nat n / 25 + 1)); lia]. }
      destruct Hd as (-> & ->). exact Hs.
    + assert (Hd : (Z.of_nat n + 1) / 25 = Z.of_nat n / 25
                   /\ (Z.of_nat n + 1) mod 25 = Z.of_nat n mod 25 + 1).
      { split; [symmetry; apply (Z.div_unique _ 25 _ (Z.of_nat n mod 25 + 1)); lia
               |symmetry; apply (Z.mod_unique _ 25 (Z.of_nat n / 25)); lia]. }
      destruct Hd as (-> & ->). exact Hs.
Qed.

Lemma updateSpeedMode_marker g :
  fastMode (updateSpeedMode g) <> fastMode g ->
  modeStartSec (updateSpeedMode g) = elapsedSec (updateSpeedMode g).
Proof.
  unfold updateSpeedMode, setSpeedMode.
  destruct (fastMode g) eqn:Ef; split_ifs; cbn; congruence.
Qed.

(** C4. From a state in NORMAL mode with the chronometer and the phase-start
    marker at 0, after [n] updates that each add one second the modulator is in
    FAST mode (multiplier 2) exactly when [20 <= n mod 25] and in NORMAL mode
    (multiplier 1) otherwise: FAST is first reported at 20 s, NORMAL again at
    25 s, and the pattern has period 25.  The marker holds the chronometer value
    of the last change of mode, and every update that changes the mode sets it
    to the current chronometer value. *)
Theorem speed_mode_alternates g n :
  fastMode g = false -> speedMultiplier g = F32.of_int 1 ->
  modeStartSec g = 0 -> elapsedSec g = 0 ->
  let k := Z.of_nat n in
  fastMode (afterSeconds n g) = (20 <=? k mod 25)
  /\ speedMultiplier (afterSeconds n g)
     = (if 20 <=? k mod 25 then F32.of_int 2 else F32.of_int 1)
  /\ elapsedSec (afterSeconds n g) = u16 k
  /\ modeStartSec (afterSeconds n g)
     = u16 (k - k mod 25 + (if 20 <=? k mod 25 then 20 else 0))
  /\ (fastMode (afterSeconds 19 g) = false /\ fastMode (afterSeconds 20 g) = true
      /\ fastMode (afterSeconds 24 g) = true /\ fastMode (afterSeconds 25 g) = false)
  /\ fastMode (afterSeconds (n + 25) g) = fastMode (afterSeconds n g)
  /\ (fastMode (afterSeconds (S n) g) <> fastMode (afterSeconds n g) ->
      modeStartSec (afterSeconds (S n) g) = elapsedSec (afterSeconds (S n) g)).
Proof.
  intros H1 H2 H3 H4 k.
  pose proof (afterSeconds_phase g H1 H2 H3 H4) as Hp.
  destruct (Hp n) as (A1 & A2 & A3 & A4). fold k in A1, A2, A3, A4.
  pose proof (Z.div_mod k 25 ltac:(lia)) as Hk.
  split; [exact A1|]. split; [exact A2|].
  split; [rewrite A4; f_equal; lia|].
  split; [rewrite A3; f_equal; lia|].
  split.
  { destruct (Hp 19%nat) as (B1 & _), (Hp 20%nat) as (B2 & _),
      (Hp 24%nat) as (B3 & _), (Hp 25%nat) as (B4 & _).
    repeat split; assumption. }
  split.
  { destruct (Hp (n + 25)%nat) as (C1 & _). rewrite C1, A1.
    replace (Z.of_nat (n + 25)) with (k + 1 * 25) by lia.
    rewrite Z.mod_add by lia. reflexivity. }
  cbn [afterSeconds]. unfold secondPasses. intros Hc.
  apply updateSpeedMode_marker. exact Hc.
Qed.

Lemma speed_mode_alternates_witness :
  fastMode (afterSeconds 20 powerOn) = true
  /\ modeStartSec (afterSeconds 20 powerOn) = 20
  /\ fastMode (afterSeconds 25 powerOn) = false
  /\ modeStartSec (afterSeconds 25 powerOn) = 25.
Proof.
  destruct (speed_mode_alternates powerOn 20 eq_refl eq_refl eq_refl eq_refl)
    as (A1 & _ & _ & A4 & _).
  destruct (speed_mode_alternates powerOn 25 eq_refl eq_refl eq_refl eq_refl)
    as (B1 & _ & _ & B4 & _).
  split; [exact A1|]. split; [exact A4|]. split; [exact B1|exact B4].
Defined.

(** ** The restart hold *)

(** With one of the buttons up, [bothButtonsHeld] answers no and clears its
    timer. *)
Lemma bothButtonsHeld_one_up ms env g w :
  leftLow env w && rightLow env w = false ->
  bothButtonsHeld ms env (g, w) = (false, set_t0 0 g).
Proof. intros H; unfold bothButtonsHeld; rewrite H; reflexivity. Qed.

(** With both buttons down and the timer clear, it starts the timer and, the
    clock's reading not being 0, answers no. *)
Lemma bothButtonsHeld_starts env g w :
  leftLow env w && rightLow env w = true -> t0 g = 0 ->
  bothButtonsHeld 800 env (g, w) = (false, set_t0 (millis w) g).
Proof.
  intros H Ht; unfold bothButtonsHeld; rewrite H, Ht.
  cbn [Z.eqb t0 set_t0]. rewrite Z.sub_diag. reflexivity.
Qed.

(** A GAMEOVER frame: with a button up the timer is cleared and the state stays;
    with both down the timer starts if it was clear, and the state goes to START
    exactly when the clock's reading is 800 ms or more past the timer. *)
Lemma gameover_frame fuel env g w g' w' :
  gameState g = STATE_GAMEOVER -> frameDue (g, w) = true ->
  loop fuel env (g, w) = Some (g', w') ->
  if leftLow env w && rightLow env w then
    t0 g' = (if t0 g =? 0 then millis w else t0 g)
    /\ gameState g' = (if 800 <=? u32 (millis w - t0 g')
                       then STATE_START else STATE_GAMEOVER)
  else t0 g' = 0 /\ gameState g' = STATE_GAMEOVER.
Proof.
  intros Hs Hd Hl. rewrite (loop_open fuel env g w Hd), Hs in Hl.
  unfold caseGameOver, bothButtonsHeld in Hl.
  destruct (leftLow env w && rightLow env w).
  - destruct (t0 g =? 0) eqn:Et; cbn [t0 set_t0 set_lastFrameMs] in Hl;
      rewrite ?Et in Hl; cbn [t0 set_t0 set_lastFrameMs] in Hl;
      match type of Hl with context [if ?c then _ else _] => destruct c eqn:Ec end;
      inversion Hl; subst g' w'; cbn [t0 gameState set_t0 set_lastFrameMs
        set_gameState set_blinkOn set_lastBlinkMs]; rewrite ?Ec; auto.
  - inversion Hl; subst g' w'. cbn. auto.
Qed.

(** While the sketch stays in GAMEOVER the timer is clear or holds the reading of
    the clock at a frame that read both buttons down, every frame since having
    read both down as well. *)
Lemma gameOverCalls_timer env st0 polls st :
  gameOverCalls env st0 polls st ->
  gameState (fst st0) = STATE_GAMEOVER -> t0 (fst st0) = 0 ->
  gameState (fst st) = STATE_GAMEOVER
  /\ clock (snd st0) <= clock (snd st)
  /\ (t0 (fst st) = 0
      \/ exists newer older c,
           polls = newer ++ (c, true) :: older
           /\ Forall (fun p => snd p = true) newer
           /\ t0 (fst st) = u32 c
           /\ clock (snd st0) <= c <= clock (snd st)).
Proof.
  intros H Hs0 Ht0.
  induction H as [|fuel polls g w [g' w'] _ IH Hd Hl
                  |fuel polls g w [g' w'] _ IH Hd Hl Hs'
                  |polls g w ms _ IH Hms]; cbn [fst snd] in *.
  - split; [exact Hs0|]. split; [lia|]. left; exact Ht0.
  - destruct IH as (Hs & Hc & Ht).
    rewrite (loop_gated fuel env g w Hd) in Hl; inversion Hl; subst g' w'.
    split; [exact Hs|]. cbn [clock delay]. split; [lia|].
    destruct Ht as [Ht|(newer & older & c & E & F & T & C)]; [left; exact Ht|].
    right. exists newer, older, c. repeat split; auto; lia.
  - destruct IH as (Hs & Hc & Ht).
    pose proof (gameover_frame fuel env g w g' w' Hs Hd Hl) as Hf.
    assert (Hw : w' = w).
    { rewrite (loop_open fuel env g w Hd), Hs in Hl.
      unfold caseGameOver in Hl.
      destruct (bothButtonsHeld 800 env (set_lastFrameMs (millis w) g, w))
        as [[|] g1]; inversion Hl; subst g' w'; [|reflexivity].
      cbn [gameState set_lastBlinkMs set_blinkOn set_gameState] in Hs'.
      discriminate Hs'. }
    subst w'. split; [exact Hs'|]. split; [exact Hc|].
    destruct (leftLow env w && rightLow env w).
    + destruct Hf as (Hf & _). right.
      destruct (t0 g =? 0) eqn:E0.
      * exists [], polls, (clock w). repeat split; auto; lia.
      * apply Z.eqb_neq in E0.
        destruct Ht as [Ht|(newer & older & c & E & F & T & C)]; [contradiction|].
        exists ((clock w, true) :: newer), older, c.
        rewrite E. repeat split; auto; lia.
    + destruct Hf as (Hf & _). left; exact Hf.
  - destruct IH as (Hs & Hc & Ht).
    split; [exact Hs|]. cbn [clock delay]. split; [lia|].
    destruct Ht as [Ht|(newer & older & c & E & F & T & C)]; [left; exact Ht|].
    right. exists newer, older, c. repeat split; auto; lia.
Qed.

(** Hence, from a GAMEOVER state whose timer is clear, the sketch goes back to
    START only in a frame that reads both buttons down, 800 ms or more after a
    frame that read both down, with every frame in between reading both down.
    (The clock is taken not to wrap during those calls.) *)
Lemma restart_after_clear_timer env fuel st0 polls g w st' :
  gameState (fst st0) = STATE_GAMEOVER -> t0 (fst st0) = 0 ->
  gameOverCalls env st0 polls (g, w) ->
  loop fuel env (g, w) = Some st' -> gameState (fst st') = STATE_START ->
  clock w - clock (snd st0) < 4294967296 ->
  leftLow env w && rightLow env w = true
  /\ exists newer older c,
       polls = newer ++ (c, true) :: older
       /\ Forall (fun p => snd p = true) newer
       /\ c + 800 <= clock w.
Proof.
  intros Hs0 Ht0 Hc Hl Hs' Hb.
  destruct (gameOverCalls_timer env st0 polls (g, w) Hc Hs0 Ht0) as (Hs & Hck & Ht).
  cbn [fst snd] in *. destruct st' as [g' w']; cbn [fst] in Hs'.
  destruct (frameDue (g, w)) eqn:Hd.
  2:{ rewrite (loop_gated fuel env g w Hd) in Hl; inversion Hl; congruence. }
  pose proof (gameover_frame fuel env g w g' w' Hs Hd Hl) as Hf.
  destruct (leftLow env w && rightLow env w); [|destruct Hf; congruence].
  split; [reflexivity|]. destruct Hf as (Hf1 & Hf2).
  destruct (800 <=? u32 (millis w - t0 g')) eqn:E8; [|congruence].
  apply Z.leb_le in E8.
  destruct (t0 g =? 0) eqn:E0.
  { rewrite Hf1, Z.sub_diag in E8. vm_compute in E8. contradiction. }
  apply Z.eqb_neq in E0.
  destruct Ht as [Ht|(newer & older & c & E & F & T & C)]; [contradiction|].
  exists newer, older, c. split; [exact E|]. split; [exact F|].
  rewrite Hf1, T in E8. unfold millis, u32 in E8.
  rewrite <- Zminus_mod, Z.mod_small in E8 by lia. lia.
Qed.

(** C5 (the sketch departs from it). [bothButtonsHeld] clears its timer [t0] only
    when it is called with a button up, and it is called in GAMEOVER only.  In
    the recorded session the first run is restarted by an 800 ms hold that
    leaves [t0 = 11006]; the second run ends while the right button has been
    down for 2 ms, and the first GAMEOVER frame of that run, at 20302 ms, goes
    back to START at once. *)
Theorem stale_hold_timer_restarts_at_once :
  reachable session secondGameOver
  /\ gameState (fst (sessionAfter 10256)) = STATE_PLAYING
  /\ gameState (fst secondGameOver) = STATE_GAMEOVER
  /\ clock (snd secondGameOver) = 20302
  /\ t0 (fst secondGameOver) = 11006
  /\ btnRight session 20299 = false
  /\ exists st',
       loop 30 session secondGameOver = Some st'
       /\ gameState (fst st') = STATE_START.
Proof.
  split.
  { apply (run_reachable 30 session (Z.to_nat 10257) (setup coldStart));
      [apply reach_setup|vm_compute; reflexivity]. }
  split; [vm_compute; reflexivity|].
  split; [reflexivity|]. split; [reflexivity|]. split; [reflexivity|].
  split; [reflexivity|].
  destruct (loop 30 session secondGameOver) as [st'|] eqn:E;
    [|vm_compute in E; discriminate E].
  exists st'. split; [reflexivity|].
  vm_compute in E. inversion E. reflexivity.
Qed.

(** ** Walls and ceiling *)

Lemma cues_beep c f m gp w : cues c (trace (beep f m gp w)) = cues c (trace w).
Proof. unfold beep; destruct (gp =? 0); reflexivity. Qed.

Lemma cues_partyLoop c fuel : forall endMs i w w',
  partyLoop fuel endMs i w = Some w' -> cues c (trace w') = cues c (trace w).
Proof.
  induction fuel as [|fuel IH]; intros endMs i w w'; cbn [partyLoop]; [discriminate|].
  destruct (millis w <? endMs).
  - intros H; apply IH in H; rewrite H; apply cues_beep.
  - intros H; inversion H; reflexivity.
Qed.







(** ** The paddle *)

Lemma round_negative_not_positive mx ex lx :
  F32.gt (binary_round_aux F32.prec F32.emax true mx ex lx) F32.zero = false.
Proof.
  unfold binary_round_aux.
  destruct (shr_fexp F32.prec F32.emax mx ex lx) as [mrs' e'].
  destruct (shr_fexp F32.prec F32.emax _ e' loc_Exact) as [mrs'' e''].
  destruct (shr_m mrs'') as [|p|p]; try reflexivity.
  destruct (e'' <=? F32.emax - F32.prec); reflexivity.
Qed.

Lemma acc_finite : acc = S754_finite false 8724152 (-23).
Proof. vm_compute; reflexivity. Qed.

(** A velocity turned upward stays upward when scaled by [acc]. *)
Lemma mul_acc_upward v :
  F32.gt (F32.mul (F32.neg (F32.abs v)) acc) F32.zero = false.
Proof.
  rewrite acc_finite. destruct v as [s|s| |s m e]; try reflexivity.
  unfold F32.mul, F32.neg, F32.abs; cbn [SFabs SFopp SFmul negb xorb].
  apply round_negative_not_positive.
Qed.

Lemma clampVX_bounds v :
  F32.is_nan v = false ->
  F32.le (F32.neg maxVX) (clampVX v) = true /\ F32.le (clampVX v) maxVX = true.
Proof.
  intros Hn; unfold clampVX.
  destruct (F32.gt v maxVX) eqn:E1; [split; vm_compute; reflexivity|].
  destruct (F32.lt v (F32.neg maxVX)) eqn:E2; [split; vm_compute; reflexivity|].
  split.
  - apply F32Facts.not_lt_le; [exact Hn|reflexivity|exact E2].
  - apply F32Facts.not_lt_le; [reflexivity|exact Hn|exact E1].
Qed.

Lemma paddleRebound_spec g :
  ballY (paddleRebound g) = F32.of_int (paddleY - ballR)
  /\ ballVY (paddleRebound g) = F32.mul (F32.neg (F32.abs (ballVY g))) acc
  /\ ballVX (paddleRebound g)
     = F32.mul (clampVX (F32.add (ballVX g) (F32.mul (paddleOffset g) gain))) acc.
Proof.
  unfold paddleRebound, clampVX, paddleOffset.
  cbn [ballX ballY ballVX ballVY paddleX set_ballY set_ballVY set_ballVX].
  fold gain maxVX acc.
  set (v := F32.add (ballVX g) _).
  destruct (F32.gt v maxVX) eqn:E1;
    cbn [ballX ballY ballVX ballVY paddleX set_ballY set_ballVY set_ballVX].
  - replace (F32.lt maxVX (F32.neg maxVX)) with false by (vm_compute; reflexivity).
    cbn [ballX ballY ballVX ballVY paddleX set_ballY set_ballVY set_ballVX].
    repeat split; reflexivity.
  - destruct (F32.lt v (F32.neg maxVX));
      cbn [ballX ballY ballVX ballVY paddleX set_ballY set_ballVY set_ballVX];
      repeat split; reflexivity.
Qed.

(** C7. When, after the move and the bounces, the ball is moving down, has its
    bottom edge on or below the paddle line and its centre over the paddle,
    [updateBall] returns with: the ball put on the paddle; the vertical velocity
    turned upward and scaled, [-|ballVY| * acc]; the horizontal velocity first
    adjusted by [offset * gain], where [offset] is the distance from the paddle
    centre in half paddle widths, then limited to [-maxVX .. maxVX], then
    scaled by [acc]; [acc] above 1 and applied at every hit without any limit on
    the product; the paddle-hit cue played once; score and state unchanged. *)
Theorem paddle_hit_response fuel env g0 w0 :
  let g := fst (bounceCeiling (bounceSides (moveBall g0, w0))) in
  let w := snd (bounceCeiling (bounceSides (moveBall g0, w0))) in
  let adjusted := F32.add (ballVX g) (F32.mul (paddleOffset g) gain) in
  reachesPaddleLine g = true -> overPaddle g = true ->
  exists g' w',
    updateBall fuel env (g0, w0) = Some (g', w')
    /\ ballY g' = F32.of_int (paddleY - ballR)
    /\ ballVY g' = F32.mul (F32.neg (F32.abs (ballVY g))) acc
    /\ F32.gt (ballVY g') F32.zero = false
    /\ ballVX g' = F32.mul (clampVX adjusted) acc
    /\ (F32.is_nan adjusted = false ->
        F32.le (F32.neg maxVX) (clampVX adjusted) = true
        /\ F32.le (clampVX adjusted) maxVX = true)
    /\ F32.lt (F32.of_int 1) acc = true
    /\ cues PaddleHit (trace w') = S (cues PaddleHit (trace w))
    /\ score g' = score g /\ gameState g' = gameState g.
Proof.
  cbv zeta. unfold updateBall.
  destruct (bounceCeiling (bounceSides (moveBall g0, w0))) as [g w].
  cbn [fst snd]. intros Hr Ho.
  exists (paddleRebound g), (sfxPaddleHit w).
  split; [unfold paddleOrMiss; rewrite Hr, Ho; reflexivity|].
  destruct (paddleRebound_spec g) as (Y & VY & VX).
  destruct (paddleRebound_frame g) as (F1 & F2 & _).
  split; [exact Y|]. split; [exact VY|].
  split; [rewrite VY; apply mul_acc_upward|].
  split; [exact VX|]. split; [apply clampVX_bounds|].
  split; [vm_compute; reflexivity|].
  split; [reflexivity|]. split; [exact F2|exact F1].
Qed.

Lemma paddle_hit_response_witness :
  exists g' w',
    updateBall 30 session (abovePaddle, coldStart) = Some (g', w')
    /\ ballVY g' = F32.mul (F32.neg (F32.literal 17 10)) acc
    /\ cues PaddleHit (trace w') = 1%nat.
Proof.
  destruct (paddle_hit_response 30 session abovePaddle coldStart)
    as (g' & w' & H1 & _ & H3 & _ & _ & _ & _ & H8 & _).
  - vm_compute; reflexivity.
  - vm_compute; reflexivity.
  - exists g', w'. split; [exact H1|]. split; [exact H3|exact H8].
Defined.

(** ** The ball *)

Lemma resetBall_seeded env g w :
  seeded (fst (resetBall env (g, w)))
  /\ ballVX (fst (resetBall env (g, w)))
     = (if coin env (draws w) then baseSpeed else F32.neg baseSpeed)
  /\ draws (snd (resetBall env (g, w))) = S (draws w).
Proof.
  unfold seeded, resetBall, random02, baseSpeed.
  cbn [fst snd ballX ballY ballVX ballVY set_ballX set_ballY set_ballVX set_ballVY
       draws].
  destruct (coin env (draws w)); cbn [Z.eqb]; repeat split; auto.
Qed.

Lemma resetGame_seeded env g w : seeded (fst (resetGame env (g, w))).
Proof.
  pose proof (resetBall_seeded env
                (set_paddleX
                   (F32.div (F32.of_int (SCREEN_WIDTH - paddleWidth)) (F32.of_int 2))
                   (set_score 10 g)) w) as (H & _).
  unfold resetGame.
  destruct (resetBall env _) as [gb wb]; cbn [fst] in H.
  unfold seeded in *. unfold resetGameRuntime, setSpeedMode; cbn [fst].
  exact H.
Qed.




(** ** The paddle on the field *)

(** C9. In every state the sketch can be in, the paddle lies within
    [0 .. SCREEN_WIDTH - paddleWidth]; from such a state [handleButtonsPaddle]
    leaves it there whatever the two buttons read, both pressed included; so it is
    there after the input handling of every PLAYING frame, and after every call of
    [loop()]. *)
Theorem paddle_stays_on_field env fuel g w :
  reachable env (g, w) ->
  inField (paddleX g)
  /\ (forall env' w', inField (paddleX (handleButtonsPaddle env' (g, w'))))
  /\ (let now := millis w in
      let g2 := updateSpeedMode (tickChronometer now (set_lastFrameMs now g)) in
      inField (paddleX (handleButtonsPaddle env (g2, w))))
  /\ (forall g' w', loop fuel env (g, w) = Some (g', w') -> inField (paddleX g')).
Proof.
  intros Hr.
  pose proof (reachable_Inv env (g, w) Hr) as HI; cbn [fst] in HI.
  pose proof HI as (_ & _ & I3 & _).
  pose proof (F32Facts.le_not_nan_r _ _ (proj1 I3)) as Hn.
  split; [exact I3|].
  split; [intros env' w'; apply handleButtonsPaddle_inField, Hn|].
  split.
  - cbv zeta. apply handleButtonsPaddle_inField.
    replace (paddleX (updateSpeedMode _)) with (paddleX g); [exact Hn|].
    unfold updateSpeedMode, setSpeedMode, tickChronometer; frame_solve.
  - intros g' w' Hl.
    pose proof (loop_Inv fuel env g w g' w' HI Hl) as (_ & _ & I3' & _). exact I3'.
Qed.

Lemma paddle_stays_on_field_witness :
  reachable session lastFrame
  /\ inField (paddleX (fst lastFrame))
  /\ inField (paddleX (handleButtonsPaddle session lastFrame)).
Proof.
  split; [exact lastFrame_reachable|].
  destruct (paddle_stays_on_field session 30 (fst lastFrame) (snd lastFrame)
              lastFrame_reachable) as (H1 & H2 & _).
  split; [exact H1|]. exact (H2 session (snd lastFrame)).
Defined.

(** ** The time formatter *)

Lemma upFrom_In len : forall a z,
  a <= z < a + Z.of_nat len -> In z (upFrom a len).
Proof.
  induction len as [|len IH]; intros a z H; [lia|].
  cbn [upFrom]. destruct (Z.eq_dec a z) as [->|Hne]; [left; reflexivity|].
  right. apply IH. lia.
Qed.

Lemma textOK_all : forallb textOK (upFrom 0 (Z.to_nat 65536)) = true.
Proof. vm_compute. reflexivity. Qed.

Lemma textOK_range secs : 0 <= secs < 65536 -> textOK secs = true.
Proof.
  intros H. pose proof textOK_all as Ha. rewrite forallb_forall in Ha.
  apply Ha, upFrom_In. lia.
Qed.

Lemma cstring_terminated s rest :
  forallb (fun c => negb (Ascii.eqb c NUL)) s = true ->
  cstring (s ++ NUL :: rest) = s.
Proof.
  induction s as [|c s IH]; cbn [app cstring forallb]; [reflexivity|].
  intros H; apply andb_true_iff in H; destruct H as (Hc & Hs).
  apply negb_true_iff in Hc; rewrite Hc, (IH Hs). reflexivity.
Qed.

Lemma forallb_firstn {A} (p : A -> bool) k : forall l,
  forallb p l = true -> forallb p (firstn k l) = true.
Proof.
  induction k as [|k IH]; intros [|a l]; cbn; auto.
  intros H; apply andb_true_iff in H; destruct H as (Ha & Hl).
  rewrite Ha, (IH l Hl). reflexivity.
Qed.

Lemma firstn_min {A} (l : list A) m :
  firstn (Nat.min (List.length l) m) l = firstn m l.
Proof.
  destruct (Nat.le_ge_cases m (List.length l)) as [H|H].
  - rewrite Nat.min_r by exact H. reflexivity.
  - rewrite Nat.min_l by exact H. rewrite firstn_all, firstn_all2 by exact H.
    reflexivity.
Qed.

(** C10 as stated fails for [n = 6]: with 6000 seconds the text ["100:00"] is
    written into a six-character buffer without its last character. *)
Lemma hundred_minutes_cut :
  (6 <= 6)%nat
  /\ render (6000 / 60) (6000 mod 60) = list_ascii_of_string "100:00"
  /\ cstring (formatTimeMMSS 6000 (blank 6) 6) = list_ascii_of_string "100:0"
  /\ cstring (formatTimeMMSS 6000 (blank 6) 6) <> render (6000 / 60) (6000 mod 60).
Proof.
  split; [lia|]. split; [vm_compute; reflexivity|]. split; [vm_compute; reflexivity|].
  vm_compute. discriminate.
Qed.

(** C10 (amended). For seconds in the 16-bit range and a buffer of at least [n]
    characters: with [n >= 6] the buffer holds the text of
    ["%02u:%02u"] for [(secs / 60, secs % 60)] cut to its first [n - 1]
    characters, which is the whole text when [secs < 6000] or [n >= 8]; with
    [0 < n < 6] it holds the empty string and is otherwise untouched; with
    [n = 0] it is untouched; the buffer keeps its length; 125 gives ["02:05"] and
    0 gives ["00:00"]. *)
Theorem time_formatter secs out n :
  0 <= secs < 65536 -> (n <= List.length out)%nat ->
  let text := render (secs / 60) (secs mod 60) in
  let out' := formatTimeMMSS secs out n in
  (if (6 <=? n)%nat then
     cstring out' = firstn (n - 1) text
     /\ (secs < 6000 \/ (8 <= n)%nat -> cstring out' = text)
   else if (0 <? n)%nat then
     cstring out' = [] /\ skipn 1 out' = skipn 1 out
   else out' = out)
  /\ List.length out' = List.length out
  /\ cstring (formatTimeMMSS 125 (blank 8) 8) = list_ascii_of_string "02:05"
  /\ cstring (formatTimeMMSS 0 (blank 8) 8) = list_ascii_of_string "00:00".
Proof.
  intros Hs Hn; cbv zeta.
  pose proof (textOK_range secs Hs) as Hok. unfold textOK, timeText in Hok.
  assert (Hmm : u16 (secs / 60) = secs / 60).
  { unfold u16; apply Z.mod_small. split; [apply Z.div_pos; lia|].
    apply Z.div_lt_upper_bound; lia. }
  assert (Hss : u16 (secs mod 60) = secs mod 60).
  { unfold u16; apply Z.mod_small.
    pose proof (Z.mod_pos_bound secs 60 ltac:(lia)). lia. }
  rewrite Hmm, Hss in Hok.
  apply andb_true_iff in Hok; destruct Hok as (Hok & H5).
  apply andb_true_iff in Hok; destruct Hok as (Hnul & H7).
  apply Nat.leb_le in H7.
  unfold formatTimeMMSS; rewrite Hmm, Hss.
  set (text := render (secs / 60) (secs mod 60)) in *.
  split; [|split; [|split; vm_compute; reflexivity]].
  - destruct (6 <=? n)%nat eqn:E6.
    + apply Nat.leb_le in E6. destruct n as [|m]; [lia|].
      cbn [snprintf]. rewrite firstn_min.
      replace (S m - 1)%nat with m by lia.
      assert (Hc : forall rest, cstring (firstn m text ++ NUL :: rest) = firstn m text).
      { intros rest. apply cstring_terminated, forallb_firstn, Hnul. }
      specialize (Hc (skipn (S (Nat.min (List.length text) m)) out)).
      split; [exact Hc|].
      intros Hfull. rewrite Hc. apply firstn_all2.
      destruct Hfull as [Hlt|H8]; [|lia].
      apply orb_true_iff in H5; destruct H5 as [H5|H5];
        [apply Z.leb_le in H5; lia|apply Nat.eqb_eq in H5; lia].
    + destruct (0 <? n)%nat eqn:E0; [|reflexivity].
      apply Nat.ltb_lt in E0.
      destruct out as [|c rest]; [cbn in Hn; lia|].
      cbn. split; reflexivity.
  - destruct (6 <=? n)%nat eqn:E6.
    + apply Nat.leb_le in E6. destruct n as [|m]; [lia|].
      cbn [snprintf].
      rewrite length_app, firstn_min. cbn [List.length].
      rewrite length_firstn, length_skipn. lia.
    + destruct (0 <? n)%nat; [|reflexivity].
      destruct out; reflexivity.
Qed.

Lemma time_formatter_witness :
  0 <= 6000 < 65536 /\ (8 <= List.length (blank 8))%nat
  /\ cstring (formatTimeMMSS 6000 (blank 8) 8) = render (6000 / 60) (6000 mod 60).
Proof.
  split; [lia|]. split; [apply Nat.leb_le; reflexivity|].
  destruct (time_formatter 6000 (blank 8) 8 ltac:(lia)
              ltac:(apply Nat.leb_le; reflexivity)) as (H & _).
  cbv zeta in H.
  change ((6 <=? 8)%nat) with true in H. cbv iota in H.
  destruct H as (_ & H). apply H. right. apply Nat.leb_le; reflexivity.
Defined.

(** * Further properties of the sketch *)

(** ** The state machine *)

Lemma blinkStep_run now g :
  gameState (blinkStep now g) = gameState g /\ sameRun g (blinkStep now g)
  /\ t0 (blinkStep now g) = t0 g
  /\ hasPlayedFirstStartBeep (blinkStep now g) = hasPlayedFirstStartBeep g
  /\ lastFrameMs (blinkStep now g) = lastFrameMs g.
Proof. unfold blinkStep, sameRun; split_ifs; cbn; repeat split; reflexivity. Qed.

Lemma caseStart_idle fuel env now g w :
  rightLow env w = false ->
  caseStart fuel env now (g, w) = Some (blinkStep now g, w).
Proof. intros Hr; unfold caseStart; rewrite Hr; reflexivity. Qed.

(** The START case with the right button down: first-start beep, 60 ms, wait
    for the release, [resetGame], PLAYING. *)
Lemma caseStart_go fuel env now g w :
  rightLow env w = true ->
  caseStart fuel env now (g, w) =
  match waitRelease fuel env (delay 60 (snd (firstBeep (blinkStep now g, w)))) with
  | Some w3 =>
      Some (set_gameState STATE_PLAYING
              (fst (resetGame env (fst (firstBeep (blinkStep now g, w)), w3))),
            snd (resetGame env (fst (firstBeep (blinkStep now g, w)), w3)))
  | None => None
  end.
Proof.
  intros Hr; unfold caseStart; rewrite Hr. fold (blinkStep now g).
  unfold firstBeep.
  destruct (hasPlayedFirstStartBeep (blinkStep now g)); cbn [fst snd];
    match goal with |- context [waitRelease ?f ?e ?x] =>
      destruct (waitRelease f e x) as [w3|]; [|reflexivity] end;
    match goal with |- context [resetGame ?e ?x] =>
      destruct (resetGame e x) as [g3 w4]; reflexivity end.
Qed.

(** X1. [loop()] moves the state machine along START, PLAYING, GAMEOVER, START only:
    it starts a run exactly in a due frame that reads the right button down,
    ends it exactly in a due frame that misses the ball with one point left,
    and goes back to START exactly in a due frame in which [bothButtonsHeld]
    answers yes. *)
Theorem loop_follows_state_machine fuel env g w g' w' :
  loop fuel env (g, w) = Some (g', w') -> gameState g' = nextState env (g, w).
Proof.
  intros Hl. unfold nextState.
  destruct (frameDue (g, w)) eqn:Hd; cbn [andb].
  2:{ rewrite (loop_gated fuel env g w Hd) in Hl; inversion Hl; subst g' w'.
      destruct (gameState g); reflexivity. }
  destruct (gameState g) eqn:Hs.
  - rewrite (loop_open fuel env g w Hd), Hs in Hl.
    destruct (rightLow env w) eqn:Hr.
    + rewrite (caseStart_go fuel env _ _ w Hr) in Hl.
      destruct (waitRelease fuel env _) as [w3|]; [|discriminate].
      injection Hl as Eg _. subst g'. reflexivity.
    + rewrite (caseStart_idle fuel env _ _ w Hr) in Hl.
      injection Hl as Eg _. subst g'.
      destruct (blinkStep_run (millis w) (set_lastFrameMs (millis w) g)) as (B & _).
      rewrite B. exact Hs.
  - rewrite (loop_playing fuel env g w Hd Hs) in Hl.
    pose proof (beforePaddle_session env g w) as Hss.
    destruct (beforePaddle env (g, w)) as [gB wB]; cbn [fst] in *.
    destruct Hss as (S1 & S2 & _).
    apply paddleOrMiss_cases in Hl.
    destruct Hl as [(Hr & -> & ->)|[(Hr & Ho & -> & ->)|[(Hm & Hp & He)|(Hm & Hp & g2 & Hc & ->)]]].
    + unfold missed; rewrite Hr; cbn [andb]. congruence.
    + unfold missed; rewrite Hr, Ho; cbn [andb negb].
      destruct (paddleRebound_frame gB) as (F1 & _). congruence.
    + rewrite Hm; cbn [andb]. rewrite <- S2.
      replace (i32 (score gB - 1) <=? 0) with false by (symmetry; apply Z.leb_gt; lia).
      pose proof (resetBall_frame env (set_score (i32 (score gB - 1)) gB)
                    (sfxLosePoint wB)) as F; cbv zeta in F.
      rewrite <- He in F; cbn [fst] in F. destruct F as (F1 & _).
      cbn [gameState set_score] in F1. congruence.
    + rewrite Hm; cbn [andb]. rewrite <- S2.
      replace (i32 (score gB - 1) <=? 0) with true by (symmetry; apply Z.leb_le; lia).
      reflexivity.
  - rewrite (loop_open fuel env g w Hd), Hs in Hl. injection Hl as Hc.
    apply (f_equal fst) in Hc; cbn [fst] in Hc; subst g'.
    unfold caseGameOver, bothButtonsHeld.
    destruct (leftLow env w && rightLow env w); cbn [fst snd t0 set_lastFrameMs].
    + destruct (t0 g =? 0); cbn [t0 set_t0 set_lastFrameMs];
        match goal with |- context [if ?c then _ else _] => destruct c end;
        cbn [fst gameState set_t0 set_lastFrameMs set_gameState set_blinkOn
             set_lastBlinkMs]; congruence.
    + cbn [fst gameState set_t0 set_lastFrameMs]. congruence.
Qed.

Lemma loop_follows_state_machine_witness :
  gameState (fst gameOverEntry) = nextState session lastFrame.
Proof.
  exact (loop_follows_state_machine 30 session (fst lastFrame) (snd lastFrame)
           (fst gameOverEntry) (snd gameOverEntry) lastFrame_loop).
Defined.

Lemma caseGameOver_run env g w :
  sameRun g (fst (caseGameOver env (g, w)))
  /\ trace (snd (caseGameOver env (g, w))) = trace w
  /\ nvsBest (snd (caseGameOver env (g, w))) = nvsBest w
  /\ hasPlayedFirstStartBeep (fst (caseGameOver env (g, w)))
     = hasPlayedFirstStartBeep g.
Proof.
  unfold caseGameOver, bothButtonsHeld, sameRun.
  destruct (leftLow env w && rightLow env w).
  - destruct (t0 g =? 0); cbn [t0 set_t0];
      match goal with |- context [if ?c then _ else _] => destruct c end;
      cbn; repeat split; reflexivity.
  - cbn; repeat split; reflexivity.
Qed.

(** X2. A call of [loop()] made outside PLAYING that does not start a run leaves
    the variables of the run as they are (score, paddle, ball, speed mode,
    chronometer, final and best time), plays nothing and stores nothing. *)
Theorem run_frozen_outside_playing fuel env g w g' w' :
  loop fuel env (g, w) = Some (g', w') ->
  gameState g <> STATE_PLAYING -> gameState g' <> STATE_PLAYING ->
  sameRun g g' /\ trace w' = trace w /\ nvsBest w' = nvsBest w.
Proof.
  intros Hl Hs Hs'.
  destruct (frameDue (g, w)) eqn:Hd.
  2:{ rewrite (loop_gated fuel env g w Hd) in Hl; inversion Hl; subst g' w'.
      unfold sameRun; repeat split; reflexivity. }
  rewrite (loop_open fuel env g w Hd) in Hl.
  destruct (gameState g) eqn:Eg; [|congruence|].
  - destruct (rightLow env w) eqn:Hr.
    + exfalso. rewrite (caseStart_go fuel env _ _ w Hr) in Hl.
      destruct (waitRelease fuel env _) as [w3|]; [|discriminate].
      injection Hl as Eg' _. subst g'. apply Hs'. reflexivity.
    + rewrite (caseStart_idle fuel env _ _ w Hr) in Hl.
      injection Hl as Eg' Ew. subst g' w'.
      destruct (blinkStep_run (millis w) (set_lastFrameMs (millis w) g))
        as (_ & B & _).
      split; [exact B|]. split; reflexivity.
  - destruct (caseGameOver_run env (set_lastFrameMs (millis w) g) w)
      as (R & T & N & _).
    destruct (caseGameOver env (set_lastFrameMs (millis w) g, w)) as [gx wx].
    injection Hl as Eg' Ew. subst gx wx. cbn [fst snd] in R, T, N.
    split; [exact R|]. split; [exact T|exact N].
Qed.

Lemma run_frozen_outside_playing_witness :
  exists st',
    loop 30 session gameOverEntry = Some st'
    /\ elapsedSec (fst st') = elapsedSec (fst gameOverEntry)
    /\ trace (snd st') = trace (snd gameOverEntry).
Proof.
  destruct (loop 30 session gameOverEntry) as [[g' w']|] eqn:E;
    [|vm_compute in E; discriminate E].
  exists (g', w'). split; [reflexivity|].
  assert (Hs' : gameState g' <> STATE_PLAYING).
  { vm_compute in E. injection E as Eg _. subst g'. discriminate. }
  destruct (run_frozen_outside_playing 30 session (fst gameOverEntry)
              (snd gameOverEntry) g' w' E ltac:(discriminate) Hs') as (R & T & _).
  split; [apply R|exact T].
Defined.

(** ** The frame gate *)

Lemma u32_sub_l a b : u32 (u32 a - b) = u32 (a - b).
Proof. unfold u32. apply Zminus_mod_idemp_l. Qed.

Lemma u32_sub_r a b : u32 (a - u32 b) = u32 (a - b).
Proof. unfold u32. apply Zminus_mod_idemp_r. Qed.

Lemma u32_add_l a b : u32 (u32 a + b) = u32 (a + b).
Proof. unfold u32. apply Zplus_mod_idemp_l. Qed.

Lemma u32_add_r a b : u32 (a + u32 b) = u32 (a + b).
Proof. unfold u32. apply Zplus_mod_idemp_r. Qed.

Lemma u32_small z : 0 <= z < 4294967296 -> u32 z = z.
Proof. unfold u32. apply Z.mod_small. Qed.

Lemma u32_succ_small x : u32 x + 1 < 4294967296 -> u32 (x + 1) = u32 x + 1.
Proof.
  intros H. pose proof (u32_range x). rewrite <- u32_add_l.
  apply u32_small. lia.
Qed.

Lemma gate_wait n : forall fuel env g w,
  16 - u32 (millis w - lastFrameMs g) <= Z.of_nat n ->
  exists k w',
    (k <= n)%nat
    /\ run fuel env k (g, w) = Some (g, w')
    /\ clock w' = clock w + Z.of_nat k
    /\ trace w' = trace w /\ nvsBest w' = nvsBest w /\ draws w' = draws w
    /\ frameDue (g, w') = true.
Proof.
  induction n as [|n IH]; intros fuel env g w Hn.
  - exists O, w. cbn [run]. repeat split; try lia.
    unfold frameDue; cbn [fst snd]. apply negb_true_iff, Z.ltb_ge.
    unfold FRAME_INTERVAL, FPS. change (1000 / 60) with 16. lia.
  - destruct (frameDue (g, w)) eqn:Hd.
    + exists O, w. cbn [run]. repeat split; try lia. exact Hd.
    + pose proof Hd as Hlt. unfold frameDue in Hlt; cbn [fst snd] in Hlt.
      apply negb_false_iff, Z.ltb_lt in Hlt.
      unfold FRAME_INTERVAL, FPS in Hlt. change (1000 / 60) with 16 in Hlt.
      assert (Hstep : u32 (millis (delay 1 w) - lastFrameMs g)
                      = u32 (millis w - lastFrameMs g) + 1).
      { unfold millis in *. cbn [clock delay]. rewrite !u32_sub_l in *.
        replace (clock w + 1 - lastFrameMs g) with (clock w - lastFrameMs g + 1)
          by lia.
        apply u32_succ_small. lia. }
      destruct (IH fuel env g (delay 1 w)) as (k & w' & Hk & Hr & Hc & Ht & Hv & Hdr & Hf).
      { rewrite Hstep. lia. }
      exists (S k), w'. cbn [run]. rewrite (loop_gated fuel env g w Hd).
      repeat split; try assumption; try lia.
      cbn [clock delay] in Hc. lia.
Qed.

(** X3. However the clock stands, after at most 16 calls of [loop()] that only wait
    1 ms each and change no variable, the frame gate is open. *)
Theorem frame_gate_opens fuel env g w :
  exists k w',
    (k <= 16)%nat
    /\ run fuel env k (g, w) = Some (g, w')
    /\ clock w' = clock w + Z.of_nat k
    /\ trace w' = trace w
    /\ frameDue (g, w') = true.
Proof.
  destruct (gate_wait 16 fuel env g w) as (k & w' & Hk & Hr & Hc & Ht & _ & _ & Hf).
  - pose proof (u32_range (millis w - lastFrameMs g)).
    change (Z.of_nat 16) with 16. lia.
  - exists k, w'. repeat split; assumption.
Qed.

(** ** What a frame leaves alone *)

Lemma sameClockwork_refl g : sameClockwork g g.
Proof. unfold sameClockwork; repeat split; reflexivity. Qed.

Lemma sameClockwork_trans g1 g2 g3 :
  sameClockwork g1 g2 -> sameClockwork g2 g3 -> sameClockwork g1 g3.
Proof.
  unfold sameClockwork; intros H1 H2.
  destruct H1 as (a1 & a2 & a3 & a4 & a5 & a6 & a7).
  destruct H2 as (b1 & b2 & b3 & b4 & b5 & b6 & b7).
  repeat split; congruence.
Qed.

Lemma handleButtonsPaddle_clockwork env g w :
  sameClockwork g (handleButtonsPaddle env (g, w)).
Proof. unfold sameClockwork, handleButtonsPaddle; frame_solve. Qed.

Lemma ball_blocks_clockwork g w :
  sameClockwork g (fst (bounceCeiling (bounceSides (moveBall g, w)))).
Proof. unfold sameClockwork, bounceCeiling, bounceSides, moveBall; frame_solve. Qed.

Lemma paddleRebound_clockwork g : sameClockwork g (paddleRebound g).
Proof. unfold sameClockwork, paddleRebound; frame_solve. Qed.

Lemma resetBall_clockwork env g w : sameClockwork g (fst (resetBall env (g, w))).
Proof. unfold sameClockwork, resetBall; cbn; repeat split; reflexivity. Qed.

Lemma capture_clockwork fuel g w g' w' :
  captureFinalTimeAndUpdateBest fuel (g, w) = Some (g', w') -> sameClockwork g g'.
Proof.
  intros H; apply capture_cases in H; cbv zeta in H.
  destruct H as [(_ & -> & _)|[(_ & _ & -> & _)|(_ & _ & -> & _)]];
    unfold sameClockwork; cbn; repeat split; reflexivity.
Qed.

Lemma paddleOrMiss_clockwork fuel env g w g' w' :
  paddleOrMiss fuel env (g, w) = Some (g', w') -> sameClockwork g g'.
Proof.
  intros H; apply paddleOrMiss_cases in H.
  destruct H as [(_ & -> & _)|[(_ & _ & -> & _)|[(_ & _ & He)|(_ & _ & g2 & Hc & ->)]]].
  - apply sameClockwork_refl.
  - apply paddleRebound_clockwork.
  - pose proof (resetBall_clockwork env (set_score (i32 (score g - 1)) g)
                  (sfxLosePoint w)) as R.
    rewrite <- He in R; cbn [fst] in R. exact R.
  - apply capture_clockwork in Hc.
    unfold sameClockwork in *; cbn in *. exact Hc.
Qed.

(** In a PLAYING frame the chronometer and the speed mode are as the first two
    blocks leave them. *)
Lemma playing_clockwork fuel env g w g' w' :
  frameDue (g, w) = true -> gameState g = STATE_PLAYING ->
  loop fuel env (g, w) = Some (g', w') ->
  sameClockwork
    (updateSpeedMode (tickChronometer (millis w) (set_lastFrameMs (millis w) g))) g'.
Proof.
  intros Hd Hs Hl. rewrite (loop_playing fuel env g w Hd Hs) in Hl.
  unfold beforePaddle in Hl.
  set (g2 := updateSpeedMode _) in *. clearbody g2.
  pose proof (handleButtonsPaddle_clockwork env g2 w) as H1.
  set (g3 := handleButtonsPaddle env (g2, w)) in *. clearbody g3.
  pose proof (ball_blocks_clockwork g3 w) as H2.
  destruct (bounceCeiling (bounceSides (moveBall g3, w))) as [gB wB].
  cbn [fst] in H2. apply paddleOrMiss_clockwork in Hl.
  eapply sameClockwork_trans; [exact H1|].
  eapply sameClockwork_trans; [exact H2|exact Hl].
Qed.

(** ** The chronometer *)

Lemma tickChronometer_tied now g :
  chronometerTied g -> chronometerTied (tickChronometer now g).
Proof.
  intros (k & Hk & HL & HE). unfold tickChronometer.
  destruct (1000 <=? u32 (now - lastSecondMs g)) eqn:E; [|exists k; auto].
  set (steps := u32 (now - lastSecondMs g) / 1000).
  assert (Hs : 0 <= steps).
  { apply Z.div_pos; [apply u32_range|lia]. }
  exists (k + steps). split; [lia|].
  cbn [runStartMs lastSecondMs elapsedSec set_elapsedSec set_lastSecondMs].
  split.
  - rewrite HL, u32_add_l, u32_add_r. f_equal. lia.
  - rewrite HE, u16_u32. unfold u16. apply Zplus_mod_idemp_l.
Qed.

Lemma tickChronometer_others now g :
  runStartMs (tickChronometer now g) = runStartMs g
  /\ fastMode (tickChronometer now g) = fastMode g
  /\ speedMultiplier (tickChronometer now g) = speedMultiplier g
  /\ modeStartSec (tickChronometer now g) = modeStartSec g
  /\ hasPlayedFirstStartBeep (tickChronometer now g) = hasPlayedFirstStartBeep g.
Proof. unfold tickChronometer; frame_solve. Qed.

Lemma updateSpeedMode_chrono g :
  runStartMs (updateSpeedMode g) = runStartMs g
  /\ lastSecondMs (updateSpeedMode g) = lastSecondMs g
  /\ elapsedSec (updateSpeedMode g) = elapsedSec g
  /\ hasPlayedFirstStartBeep (updateSpeedMode g) = hasPlayedFirstStartBeep g.
Proof. unfold updateSpeedMode, setSpeedMode; frame_solve. Qed.

Lemma updateSpeedMode_agrees g :
  multiplierAgrees g -> multiplierAgrees (updateSpeedMode g).
Proof.
  unfold multiplierAgrees, updateSpeedMode, setSpeedMode. intros H.
  destruct (fastMode g) eqn:Ef;
    match goal with |- context [if ?c <=? ?d then _ else _] =>
      destruct (c <=? d) end;
    cbn [speedMultiplier fastMode set_fastMode set_speedMultiplier set_modeStartSec];
    rewrite ?Ef; first [reflexivity|exact H].
Qed.

Lemma tick_whole_seconds now g k :
  0 <= k ->
  lastSecondMs g = u32 (runStartMs g + 1000 * k) -> elapsedSec g = u16 k ->
  1000 * k <= u32 (now - runStartMs g) ->
  let whole := u32 (now - runStartMs g) / 1000 in
  elapsedSec (tickChronometer now g) = u16 whole
  /\ lastSecondMs (tickChronometer now g) = u32 (runStartMs g + 1000 * whole)
  /\ u32 (now - lastSecondMs (tickChronometer now g))
     = u32 (now - runStartMs g) mod 1000
  /\ runStartMs (tickChronometer now g) = runStartMs g.
Proof.
  intros Hk HL HE Hle; cbv zeta.
  pose proof (u32_range (now - runStartMs g)) as HD.
  set (D := u32 (now - runStartMs g)) in *.
  assert (Hdiff : u32 (now - lastSecondMs g) = D - 1000 * k).
  { rewrite HL, u32_sub_r.
    replace (now - (runStartMs g + 1000 * k)) with (now - runStartMs g - 1000 * k)
      by lia.
    rewrite <- u32_sub_l. fold D. apply u32_small. lia. }
  assert (Hq : D / 1000 = k + (D - 1000 * k) / 1000).
  { replace D with ((D - 1000 * k) + k * 1000) at 1 by lia.
    rewrite Z.div_add by lia. lia. }
  assert (Hm : D mod 1000 = (D - 1000 * k) mod 1000).
  { replace D with ((D - 1000 * k) + k * 1000) at 1 by lia.
    apply Z.mod_add. lia. }
  unfold tickChronometer. rewrite Hdiff.
  destruct (1000 <=? D - 1000 * k) eqn:E.
  - cbn [runStartMs lastSecondMs elapsedSec set_elapsedSec set_lastSecondMs].
    split; [|split; [|split; [|reflexivity]]].
    + rewrite HE, u16_u32, Hq. unfold u16. apply Zplus_mod_idemp_l.
    + rewrite HL, u32_add_l, u32_add_r, Hq. f_equal. lia.
    + rewrite HL, u32_add_l, u32_add_r, u32_sub_r.
      replace (now - (runStartMs g + 1000 * k + (D - 1000 * k) / 1000 * 1000))
        with (now - runStartMs g - (1000 * k + (D - 1000 * k) / 1000 * 1000)) by lia.
      rewrite <- u32_sub_l. fold D. rewrite Hm.
      pose proof (Z.div_mod (D - 1000 * k) 1000 ltac:(lia)).
      pose proof (Z.mod_pos_bound (D - 1000 * k) 1000 ltac:(lia)).
      rewrite u32_small by lia. lia.
  - apply Z.leb_gt in E.
    assert (Hz : (D - 1000 * k) / 1000 = 0) by (apply Z.div_small; lia).
    split; [|split; [|split; [|reflexivity]]].
    + rewrite HE, Hq, Hz. f_equal. lia.
    + rewrite HL, Hq, Hz. f_equal. lia.
    + rewrite Hdiff, Hm. symmetry. apply Z.mod_small. lia.
Qed.

(** X4. With the chronometer tied to the start of the run and not ahead of the
    clock, the chronometer block leaves [elapsedSec] at the whole seconds from
    [runStartMs] to [now], moves [lastSecondMs] to that second exactly, and
    leaves less than a second between [lastSecondMs] and [now]: whole seconds
    are added, never the raw difference, and none is skipped however late the
    frame comes. *)
Theorem chronometer_exact now g k :
  0 <= k ->
  lastSecondMs g = u32 (runStartMs g + 1000 * k) -> elapsedSec g = u16 k ->
  1000 * k <= u32 (now - runStartMs g) ->
  let whole := u32 (now - runStartMs g) / 1000 in
  elapsedSec (tickChronometer now g) = u16 whole
  /\ lastSecondMs (tickChronometer now g) = u32 (runStartMs g + 1000 * whole)
  /\ u32 (now - lastSecondMs (tickChronometer now g))
     = u32 (now - runStartMs g) mod 1000
  /\ runStartMs (tickChronometer now g) = runStartMs g.
Proof. exact (tick_whole_seconds now g k). Qed.

Lemma chronometer_exact_witness :
  elapsedSec (tickChronometer 9999 (fst lastFrame)) = 9.
Proof.
  pose proof (chronometer_exact 9999 (fst lastFrame) 6 ltac:(lia) eq_refl eq_refl
                ltac:(apply Z.leb_le; reflexivity)) as (H & _).
  exact H.
Defined.

(** ** Invariants of the chronometer and of the speed mode *)

Lemma resetGame_clockwork env g w :
  let g' := fst (resetGame env (g, w)) in
  runStartMs g' = millis w /\ lastSecondMs g' = millis w /\ elapsedSec g' = 0
  /\ fastMode g' = false /\ speedMultiplier g' = F32.of_int 1
  /\ modeStartSec g' = 0
  /\ hasPlayedFirstStartBeep g' = hasPlayedFirstStartBeep g.
Proof.
  unfold resetGame, resetGameRuntime, resetBall, setSpeedMode, random02.
  cbn [fst snd runStartMs lastSecondMs elapsedSec fastMode speedMultiplier
       modeStartSec hasPlayedFirstStartBeep
       set_score set_paddleX set_ballX set_ballY set_ballVX set_ballVY set_runStartMs
       set_lastSecondMs set_elapsedSec set_fastMode set_speedMultiplier set_modeStartSec
       set_finalTimeCaptured set_finalElapsedSec].
  repeat split; reflexivity.
Qed.

Lemma clockwork_transfer g g' :
  sameClockwork g g' ->
  (chronometerTied g -> chronometerTied g')
  /\ (multiplierAgrees g -> multiplierAgrees g').
Proof.
  intros (a1 & a2 & a3 & a4 & a5 & a6 & a7). split.
  - intros (k & Hk & HL & HE). exists k. rewrite a1, a2, a3. auto.
  - unfold multiplierAgrees. rewrite a4, a5. auto.
Qed.

Lemma sameRun_clockwork g g' :
  sameRun g g' ->
  (chronometerTied g -> chronometerTied g')
  /\ (multiplierAgrees g -> multiplierAgrees g').
Proof.
  unfold sameRun.
  intros (_ & _ & _ & _ & _ & _ & b7 & b8 & _ & b10 & b11 & b12 & _). split.
  - intros (k & Hk & HL & HE). exists k. rewrite b10, b11, b12. auto.
  - unfold multiplierAgrees. rewrite b7, b8. auto.
Qed.

Lemma loop_clockwork fuel env g w g' w' :
  loop fuel env (g, w) = Some (g', w') ->
  chronometerTied g /\ multiplierAgrees g ->
  chronometerTied g' /\ multiplierAgrees g'.
Proof.
  intros Hl (HC & HM).
  destruct (frameDue (g, w)) eqn:Hd.
  2:{ rewrite (loop_gated fuel env g w Hd) in Hl; inversion Hl; subst; auto. }
  destruct (gameState g) eqn:Hs.
  - rewrite (loop_open fuel env g w Hd), Hs in Hl.
    destruct (rightLow env w) eqn:Hr.
    + rewrite (caseStart_go fuel env _ _ w Hr) in Hl.
      destruct (waitRelease fuel env _) as [w3|]; [|discriminate].
      pose proof (resetGame_clockwork env
                    (fst (firstBeep (blinkStep (millis w)
                                       (set_lastFrameMs (millis w) g), w))) w3) as R.
      cbv zeta in R.
      destruct (resetGame env _) as [g3 w4]; cbn [fst snd] in *.
      injection Hl as Eg _. subst g'.
      destruct R as (R1 & R2 & R3 & R4 & R5 & _). split.
      * exists 0. cbn [runStartMs lastSecondMs elapsedSec set_gameState].
        rewrite R1, R2, R3. split; [lia|]. split; [|reflexivity].
        rewrite Z.mul_0_r, Z.add_0_r. symmetry. apply u32_small, u32_range.
      * unfold multiplierAgrees.
        cbn [speedMultiplier fastMode set_gameState]. rewrite R4, R5. reflexivity.
    + rewrite (caseStart_idle fuel env _ _ w Hr) in Hl.
      injection Hl as Eg _. subst g'.
      destruct (blinkStep_run (millis w) (set_lastFrameMs (millis w) g))
        as (_ & B & _).
      destruct (sameRun_clockwork _ _ B) as (T1 & T2). split; [apply T1|apply T2].
      * destruct HC as (k & Hk & HL & HE). exists k; auto.
      * exact HM.
  - pose proof (playing_clockwork fuel env g w g' w' Hd Hs Hl) as Hcw.
    destruct (clockwork_transfer _ _ Hcw) as (T1 & T2).
    destruct (tickChronometer_others (millis w) (set_lastFrameMs (millis w) g))
      as (O1 & O2 & O3 & _).
    destruct (updateSpeedMode_chrono
                (tickChronometer (millis w) (set_lastFrameMs (millis w) g)))
      as (U1 & U2 & U3 & _).
    split.
    + apply T1.
      assert (HC0 : chronometerTied (set_lastFrameMs (millis w) g)).
      { destruct HC as (k & Hk & HL & HE). exists k; auto. }
      destruct (tickChronometer_tied (millis w) _ HC0) as (k & Hk & HL & HE).
      exists k. rewrite U1, U2, U3. auto.
    + apply T2, updateSpeedMode_agrees.
      unfold multiplierAgrees. rewrite O2, O3. exact HM.
  - rewrite (loop_open fuel env g w Hd), Hs in Hl.
    destruct (caseGameOver_run env (set_lastFrameMs (millis w) g) w) as (R & _).
    destruct (caseGameOver env (set_lastFrameMs (millis w) g, w)) as [gx wx].
    injection Hl as Eg _. subst gx. cbn [fst] in R.
    destruct (sameRun_clockwork _ _ R) as (T1 & T2). split; [apply T1|apply T2].
    + destruct HC as (k & Hk & HL & HE). exists k; auto.
    + exact HM.
Qed.

Lemma reachable_clockwork env st :
  reachable env st -> chronometerTied (fst st) /\ multiplierAgrees (fst st).
Proof.
  induction 1 as [w|fuel [g w] [g' w'] _ IH Hl|g w ms _ IH _]; cbn [fst] in *.
  - split; [exists 0; repeat split; try lia; reflexivity|reflexivity].
  - exact (loop_clockwork fuel env g w g' w' Hl IH).
  - exact IH.
Qed.

(** X5. In every state the sketch can be in, [lastSecondMs] is a whole number of
    seconds after [runStartMs] and [elapsedSec] is that number (modulo 2^16):
    the chronometer does not drift. *)
Theorem chronometer_tied_to_run_start env g w :
  reachable env (g, w) ->
  exists k, 0 <= k
            /\ lastSecondMs g = u32 (runStartMs g + 1000 * k)
            /\ elapsedSec g = u16 k.
Proof. intros Hr. exact (proj1 (reachable_clockwork env (g, w) Hr)). Qed.

Lemma chronometer_tied_to_run_start_witness :
  exists k, 0 <= k
            /\ lastSecondMs (fst lastFrame)
               = u32 (runStartMs (fst lastFrame) + 1000 * k)
            /\ elapsedSec (fst lastFrame) = u16 k.
Proof.
  exact (chronometer_tied_to_run_start session (fst lastFrame) (snd lastFrame)
           lastFrame_reachable).
Defined.

(** X6. In every state the sketch can be in, the speed multiplier is 2 in FAST mode
    and 1 in NORMAL mode. *)
Theorem multiplier_follows_mode env g w :
  reachable env (g, w) ->
  speedMultiplier g = (if fastMode g then F32.of_int 2 else F32.of_int 1).
Proof. intros Hr. exact (proj2 (reachable_clockwork env (g, w) Hr)). Qed.

Lemma multiplier_follows_mode_witness :
  speedMultiplier (fst lastFrame) = F32.of_int 1.
Proof.
  exact (multiplier_follows_mode session (fst lastFrame) (snd lastFrame)
           lastFrame_reachable).
Defined.

(** X7. [updateSpeedMode] changes the mode at most once per call: a second call
    with the chronometer unchanged does nothing, even when the chronometer has
    jumped by more than a whole phase. *)
Theorem updateSpeedMode_once g :
  updateSpeedMode (updateSpeedMode g) = updateSpeedMode g.
Proof.
  unfold updateSpeedMode at 2 3.
  destruct (fastMode g) eqn:Ef;
    match goal with |- context [if ?c <=? ?d then _ else _] =>
      destruct (c <=? d) eqn:Et end.
  - unfold updateSpeedMode, setSpeedMode.
    cbn [fastMode elapsedSec modeStartSec set_fastMode set_speedMultiplier
         set_modeStartSec].
    rewrite Z.sub_diag. reflexivity.
  - unfold updateSpeedMode. rewrite Ef, Et. reflexivity.
  - unfold updateSpeedMode, setSpeedMode.
    cbn [fastMode elapsedSec modeStartSec set_fastMode set_speedMultiplier
         set_modeStartSec].
    rewrite Z.sub_diag. reflexivity.
  - unfold updateSpeedMode. rewrite Ef, Et. reflexivity.
Qed.

(** ** The party tune *)

Lemma millis_beep f w :
  millis w + 120 < 4294967296 -> millis (beep f 90 30 w) = millis w + 120.
Proof.
  intros H. apply (millis_later w); [cbn; lia|lia|exact H].
Qed.

Lemma partyLoop_runs j : forall fuel endMs i w,
  (j < fuel)%nat ->
  endMs - millis w <= 120 * Z.of_nat j ->
  (0 < Z.of_nat j -> 120 * (Z.of_nat j - 1) < endMs - millis w) ->
  millis w + 120 * Z.of_nat j < 4294967296 ->
  exists w',
    partyLoop fuel endMs i w = Some w'
    /\ clock w' = clock w + 120 * Z.of_nat j
    /\ beeps (trace w') = (beeps (trace w) + j)%nat
    /\ nvsBest w' = nvsBest w /\ draws w' = draws w.
Proof.
  induction j as [|j IH]; intros fuel endMs i w Hf Hu Hl Hw;
    (destruct fuel as [|fuel]; [lia|]); cbn [partyLoop].
  - replace (millis w <? endMs) with false by (symmetry; apply Z.ltb_ge; lia).
    exists w. repeat split; lia.
  - replace (millis w <? endMs) with true by (symmetry; apply Z.ltb_lt; lia).
    set (w1 := beep _ 90 30 w).
    assert (Hm : millis w1 = millis w + 120) by (apply millis_beep; lia).
    destruct (IH fuel endMs (u16 (i + 1)) w1) as (w' & Hr & Hc & Hb & Hn & Hd);
      try lia.
    exists w'. split; [exact Hr|].
    replace (clock w1) with (clock w + 120) in Hc by (subst w1; cbn; lia).
    replace (beeps (trace w1)) with (S (beeps (trace w))) in Hb
      by (subst w1; reflexivity).
    replace (nvsBest w1) with (nvsBest w) in Hn by (subst w1; reflexivity).
    replace (draws w1) with (draws w) in Hd by (subst w1; reflexivity).
    repeat split; try assumption; lia.
Qed.

Lemma sfxParty_notes fuel ms w :
  0 <= ms ->
  let n := (ms + 119) / 120 in
  (Z.to_nat n < fuel)%nat ->
  millis w + 120 * n < 4294967296 ->
  exists w',
    sfxParty fuel ms w = Some w'
    /\ clock w' = clock w + 120 * n
    /\ beeps (trace w') = (beeps (trace w) + Z.to_nat n)%nat
    /\ cues Party (trace w') = S (cues Party (trace w))
    /\ puts (trace w') = puts (trace w)
    /\ nvsBest w' = nvsBest w /\ draws w' = draws w.
Proof.
  intros Hms n Hf Hw. unfold sfxParty.
  pose proof (Z.div_mod (ms + 119) 120 ltac:(lia)) as Hdm.
  pose proof (Z.mod_pos_bound (ms + 119) 120 ltac:(lia)) as Hmb.
  fold n in Hdm.
  assert (Hn : 0 <= n) by (apply Z.div_pos; lia).
  pose proof (u32_range (clock w)) as Hr. fold (millis w) in Hr.
  replace (millis (emit (EvCue Party) w)) with (millis w) by reflexivity.
  rewrite (u32_small (millis w + ms)) by lia.
  destruct (partyLoop_runs (Z.to_nat n) fuel (millis w + ms) 0 (emit (EvCue Party) w))
    as (w' & Hl & Hc & Hb & Hv & Hd); try (rewrite Z2Nat.id by lia);
    try replace (millis (emit (EvCue Party) w)) with (millis w) by reflexivity;
    try lia.
  exists w'. split; [exact Hl|].
  rewrite Z2Nat.id in Hc by lia.
  split; [exact Hc|]. split; [exact Hb|].
  split; [rewrite (cues_partyLoop Party _ _ _ _ _ Hl); reflexivity|].
  split; [rewrite (puts_partyLoop _ _ _ _ _ Hl); reflexivity|].
  split; assumption.
Qed.

(** X8. Away from the wrap of the clock's reading, [sfxParty(ms)] plays
    [ceil(ms / 120)] notes of 90 ms with 30 ms gaps and so lasts that many times
    120 ms: 17 notes and 2040 ms for the 2000 ms the sketch asks for.  It touches
    neither NVS nor the random generator. *)
Theorem party_lasts_whole_notes fuel ms w :
  0 <= ms ->
  let n := (ms + 119) / 120 in
  (Z.to_nat n < fuel)%nat ->
  millis w + 120 * n < 4294967296 ->
  exists w',
    sfxParty fuel ms w = Some w'
    /\ clock w' = clock w + 120 * n
    /\ beeps (trace w') = (beeps (trace w) + Z.to_nat n)%nat
    /\ cues Party (trace w') = S (cues Party (trace w))
    /\ puts (trace w') = puts (trace w)
    /\ nvsBest w' = nvsBest w /\ draws w' = draws w.
Proof. exact (sfxParty_notes fuel ms w). Qed.

Lemma party_lasts_whole_notes_witness :
  exists w',
    sfxParty 30 2000 coldStart = Some w'
    /\ clock w' = 2040 /\ beeps (trace w') = 17%nat.
Proof.
  destruct (party_lasts_whole_notes 30 2000 coldStart ltac:(lia)
              ltac:(apply Nat.ltb_lt; reflexivity)
              ltac:(apply Z.ltb_lt; reflexivity))
    as (w' & H1 & H2 & H3 & _).
  exists w'. split; [exact H1|]. split; [exact H2|exact H3].
Defined.

(** X9. When the clock's reading is less than [ms] away from its 32-bit wrap, the
    end instant [millis() + ms] wraps below the current reading and [sfxParty]
    returns at once without playing a note. *)
Theorem party_silent_near_wrap fuel ms w :
  fuel <> O -> 0 <= ms < 4294967296 -> 4294967296 <= millis w + ms ->
  sfxParty fuel ms w = Some (emit (EvCue Party) w).
Proof.
  intros Hf Hms Hw. unfold sfxParty.
  destruct fuel as [|fuel]; [contradiction|]. cbn [partyLoop].
  replace (millis (emit (EvCue Party) w)) with (millis w) by reflexivity.
  pose proof (u32_range (clock w)) as Hr. fold (millis w) in Hr.
  assert (He : u32 (millis w + ms) = millis w + ms - 4294967296).
  { unfold u32. symmetry. apply (Z.mod_unique _ _ 1); lia. }
  rewrite He.
  replace (millis w <? millis w + ms - 4294967296) with false
    by (symmetry; apply Z.ltb_ge; lia).
  reflexivity.
Qed.

Lemma party_silent_near_wrap_witness :
  sfxParty 30 2000 nearWrap = Some (emit (EvCue Party) nearWrap).
Proof.
  apply party_silent_near_wrap;
    [discriminate|lia|apply Z.leb_le; reflexivity].
Defined.

(** ** Starting a run *)

Lemma waitRelease_spec fuel env : forall w w',
  waitRelease fuel env w = Some w' ->
  rightLow env w' = false
  /\ (exists k, 0 <= k /\ clock w' = clock w + 10 * k
                /\ forall j, 0 <= j < k -> btnRight env (clock w + 10 * j) = true)
  /\ trace w' = trace w /\ nvsBest w' = nvsBest w /\ draws w' = draws w.
Proof.
  induction fuel as [|fuel IH]; intros w w'; cbn [waitRelease]; [discriminate|].
  destruct (rightLow env w) eqn:Hr.
  - intros H. destruct (IH _ _ H) as (H1 & (k & Hk & Hc & Hall) & H3 & H4 & H5).
    split; [exact H1|]. split; [|auto].
    exists (k + 1). split; [lia|]. split; [cbn [clock delay] in Hc; lia|].
    intros j Hj. destruct (Z.eq_dec j 0) as [->|Hne].
    + rewrite Z.mul_0_r, Z.add_0_r. exact Hr.
    + specialize (Hall (j - 1) ltac:(lia)). cbn [clock delay] in Hall.
      replace (clock w + 10 * j) with (clock w + 10 + 10 * (j - 1)) by lia.
      exact Hall.
  - intros H; inversion H; subst w'. split; [exact Hr|]. split; [|auto].
    exists 0. split; [lia|]. split; [lia|]. intros j Hj; lia.
Qed.

Lemma waitRelease_returns env k : forall fuel w,
  (k < fuel)%nat -> btnRight env (clock w + 10 * Z.of_nat k) = false ->
  exists w', waitRelease fuel env w = Some w'.
Proof.
  induction k as [|k IH]; intros fuel w Hf Hb;
    (destruct fuel as [|fuel]; [lia|]); cbn [waitRelease].
  - unfold rightLow. rewrite Z.mul_0_r, Z.add_0_r in Hb. rewrite Hb. eauto.
  - destruct (rightLow env w); [|eauto].
    apply IH; [lia|]. cbn [clock delay].
    replace (clock w + 10 + 10 * Z.of_nat k) with (clock w + 10 * Z.of_nat (S k))
      by lia.
    exact Hb.
Qed.

Lemma firstBeep_spec g w :
  hasPlayedFirstStartBeep (fst (firstBeep (g, w))) = true
  /\ cues StartFirst (trace (snd (firstBeep (g, w))))
     = (cues StartFirst (trace w)
        + (if hasPlayedFirstStartBeep g then 0 else 1))%nat
  /\ (forall c, Cue_eqb c StartFirst = false ->
        cues c (trace (snd (firstBeep (g, w)))) = cues c (trace w))
  /\ puts (trace (snd (firstBeep (g, w)))) = puts (trace w)
  /\ nvsBest (snd (firstBeep (g, w))) = nvsBest w
  /\ draws (snd (firstBeep (g, w))) = draws w
  /\ clock (snd (firstBeep (g, w)))
     = clock w + (if hasPlayedFirstStartBeep g then 0 else 120)
  /\ sameRun g (fst (firstBeep (g, w)))
  /\ t0 (fst (firstBeep (g, w))) = t0 g.
Proof.
  unfold firstBeep, sameRun.
  destruct (hasPlayedFirstStartBeep g) eqn:E; cbn [fst snd].
  - repeat split; try lia; auto.
  - repeat split; try reflexivity; try (cbn; lia).
    intros c Hc. cbn. rewrite Hc. reflexivity.
Qed.

Lemma start_frame fuel env g w g' w' :
  gameState g = STATE_START -> frameDue (g, w) = true -> rightLow env w = true ->
  loop fuel env (g, w) = Some (g', w') ->
  gameState g' = STATE_PLAYING
  /\ rightLow env w' = false
  /\ (exists k, 0 <= k
        /\ clock w' = clock w + (if hasPlayedFirstStartBeep g then 0 else 120)
                      + 60 + 10 * k)
  /\ score g' = 10 /\ paddleX g' = F32.of_int 52 /\ seeded g'
  /\ elapsedSec g' = 0 /\ runStartMs g' = millis w' /\ lastSecondMs g' = millis w'
  /\ fastMode g' = false /\ speedMultiplier g' = F32.of_int 1 /\ modeStartSec g' = 0
  /\ finalTimeCaptured g' = false /\ finalElapsedSec g' = 0
  /\ bestTimeSec g' = bestTimeSec g /\ t0 g' = t0 g
  /\ hasPlayedFirstStartBeep g' = true
  /\ nvsBest w' = nvsBest w /\ puts (trace w') = puts (trace w)
  /\ draws w' = S (draws w).
Proof.
  intros Hs Hd Hr Hl.
  rewrite (loop_open fuel env g w Hd), Hs in Hl.
  rewrite (caseStart_go fuel env _ _ w Hr) in Hl.
  set (g0 := set_lastFrameMs (millis w) g) in *.
  destruct (blinkStep_run (millis w) g0) as (B1 & B2 & B3 & B4 & _).
  set (g1 := blinkStep (millis w) g0) in *.
  assert (A : sameRun g g1 /\ t0 g1 = t0 g
              /\ hasPlayedFirstStartBeep g1 = hasPlayedFirstStartBeep g).
  { subst g0. auto. }
  clearbody g1. clear B1 B2 B3 B4 g0. destruct A as (A1 & A2 & A3).
  destruct (firstBeep_spec g1 w) as (F1 & _ & _ & F4 & F5 & F6 & F7 & F8 & F9).
  destruct (firstBeep (g1, w)) as [g2 w2]; cbn [fst snd] in *.
  destruct (waitRelease fuel env (delay 60 w2)) as [w3|] eqn:Ew; [|discriminate].
  destruct (waitRelease_spec fuel env _ _ Ew)
    as (W1 & (k & Hk & W2 & _) & W3 & W4 & W5).
  cbn [clock delay trace nvsBest draws] in W2, W3, W4, W5.
  pose proof (resetGame_spec env g2 w3) as R; cbv zeta in R.
  pose proof (resetGame_clockwork env g2 w3) as C; cbv zeta in C.
  pose proof (resetGame_seeded env g2 w3) as Sd.
  assert (Hw4 : clock (snd (resetGame env (g2, w3))) = clock w3
                /\ trace (snd (resetGame env (g2, w3))) = trace w3
                /\ nvsBest (snd (resetGame env (g2, w3))) = nvsBest w3
                /\ draws (snd (resetGame env (g2, w3))) = S (draws w3))
    by (repeat split; reflexivity).
  destruct (resetGame env (g2, w3)) as [g3 w4]; cbn [fst snd] in *.
  injection Hl as Eg Ew'. subst g' w'.
  destruct R as (R1 & R2 & R3 & R4 & R5 & _ & R7 & R8 & R9 & R10 & R11).
  destruct C as (C1 & C2 & C3 & C4 & C5 & C6 & C7).
  destruct Hw4 as (K1 & K2 & K3 & K4).
  destruct A1 as (_ & _ & _ & _ & _ & _ & _ & _ & _ & _ & _ & _ & _ & _ & A15).
  destruct F8 as (_ & _ & _ & _ & _ & _ & _ & _ & _ & _ & _ & _ & _ & _ & F15).
  cbn [gameState score paddleX elapsedSec runStartMs lastSecondMs fastMode
       speedMultiplier modeStartSec finalTimeCaptured finalElapsedSec bestTimeSec t0
       hasPlayedFirstStartBeep set_gameState].
  assert (Hm : millis w4 = millis w3) by (unfold millis; rewrite K1; reflexivity).
  split; [reflexivity|].
  split; [unfold rightLow in *; rewrite K1; exact W1|].
  split; [exists k; split; [exact Hk|]; rewrite K1, W2, F7, A3; lia|].
  split; [exact R1|]. split; [exact R2|]. split; [exact Sd|].
  split; [exact R8|]. split; [rewrite Hm; exact C1|]. split; [rewrite Hm; exact C2|].
  split; [exact C4|]. split; [exact C5|]. split; [exact C6|].
  split; [exact R3|]. split; [exact R4|].
  split; [rewrite R5, F15; exact A15|]. split; [rewrite R11, F9; exact A2|].
  split; [rewrite C7; exact F1|].
  split; [rewrite K3, W4; exact F5|].
  split; [rewrite K2, W3; exact F4|].
  rewrite K4, W5, F6. reflexivity.
Qed.

(** X10. A START frame that reads the right button down starts a run only once a
    reading, taken 60 ms later and then every 10 ms, finds the button up; the run
    then begins in the same instant with 10 points, the paddle centred, the ball
    recreated, the chronometer at 0 and stamped with that instant, NORMAL speed,
    no final time, and the best time, the hold timer and NVS as they were. *)
Theorem run_starts_after_release fuel env g w g' w' :
  gameState g = STATE_START -> frameDue (g, w) = true -> rightLow env w = true ->
  loop fuel env (g, w) = Some (g', w') ->
  gameState g' = STATE_PLAYING
  /\ rightLow env w' = false
  /\ (exists k, 0 <= k
        /\ clock w' = clock w + (if hasPlayedFirstStartBeep g then 0 else 120)
                      + 60 + 10 * k)
  /\ score g' = 10 /\ paddleX g' = F32.of_int 52 /\ seeded g'
  /\ elapsedSec g' = 0 /\ runStartMs g' = millis w' /\ lastSecondMs g' = millis w'
  /\ fastMode g' = false /\ speedMultiplier g' = F32.of_int 1 /\ modeStartSec g' = 0
  /\ finalTimeCaptured g' = false /\ finalElapsedSec g' = 0
  /\ bestTimeSec g' = bestTimeSec g /\ t0 g' = t0 g
  /\ hasPlayedFirstStartBeep g' = true
  /\ nvsBest w' = nvsBest w /\ puts (trace w') = puts (trace w)
  /\ draws w' = S (draws w).
Proof. exact (start_frame fuel env g w g' w'). Qed.

Lemma run_starts_after_release_witness :
  exists st',
    loop 30 session (setup coldStart) = Some st'
    /\ gameState (fst st') = STATE_PLAYING
    /\ rightLow session (snd st') = false
    /\ score (fst st') = 10.
Proof.
  destruct (loop 30 session (setup coldStart)) as [[g' w']|] eqn:E;
    [|vm_compute in E; discriminate E].
  exists (g', w'). split; [reflexivity|].
  destruct (run_starts_after_release 30 session (fst (setup coldStart))
              (snd (setup coldStart)) g' w' eq_refl eq_refl eq_refl E)
    as (H1 & H2 & _ & H4 & _).
  split; [exact H1|]. split; [exact H2|exact H4].
Defined.

(** X11. The wait for the release ends as soon as a reading finds the button up: with
    the button up at the [k]-th reading and fuel for [k + 1] readings, it
    returns. *)
Theorem start_returns_once_released fuel env g w k :
  gameState g = STATE_START -> frameDue (g, w) = true -> rightLow env w = true ->
  (k < fuel)%nat ->
  btnRight env (clock w + (if hasPlayedFirstStartBeep g then 0 else 120) + 60
                + 10 * Z.of_nat k) = false ->
  exists st', loop fuel env (g, w) = Some st'.
Proof.
  intros Hs Hd Hr Hf Hb.
  rewrite (loop_open fuel env g w Hd), Hs.
  rewrite (caseStart_go fuel env _ _ w Hr).
  set (g0 := set_lastFrameMs (millis w) g).
  destruct (blinkStep_run (millis w) g0) as (_ & _ & _ & B4 & _).
  set (g1 := blinkStep (millis w) g0) in *.
  replace (hasPlayedFirstStartBeep g0) with (hasPlayedFirstStartBeep g) in B4
    by reflexivity.
  clearbody g1.
  destruct (firstBeep_spec g1 w) as (_ & _ & _ & _ & _ & _ & F7 & _).
  destruct (firstBeep (g1, w)) as [g2 w2]; cbn [fst snd] in *.
  destruct (waitRelease_returns env k fuel (delay 60 w2) Hf) as (w3 & Hw).
  { cbn [clock delay]. rewrite F7, B4.
    replace (clock w + (if hasPlayedFirstStartBeep g then 0 else 120) + 60
             + 10 * Z.of_nat k)
      with (clock w + (if hasPlayedFirstStartBeep g then 0 else 120) + 60
            + 10 * Z.of_nat k) in Hb by reflexivity.
    exact Hb. }
  rewrite Hw. eauto.
Qed.

Lemma start_returns_once_released_witness :
  exists st', loop 30 session (setup coldStart) = Some st'.
Proof.
  apply (start_returns_once_released 30 session (fst (setup coldStart))
           (snd (setup coldStart)) 0); try reflexivity.
  apply Nat.ltb_lt; reflexivity.
Defined.

(** ** Which cue is played when *)

Lemma ball_blocks_cues c g w :
  Cue_eqb c WallBounce = false ->
  cues c (trace (snd (bounceCeiling (bounceSides (g, w))))) = cues c (trace w).
Proof.
  intros Hc. unfold bounceCeiling, bounceSides.
  destruct (hitsLeft g); [|destruct (hitsRight g)]; cbn [fst snd];
    match goal with |- context [if ?b then _ else _] => destruct b end;
    cbn [snd]; cbn; rewrite ?Hc; reflexivity.
Qed.

Lemma beforePaddle_cues c env g w :
  Cue_eqb c WallBounce = false ->
  cues c (trace (snd (beforePaddle env (g, w)))) = cues c (trace w).
Proof. intros Hc. unfold beforePaddle. apply ball_blocks_cues, Hc. Qed.

Lemma idle_cues fuel env g w g' w' :
  frameDue (g, w) = false \/ gameState g <> STATE_PLAYING ->
  loop fuel env (g, w) = Some (g', w') ->
  (forall c, Cue_eqb c StartFirst = false -> cues c (trace w') = cues c (trace w))
  /\ (cues StartFirst (trace w') + latch g = cues StartFirst (trace w) + latch g')%nat
  /\ (latch g <= latch g')%nat.
Proof.
  intros Hc Hl.
  destruct (frameDue (g, w)) eqn:Hd.
  2:{ rewrite (loop_gated fuel env g w Hd) in Hl; inversion Hl; subst g' w'.
      repeat split; auto. }
  destruct Hc as [Hc|Hc]; [discriminate|].
  rewrite (loop_open fuel env g w Hd) in Hl.
  destruct (gameState g) eqn:Hs; [|congruence|].
  - destruct (rightLow env w) eqn:Hr.
    + rewrite (caseStart_go fuel env _ _ w Hr) in Hl.
      set (g0 := set_lastFrameMs (millis w) g) in *.
      destruct (blinkStep_run (millis w) g0) as (_ & _ & _ & B4 & _).
      set (g1 := blinkStep (millis w) g0) in *.
      replace (hasPlayedFirstStartBeep g0) with (hasPlayedFirstStartBeep g) in B4
        by reflexivity.
      clearbody g1.
      destruct (firstBeep_spec g1 w) as (F1 & F2 & F3 & _).
      destruct (firstBeep (g1, w)) as [g2 w2]; cbn [fst snd] in *.
      destruct (waitRelease fuel env (delay 60 w2)) as [w3|] eqn:Ew; [|discriminate].
      destruct (waitRelease_spec fuel env _ _ Ew) as (_ & _ & W3 & _).
      cbn [trace delay] in W3.
      pose proof (resetGame_clockwork env g2 w3) as C; cbv zeta in C.
      pose proof (resetGame_trace env g2 w3) as T.
      destruct (resetGame env (g2, w3)) as [g3 w4]; cbn [fst snd] in *.
      injection Hl as Eg Ew'. subst g' w'.
      destruct C as (_ & _ & _ & _ & _ & _ & C7).
      unfold latch. cbn [hasPlayedFirstStartBeep set_gameState].
      rewrite C7, F1, T, W3, F2, B4.
      split; [intros c Hcc; apply F3, Hcc|].
      destruct (hasPlayedFirstStartBeep g); split; lia.
    + rewrite (caseStart_idle fuel env _ _ w Hr) in Hl.
      injection Hl as Eg Ew'. subst g' w'.
      destruct (blinkStep_run (millis w) (set_lastFrameMs (millis w) g))
        as (_ & _ & _ & B4 & _).
      unfold latch. rewrite B4. cbn [hasPlayedFirstStartBeep set_lastFrameMs].
      repeat split; auto.
  - destruct (caseGameOver_run env (set_lastFrameMs (millis w) g) w)
      as (_ & T & _ & H).
    destruct (caseGameOver env (set_lastFrameMs (millis w) g, w)) as [gx wx].
    injection Hl as Eg Ew'. subst gx wx. cbn [fst snd] in T, H.
    unfold latch. rewrite H, T. cbn [hasPlayedFirstStartBeep set_lastFrameMs].
    repeat split; auto.
Qed.

Lemma playing_cues fuel env g w g' w' :
  Inv g -> gameState g = STATE_PLAYING -> frameDue (g, w) = true ->
  loop fuel env (g, w) = Some (g', w') ->
  cues LosePoint (trace w')
  = (cues LosePoint (trace w) + Z.to_nat (score g - score g'))%nat
  /\ cues Party (trace w')
     = (cues Party (trace w)
        + (if (bestTimeSec g <? bestTimeSec g')%Z then 1 else 0))%nat
  /\ cues StartFirst (trace w') = cues StartFirst (trace w)
  /\ latch g' = latch g.
Proof.
  intros HI Hs Hd Hl.
  assert (HL : latch g' = latch g).
  { destruct (playing_clockwork fuel env g w g' w' Hd Hs Hl)
      as (_ & _ & _ & _ & _ & _ & H7).
    destruct (updateSpeedMode_chrono
                (tickChronometer (millis w) (set_lastFrameMs (millis w) g)))
      as (_ & _ & _ & U4).
    destruct (tickChronometer_others (millis w) (set_lastFrameMs (millis w) g))
      as (_ & _ & _ & _ & O5).
    unfold latch. rewrite H7, U4, O5. reflexivity. }
  pose proof (playing_frame fuel env g w g' w' HI Hs Hd Hl) as Hf; cbv zeta in Hf.
  pose proof (beforePaddle_session env g w) as Hss.
  pose proof (beforePaddle_cues LosePoint env g w eq_refl) as CL.
  pose proof (beforePaddle_cues Party env g w eq_refl) as CP.
  pose proof (beforePaddle_cues StartFirst env g w eq_refl) as CS.
  destruct (beforePaddle env (g, w)) as [gB wB]; cbn [fst snd] in *.
  destruct Hss as (S1 & S2 & S3 & S4 & S5 & S6 & S7).
  destruct HI as (I1 & _ & _ & I4 & I5).
  destruct Hf as [(Hm & [(-> & ->)|(-> & ->)])|[(Hm & Hgt & He)|(Hm & H1 & He)]].
  - rewrite S2, S5, CL, CP, CS, Z.sub_diag, Z.ltb_irrefl.
    repeat split; try lia; exact HL.
  - destruct (paddleRebound_frame gB) as (_ & F2 & _ & _ & F5 & _).
    rewrite F2, F5, S2, S5, Z.sub_diag, Z.ltb_irrefl.
    replace (cues LosePoint (trace (sfxPaddleHit wB))) with (cues LosePoint (trace wB))
      by reflexivity.
    replace (cues Party (trace (sfxPaddleHit wB))) with (cues Party (trace wB))
      by reflexivity.
    replace (cues StartFirst (trace (sfxPaddleHit wB)))
      with (cues StartFirst (trace wB)) by reflexivity.
    rewrite CL, CP, CS. repeat split; try lia; exact HL.
  - pose proof (resetBall_frame env (set_score (score g - 1) gB) (sfxLosePoint wB))
      as F; cbv zeta in F.
    pose proof (resetBall_trace env (set_score (score g - 1) gB) (sfxLosePoint wB))
      as T.
    rewrite <- He in F, T; cbn [fst snd] in F, T.
    destruct F as (_ & F2 & _ & _ & F5 & _).
    cbn [score bestTimeSec set_score] in F2, F5.
    rewrite F2, F5, S5, T, Z.ltb_irrefl.
    replace (score g - (score g - 1)) with 1 by lia.
    replace (cues LosePoint (trace (sfxLosePoint wB)))
      with (S (cues LosePoint (trace wB))) by reflexivity.
    replace (cues Party (trace (sfxLosePoint wB))) with (cues Party (trace wB))
      by reflexivity.
    replace (cues StartFirst (trace (sfxLosePoint wB)))
      with (cues StartFirst (trace wB)) by reflexivity.
    rewrite CL, CP, CS. change (Z.to_nat 1) with 1%nat.
    repeat split; try lia; exact HL.
  - set (final := finalAt g (sfxLosePoint wB)) in *.
    destruct (bestTimeSec g <? final) eqn:Eb.
    + destruct He as (-> & Hp). unfold sfxParty in Hp.
      rewrite (cues_partyLoop LosePoint _ _ _ _ _ Hp),
        (cues_partyLoop Party _ _ _ _ _ Hp),
        (cues_partyLoop StartFirst _ _ _ _ _ Hp).
      cbn [score bestTimeSec set_gameState set_bestTimeSec set_finalTimeCaptured
           set_finalElapsedSec set_score].
      rewrite Eb, H1.
      replace (cues LosePoint (trace (emit (EvCue Party)
                 (putBest final (sfxLosePoint wB)))))
        with (S (cues LosePoint (trace wB))) by reflexivity.
      replace (cues Party (trace (emit (EvCue Party)
                 (putBest final (sfxLosePoint wB)))))
        with (S (cues Party (trace wB))) by reflexivity.
      replace (cues StartFirst (trace (emit (EvCue Party)
                 (putBest final (sfxLosePoint wB)))))
        with (cues StartFirst (trace wB)) by reflexivity.
      rewrite CL, CP, CS. change (Z.to_nat (1 - 0)) with 1%nat.
      repeat split; try lia; exact HL.
    + destruct He as (-> & ->).
      cbn [score bestTimeSec set_gameState set_bestTimeSec set_finalTimeCaptured
           set_finalElapsedSec set_score].
      rewrite S5, Z.ltb_irrefl, H1.
      replace (cues LosePoint (trace (sfxLosePoint wB)))
        with (S (cues LosePoint (trace wB))) by reflexivity.
      replace (cues Party (trace (sfxLosePoint wB))) with (cues Party (trace wB))
        by reflexivity.
      replace (cues StartFirst (trace (sfxLosePoint wB)))
        with (cues StartFirst (trace wB)) by reflexivity.
      rewrite CL, CP, CS. change (Z.to_nat (1 - 0)) with 1%nat.
      repeat split; try lia; exact HL.
Qed.

(** X12. The lose-point cue is played once for every point lost and never
    otherwise: over a call of [loop()] made in PLAYING, the number of times it
    has been played grows by the number of points the score drops. *)
Theorem lose_point_cue_per_point env fuel g w g' w' :
  reachable env (g, w) -> gameState g = STATE_PLAYING ->
  loop fuel env (g, w) = Some (g', w') ->
  cues LosePoint (trace w')
  = (cues LosePoint (trace w) + Z.to_nat (score g - score g'))%nat.
Proof.
  intros Hr Hs Hl.
  pose proof (reachable_Inv env (g, w) Hr) as HI; cbn [fst] in HI.
  destruct (frameDue (g, w)) eqn:Hd.
  - exact (proj1 (playing_cues fuel env g w g' w' HI Hs Hd Hl)).
  - rewrite (loop_gated fuel env g w Hd) in Hl; inversion Hl; subst g' w'.
    rewrite Z.sub_diag. cbn [trace delay Z.to_nat]. lia.
Qed.

Lemma lose_point_cue_per_point_witness :
  cues LosePoint (trace (snd afterFirstMiss))
  = S (cues LosePoint (trace (snd firstMiss))).
Proof.
  assert (Hr : reachable session firstMiss).
  { apply (run_reachable 30 session (Z.to_nat 341) (setup coldStart));
      [apply reach_setup|vm_compute; reflexivity]. }
  assert (Hl : loop 30 session firstMiss = Some afterFirstMiss)
    by (vm_compute; reflexivity).
  rewrite (lose_point_cue_per_point session 30 (fst firstMiss) (snd firstMiss)
             (fst afterFirstMiss) (snd afterFirstMiss) Hr eq_refl Hl).
  vm_compute. reflexivity.
Defined.

(** X13. The party tune is started exactly by the calls of [loop()] that raise the
    best time, once by each. *)
Theorem party_cue_iff_new_best env fuel g w g' w' :
  reachable env (g, w) -> loop fuel env (g, w) = Some (g', w') ->
  cues Party (trace w')
  = (cues Party (trace w)
     + (if (bestTimeSec g <? bestTimeSec g')%Z then 1 else 0))%nat.
Proof.
  intros Hr Hl.
  pose proof (reachable_Inv env (g, w) Hr) as HI; cbn [fst] in HI.
  assert (Hidle : frameDue (g, w) = false \/ gameState g <> STATE_PLAYING ->
                  cues Party (trace w')
                  = (cues Party (trace w)
                     + (if (bestTimeSec g <? bestTimeSec g')%Z then 1 else 0))%nat).
  { intros Hc.
    destruct (idle_frame fuel env g w g' w' Hc Hl) as (B & _).
    destruct (idle_cues fuel env g w g' w' Hc Hl) as (C & _).
    rewrite B, Z.ltb_irrefl, (C Party eq_refl). lia. }
  destruct (frameDue (g, w)) eqn:Hd; [|apply Hidle; left; reflexivity].
  destruct (gameState g) eqn:Hs;
    [apply Hidle; right; discriminate| |apply Hidle; right; discriminate].
  exact (proj1 (proj2 (playing_cues fuel env g w g' w' HI Hs Hd Hl))).
Qed.

Lemma party_cue_iff_new_best_witness :
  cues Party (trace (snd gameOverEntry)) = S (cues Party (trace (snd lastFrame))).
Proof.
  rewrite (party_cue_iff_new_best session 30 (fst lastFrame) (snd lastFrame)
             (fst gameOverEntry) (snd gameOverEntry)
             lastFrame_reachable lastFrame_loop).
  vm_compute. reflexivity.
Defined.

Lemma loop_latch env fuel g w g' w' :
  reachable env (g, w) -> loop fuel env (g, w) = Some (g', w') ->
  (cues StartFirst (trace w') + latch g = cues StartFirst (trace w) + latch g')%nat
  /\ (latch g <= latch g')%nat.
Proof.
  intros Hr Hl.
  pose proof (reachable_Inv env (g, w) Hr) as HI; cbn [fst] in HI.
  destruct (frameDue (g, w)) eqn:Hd;
    [|exact (proj2 (idle_cues fuel env g w g' w' (or_introl Hd) Hl))].
  destruct (gameState g) eqn:Hs.
  - apply (idle_cues fuel env g w g' w'); [right; congruence|exact Hl].
  - destruct (playing_cues fuel env g w g' w' HI Hs Hd Hl) as (_ & _ & C & L).
    rewrite C, L. split; lia.
  - apply (idle_cues fuel env g w g' w'); [right; congruence|exact Hl].
Qed.

Lemma run_latch env fuel n : forall g w g' w',
  reachable env (g, w) -> run fuel env n (g, w) = Some (g', w') ->
  (cues StartFirst (trace w') + latch g = cues StartFirst (trace w) + latch g')%nat.
Proof.
  induction n as [|n IH]; intros g w g' w' Hr; cbn [run].
  - intros H; inversion H; subst; reflexivity.
  - destruct (loop fuel env (g, w)) as [[g1 w1]|] eqn:E; [|discriminate].
    intros H.
    pose proof (IH g1 w1 g' w' (reach_loop env fuel _ _ Hr E) H) as H1.
    destruct (loop_latch env fuel g w g1 w1 Hr E) as (H2 & _). lia.
Qed.

(** X14. However many calls of [loop()] follow [setup()], the first-start beep has
    been played once if a run was ever started and not at all otherwise: it is
    never played a second time. *)
Theorem first_start_beep_once env fuel n w g' w' :
  run fuel env n (setup w) = Some (g', w') ->
  cues StartFirst (trace w')
  = (cues StartFirst (trace w) + (if hasPlayedFirstStartBeep g' then 1 else 0))%nat.
Proof.
  intros H.
  pose proof (run_latch env fuel n (fst (setup w)) (snd (setup w)) g' w'
                (reach_setup env w) H) as Hq.
  unfold latch in Hq.
  replace (hasPlayedFirstStartBeep (fst (setup w))) with false in Hq by reflexivity.
  replace (trace (snd (setup w))) with (trace w) in Hq by reflexivity.
  lia.
Qed.

Lemma first_start_beep_once_witness :
  cues StartFirst (trace (snd secondGameOver)) = 1%nat.
Proof.
  exact (first_start_beep_once session 30 (Z.to_nat 10257) coldStart
           (fst secondGameOver) (snd secondGameOver)
           ltac:(vm_compute; reflexivity)).
Defined.

(** ** How long a frame holds up the game *)





(** ** The best time and NVS *)








(** ** Capturing twice, holding across the wrap, standing still *)

(** X17. Once [captureFinalTimeAndUpdateBest] has returned, calling it again, at any
    later time, changes nothing: neither the final time, nor the best time, nor
    NVS, and no tune is played. *)
Theorem capture_only_once fuel g w g1 w1 fuel' w2 :
  captureFinalTimeAndUpdateBest fuel (g, w) = Some (g1, w1) ->
  captureFinalTimeAndUpdateBest fuel' (g1, w2) = Some (g1, w2).
Proof.
  intros H. apply capture_cases in H; cbv zeta in H.
  assert (Hc : finalTimeCaptured g1 = true).
  { destruct H as [(Hc & -> & _)|[(_ & _ & -> & _)|(_ & _ & -> & _)]];
      [exact Hc|reflexivity|reflexivity]. }
  unfold captureFinalTimeAndUpdateBest. rewrite Hc. reflexivity.
Qed.

Lemma capture_only_once_witness :
  captureFinalTimeAndUpdateBest 30 (fst gameOverEntry, snd gameOverEntry)
  = Some (fst gameOverEntry, snd gameOverEntry).
Proof.
  apply (capture_only_once 30 (fst gameOverEntry) (snd gameOverEntry)
           (fst gameOverEntry) (snd gameOverEntry) 30 (snd gameOverEntry)).
  vm_compute. reflexivity.
Defined.

(** X18. The hold is measured by 32-bit subtraction, so it is right across the wrap
    of the clock's reading: with both buttons down and the timer started at true
    time [c], at a reading other than 0, [bothButtonsHeld] answers yes exactly
    when 800 ms or more have passed, as long as that is less than 2^32 ms; the
    timer is left alone. *)
Theorem hold_measured_across_wrap env g w c d :
  leftLow env w && rightLow env w = true ->
  t0 g = u32 c -> t0 g <> 0 -> clock w = c + d -> 0 <= d < 4294967296 ->
  bothButtonsHeld 800 env (g, w) = (800 <=? d, g).
Proof.
  intros Hb Ht Hn Hc Hd. unfold bothButtonsHeld. rewrite Hb.
  replace (t0 g =? 0) with false by (symmetry; apply Z.eqb_neq; exact Hn).
  unfold millis. rewrite Ht, Hc, u32_sub_l, u32_sub_r.
  replace (c + d - c) with d by lia. rewrite (u32_small d Hd). reflexivity.
Qed.

Lemma hold_measured_across_wrap_witness :
  bothButtonsHeld 800 session
    (set_t0 4294967000 powerOn,
     {| clock := 4294967000 + 900; draws := O; nvsBest := None; trace := [] |})
  = (true, set_t0 4294967000 powerOn).
Proof.
  apply (hold_measured_across_wrap session (set_t0 4294967000 powerOn) _
           4294967000 900); try reflexivity; [discriminate|lia].
Defined.

(** X19. The timer uses 0 for "not started": a hold that begins in the frame in which
    the clock reads exactly 0 does not start the timer, and that frame answers
    no. *)
Theorem hold_not_started_at_zero ms env g w :
  leftLow env w && rightLow env w = true -> t0 g = 0 -> millis w = 0 -> 0 < ms ->
  bothButtonsHeld ms env (g, w) = (false, set_t0 0 g).
Proof.
  intros Hb Ht Hm Hms. unfold bothButtonsHeld. rewrite Hb, Ht, Hm.
  cbn [Z.eqb t0 set_t0]. rewrite Z.sub_diag.
  replace (ms <=? u32 0) with false by (symmetry; apply Z.leb_gt; exact Hms).
  reflexivity.
Qed.

Lemma hold_not_started_at_zero_witness :
  bothButtonsHeld 800 session (powerOn, coldStart) = (false, set_t0 0 powerOn).
Proof.
  apply hold_not_started_at_zero; reflexivity.
Defined.

Lemma le_not_gt x y : F32.le x y = true -> F32.lt y x = false.
Proof.
  unfold F32.le, F32.lt, SFleb, SFltb. rewrite (F32Facts.SFcompare_antisym x y).
  destruct (SFcompare x y) as [[ | | ]|]; cbn; try discriminate; reflexivity.
Qed.

(** X20. With both buttons up, [handleButtonsPaddle] leaves a paddle that is on the
    field exactly where it is: the two clamps change nothing there. *)
Theorem paddle_rests_without_input env g w :
  leftLow env w = false -> rightLow env w = false -> inField (paddleX g) ->
  handleButtonsPaddle env (g, w) = g.
Proof.
  intros Hl Hr (H0 & H1). unfold handleButtonsPaddle. rewrite Hl, Hr.
  cbv zeta. rewrite (le_not_gt _ _ H0).
  replace (F32.gt (paddleX g) (F32.of_int (SCREEN_WIDTH - paddleWidth))) with false
    by (symmetry; exact (le_not_gt _ _ H1)).
  reflexivity.
Qed.

Lemma paddle_rests_without_input_witness :
  handleButtonsPaddle
    {| btnLeft := fun _ => false; btnRight := fun _ => false; coin := fun _ => true |}
    lastFrame = fst lastFrame.
Proof.
  apply paddle_rests_without_input; try reflexivity. split; reflexivity.
Defined.

(** ** The times on the screen are never cut *)

Lemma timeText_render secs :
  0 <= secs < 65536 -> timeText secs = render (secs / 60) (secs mod 60).
Proof.
  intros Hs. unfold timeText.
  assert (Hmm : u16 (secs / 60) = secs / 60).
  { unfold u16; apply Z.mod_small. split; [apply Z.div_pos; lia|].
    apply Z.div_lt_upper_bound; lia. }
  assert (Hss : u16 (secs mod 60) = secs mod 60).
  { unfold u16; apply Z.mod_small.
    pose proof (Z.mod_pos_bound secs 60 ltac:(lia)). lia. }
  rewrite Hmm, Hss. reflexivity.
Qed.

Lemma timeText_clean secs :
  0 <= secs < 65536 ->
  forallb (fun c => negb (Ascii.eqb c NUL)) (timeText secs) = true
  /\ (5 <= List.length (timeText secs) <= 7)%nat.
Proof.
  intros Hs. pose proof (textOK_range secs Hs) as Hok. unfold textOK in Hok.
  apply andb_true_iff in Hok; destruct Hok as (Hok & _).
  apply andb_true_iff in Hok; destruct Hok as (Hnul & H7).
  apply Nat.leb_le in H7. split; [exact Hnul|]. split; [|exact H7].
  unfold timeText, render, pad02u. cbv zeta.
  rewrite length_app. cbn [List.length]. rewrite !length_app, !repeat_length.
  clear. lia.
Qed.

Lemma format8_whole secs out :
  0 <= secs < 65536 ->
  cstring (formatTimeMMSS secs out 8) = timeText secs
  /\ List.length (formatTimeMMSS secs out 8)
     = Nat.max (S (List.length (timeText secs))) (List.length out).
Proof.
  intros Hs. destruct (timeText_clean secs Hs) as (Hnul & H5 & H7).
  unfold formatTimeMMSS. change (6 <=? 8)%nat with true. cbv iota.
  fold (timeText secs). cbn [snprintf].
  rewrite Nat.min_l by exact H7. rewrite firstn_all.
  split; [apply cstring_terminated; exact Hnul|].
  rewrite length_app. cbn [List.length]. rewrite length_skipn. lia.
Qed.

Lemma gameOverLine_whole label secs timeStr buf :
  0 <= secs < 65536 ->
  forallb (fun c => negb (Ascii.eqb c NUL)) (list_ascii_of_string label) = true ->
  List.length (list_ascii_of_string label) = 8%nat ->
  cstring (gameOverLine label secs timeStr buf)
  = list_ascii_of_string label ++ render (secs / 60) (secs mod 60)
  /\ (List.length (cstring (gameOverLine label secs timeStr buf)) <= 15)%nat
  /\ List.length (gameOverLine label secs timeStr buf)
     = Nat.max (S (List.length (cstring (gameOverLine label secs timeStr buf))))
               (List.length buf).
Proof.
  intros Hs Hl H8. destruct (timeText_clean secs Hs) as (Hnul & H5 & H7).
  destruct (format8_whole secs timeStr Hs) as (Hc & _).
  unfold gameOverLine. cbv zeta. rewrite Hc.
  set (line := list_ascii_of_string label ++ timeText secs).
  assert (Hlen : (13 <= List.length line <= 15)%nat).
  { unfold line. rewrite length_app, H8. lia. }
  assert (Hclean : forallb (fun c => negb (Ascii.eqb c NUL)) line = true).
  { unfold line. rewrite forallb_app, Hl, Hnul. reflexivity. }
  cbn [snprintf]. rewrite Nat.min_l by lia. rewrite firstn_all.
  rewrite (cstring_terminated line _ Hclean).
  split; [unfold line; rewrite (timeText_render secs Hs); reflexivity|].
  split; [lia|].
  rewrite length_app. cbn [List.length]. rewrite length_skipn. lia.
Qed.

(** X21. In every state the sketch can be in, the chronometer [drawHUD] prints is the
    whole text of ["%02u:%02u"] for the minutes and seconds of [elapsedSec]: the
    eight-character buffer never cuts it, and the buffer is not overrun. *)
Theorem hud_time_whole env g w tbuf :
  reachable env (g, w) -> List.length tbuf = 8%nat ->
  hudTime g tbuf = render (elapsedSec g / 60) (elapsedSec g mod 60)
  /\ (5 <= List.length (hudTime g tbuf) <= 7)%nat
  /\ List.length (formatTimeMMSS (elapsedSec g) tbuf 8) = 8%nat.
Proof.
  intros Hr Hb.
  destruct (proj1 (reachable_clockwork env (g, w) Hr)) as (k & _ & _ & He).
  cbn [fst] in He.
  assert (Hs : 0 <= elapsedSec g < 65536).
  { rewrite He. unfold u16. apply Z.mod_pos_bound. lia. }
  destruct (format8_whole (elapsedSec g) tbuf Hs) as (Hc & Hl).
  destruct (timeText_clean (elapsedSec g) Hs) as (_ & H57).
  unfold hudTime. rewrite Hc.
  split; [apply timeText_render; exact Hs|]. split; [exact H57|].
  rewrite Hl, Hb. lia.
Qed.

Lemma hud_time_whole_witness :
  hudTime (fst lastFrame) (blank 8) = list_ascii_of_string "00:06".
Proof.
  destruct (hud_time_whole session (fst lastFrame) (snd lastFrame) (blank 8)
              lastFrame_reachable eq_refl) as (H & _).
  rewrite H. vm_compute. reflexivity.
Defined.

(** X22. In every state the sketch can be in, the two lines of the game-over screen
    are whole: ["Tiempo: "] followed by the final time as mm:ss and ["Best:   "]
    followed by the best time, at most 15 characters each in their
    18-character buffers, which are not overrun; and the final time shown is
    never above the best time shown. *)
Theorem game_over_lines_whole env g w timeStr tbuf bestStr bbuf :
  reachable env (g, w) ->
  List.length tbuf = 18%nat -> List.length bbuf = 18%nat ->
  cstring (timeLine g timeStr tbuf)
  = list_ascii_of_string "Tiempo: "
    ++ render (finalElapsedSec g / 60) (finalElapsedSec g mod 60)
  /\ cstring (bestLine g bestStr bbuf)
     = list_ascii_of_string "Best:   "
       ++ render (bestTimeSec g / 60) (bestTimeSec g mod 60)
  /\ (List.length (cstring (timeLine g timeStr tbuf)) <= 15)%nat
  /\ (List.length (cstring (bestLine g bestStr bbuf)) <= 15)%nat
  /\ List.length (timeLine g timeStr tbuf) = 18%nat
  /\ List.length (bestLine g bestStr bbuf) = 18%nat
  /\ finalElapsedSec g <= bestTimeSec g.
Proof.
  intros Hr Ht Hb.
  pose proof (reachable_Inv env (g, w) Hr) as (_ & _ & _ & Hfb & Hbest).
  cbn [fst] in Hfb, Hbest.
  destruct (gameOverLine_whole "Tiempo: " (finalElapsedSec g) timeStr tbuf
              ltac:(lia) eq_refl eq_refl) as (T1 & T2 & T3).
  destruct (gameOverLine_whole "Best:   " (bestTimeSec g) bestStr bbuf
              ltac:(lia) eq_refl eq_refl) as (B1 & B2 & B3).
  unfold timeLine, bestLine.
  split; [exact T1|]. split; [exact B1|]. split; [exact T2|]. split; [exact B2|].
  split; [rewrite T3, Ht; lia|]. split; [rewrite B3, Hb; lia|]. lia.
Qed.

Lemma game_over_lines_whole_witness :
  cstring (timeLine (fst gameOverEntry) (blank 8) (blank 18))
  = list_ascii_of_string "Tiempo: 00:07"
  /\ cstring (bestLine (fst gameOverEntry) (blank 8) (blank 18))
     = list_ascii_of_string "Best:   00:07".
Proof.
  destruct (game_over_lines_whole session (fst gameOverEntry) (snd gameOverEntry)
              (blank 8) (blank 18) (blank 8) (blank 18)
              (reach_loop session 30 lastFrame gameOverEntry
                 lastFrame_reachable lastFrame_loop)
              eq_refl eq_refl) as (H1 & H2 & _).
  rewrite H1, H2. split; vm_compute; reflexivity.
Defined.

(** ** The final time next to the chronometer *)

Lemma div_near a e : 0 <= a -> 0 <= e < 1000 ->
  (a + e) / 1000 = a / 1000 \/ (a + e) / 1000 = a / 1000 + 1.
Proof.
  intros Ha He.
  pose proof (Z.div_mod a 1000 ltac:(lia)) as Hq.
  pose proof (Z.mod_pos_bound a 1000 ltac:(lia)) as Hr.
  destruct (Z_lt_ge_dec (a mod 1000 + e) 1000) as [Hlt|Hge].
  - left. replace (a + e) with ((a mod 1000 + e) + a / 1000 * 1000) by lia.
    rewrite Z.div_add by lia. rewrite Z.div_small by lia. lia.
  - right. replace (a + e) with ((a mod 1000 + e - 1000) + (a / 1000 + 1) * 1000)
      by lia.
    rewrite Z.div_add by lia. rewrite Z.div_small by lia. lia.
Qed.

Lemma u16_next z : u16 (u16 z + 1) = u16 (z + 1).
Proof. unfold u16. apply Zplus_mod_idemp_l. Qed.

(** X23. In the frame that ends a run, with the chronometer tied to the start of the
    run and not ahead of the clock and no wrap of the 32-bit difference within
    the frame: the chronometer of the HUD stands at the whole seconds from
    [runStartMs] to the start of the frame, and the final time, taken after the
    cues of the frame, is that value or one more (modulo 2^16). *)
Theorem final_time_next_to_chronometer env fuel g w g' w' k :
  reachable env (g, w) -> gameState g = STATE_PLAYING ->
  loop fuel env (g, w) = Some (g', w') -> gameState g' = STATE_GAMEOVER ->
  0 <= k ->
  lastSecondMs g = u32 (runStartMs g + 1000 * k) -> elapsedSec g = u16 k ->
  1000 * k <= u32 (millis w - runStartMs g) ->
  u32 (millis w - runStartMs g) + 418 < 4294967296 ->
  elapsedSec g' = u16 (u32 (millis w - runStartMs g) / 1000)
  /\ (finalElapsedSec g' = elapsedSec g'
      \/ finalElapsedSec g' = u16 (elapsedSec g' + 1)).
Proof.
  intros Hr Hs Hl Hover Hk HL HE Hle Hnw.
  pose proof (reachable_Inv env (g, w) Hr) as HI; cbn [fst] in HI.
  destruct (frameDue (g, w)) eqn:Hd.
  2:{ rewrite (loop_gated fuel env g w Hd) in Hl; inversion Hl; subst g' w'.
      cbn [gameState set_lastFrameMs] in Hover. congruence. }
  assert (Hel : elapsedSec g' = u16 (u32 (millis w - runStartMs g) / 1000)).
  { pose proof (playing_clockwork fuel env g w g' w' Hd Hs Hl) as (_ & _ & C3 & _).
    rewrite C3. destruct (updateSpeedMode_chrono
                            (tickChronometer (millis w) (set_lastFrameMs (millis w) g)))
      as (_ & _ & U3 & _).
    rewrite U3.
    exact (proj1 (tick_whole_seconds (millis w) (set_lastFrameMs (millis w) g) k
                    Hk HL HE Hle)). }
  split; [exact Hel|].
  pose proof (playing_frame fuel env g w g' w' HI Hs Hd Hl) as Hf; cbv zeta in Hf.
  pose proof (beforePaddle_session env g w) as Hss.
  pose proof (beforePaddle_clock env g w) as Hck.
  destruct (beforePaddle env (g, w)) as [gB wB]; cbn [fst snd] in *.
  destruct Hss as (S1 & S2 & S3 & S4 & S5 & S6 & S7). clear HI Hl Hr.
  assert (Hfin : finalElapsedSec g' = finalAt g (sfxLosePoint wB)).
  { destruct Hf as [(Hm & [(-> & ->)|(-> & ->)])|[(Hm & Hgt & He)|(Hm & H1 & He)]].
    - congruence.
    - destruct (paddleRebound_frame gB) as (F1 & _). congruence.
    - pose proof (resetBall_frame env (set_score (score g - 1) gB) (sfxLosePoint wB))
        as F; cbv zeta in F.
      rewrite <- He in F; cbn [fst] in F. destruct F as (F1 & _).
      cbn [gameState set_score] in F1. congruence.
    - set (final := finalAt g (sfxLosePoint wB)) in *.
      destruct (bestTimeSec g <? final); destruct He as (-> & _); reflexivity. }
  rewrite Hfin, Hel. unfold finalAt.
  set (D := u32 (millis w - runStartMs g)) in *.
  set (e := clock wB + 400 - clock w).
  assert (He : 400 <= e <= 418) by (unfold e; lia).
  assert (HD' : u32 (millis (sfxLosePoint wB) - runStartMs g) = D + e).
  { unfold millis. rewrite clock_sfxLosePoint.
    replace (clock wB + 400) with (clock w + e) by (unfold e; lia).
    rewrite u32_sub_l. unfold D, millis. rewrite (u32_sub_l (clock w)).
    pose proof (u32_range (clock w - runStartMs g)) as HR.
    unfold D, millis in Hnw. rewrite (u32_sub_l (clock w)) in Hnw.
    replace (clock w + e - runStartMs g) with ((clock w - runStartMs g) + e) by lia.
    rewrite <- u32_add_l. apply u32_small. lia. }
  rewrite HD'. rewrite u16_next.
  pose proof (u32_range (millis w - runStartMs g)) as HR. fold D in HR.
  destruct (div_near D e ltac:(lia) ltac:(lia)) as [-> | ->]; [left|right]; reflexivity.
Qed.

Lemma final_time_next_to_chronometer_witness :
  elapsedSec (fst gameOverEntry) = 6 /\ finalElapsedSec (fst gameOverEntry) = 7.
Proof.
  destruct (final_time_next_to_chronometer session 30 (fst lastFrame) (snd lastFrame)
              (fst gameOverEntry) (snd gameOverEntry) 6
              lastFrame_reachable eq_refl lastFrame_loop eq_refl
              ltac:(lia) eq_refl eq_refl
              ltac:(apply Z.leb_le; reflexivity) ltac:(apply Z.ltb_lt; reflexivity))
    as (H1 & H2).
  split; [rewrite H1; vm_compute; reflexivity|].
  destruct H2 as [H2|H2]; [vm_compute in H2; discriminate|].
  rewrite H2. vm_compute. reflexivity.
Defined.
